(** * oxyfloat: the Argo float cache and retrieval pipeline

    A shallow embedding of [oxyfloat/ArgoData.py] (class [ArgoData]) and of
    [scripts/load_cache.py] ([ArgoDataLoader.short_cache_file]).

    - Python [str] is [string]; [re] patterns run on its characters.
    - Python [int] is [Z]; [None] is [None] of an [option].
    - numpy / Python floats are binary64 [float]s, with [nan] for a missing
      value (this is what [dropna] drops).
    - The HDF store is a finite map from names to tables, the remote servers
      are a [World] of functions, and every method runs in the monad [M]:
      it reads and writes the store, emits a trace of log calls and network
      fetches, and returns a value or raises an exception.
    - Python's [round(x, 1)] is a parameter [round1] of the methods. *)

From Stdlib Require Import ZArith Floats Ascii String DecimalString DecimalZ DecimalPos.
From stdpp Require Import gmap strings list.

Local Open Scope string_scope.
Local Open Scope Z_scope.
Local Open Scope list_scope.

(** ** Python strings *)

Module PyStr.

Definition chars (s : string) : list ascii := list_ascii_of_string s.
Definition str (l : list ascii) : string := string_of_list_ascii l.

(** [sub in s] *)
Fixpoint contains (sub s : string) : bool :=
  String.prefix sub s ||
  match s with
  | EmptyString => false
  | String _ s' => contains sub s'
  end.

(** [s[1:-2]] *)
Definition slice_1_m2 (s : string) : string :=
  String.substring 1 (String.length s - 3)%nat s.

(** [s.split(sep)] for a one-character separator *)
Fixpoint split_aux (sep : ascii) (s : string) (cur : list ascii) : list string :=
  match s with
  | EmptyString => [str (rev cur)]
  | String a s' =>
      if Ascii.eqb a sep then str (rev cur) :: split_aux sep s' []
      else split_aux sep s' (a :: cur)
  end.
Definition split (sep : ascii) (s : string) : list string := split_aux sep s [].

(** [sep.join(parts)] *)
Fixpoint join (sep : string) (parts : list string) : string :=
  match parts with
  | [] => EmptyString
  | [p] => p
  | p :: ps => p +:+ sep +:+ join sep ps
  end.

Definition is_digit (a : ascii) : bool :=
  let n := nat_of_ascii a in (48 <=? n)%nat && (n <=? 57)%nat.

(** ['{:d}'.format(z)] *)
Definition format_d (z : Z) : string := NilZero.string_of_int (Z.to_int z).

(** [int(s)] for a non-empty string of decimal digits, the only argument
    it is given here *)
Definition int (s : list ascii) : Z :=
  default 0 (Z.of_uint <$> NilZero.uint_of_string (str s)).

End PyStr.

(** ** The fragment of [re] that the patterns of this program use *)

Module Re.

Inductive cclass :=
| Chr (a : ascii)      (* an ordinary character *)
| Any                  (* [.]: anything but a newline *)
| Digit.               (* [\d] and [[0-9]] *)

Inductive regex :=
| One (c : cclass)
| Plus (c : cclass)    (* [c+], greedy *)
| Cat (r1 r2 : regex)
| Group (r : regex)    (* [( r )]; the patterns here never nest groups *)
| Eol.                 (* [$]: at the end, or before a final newline *)

Definition newline : ascii := "010"%char.

Definition accepts (c : cclass) (a : ascii) : bool :=
  match c with
  | Chr b => Ascii.eqb a b
  | Any => negb (Ascii.eqb a newline)
  | Digit => PyStr.is_digit a
  end.

Section Matcher.
Context {R : Type}.

(** [c+]: the longest run first, then shorter ones (backtracking). The
    continuation gets the text consumed and the text left. *)
Fixpoint plus (c : cclass) (s : list ascii)
    (k : list ascii → list ascii → option R) : option R :=
  match s with
  | [] => None
  | a :: s' =>
      if accepts c a then
        match plus c s' (λ m rest, k (a :: m) rest) with
        | Some r => Some r
        | None => k [a] s'
        end
      else None
  end.

(** [run r s gs k]: match [r] at the head of [s]; [gs] are the groups
    closed so far. *)
Fixpoint run (r : regex) (s : list ascii) (gs : list (list ascii))
    (k : list ascii → list (list ascii) → list ascii → option R) : option R :=
  match r with
  | One c =>
      match s with
      | a :: s' => if accepts c a then k [a] gs s' else None
      | [] => None
      end
  | Plus c => plus c s (λ m rest, k m gs rest)
  | Cat r1 r2 =>
      run r1 s gs (λ m1 gs1 rest1,
        run r2 rest1 gs1 (λ m2 gs2 rest2, k (m1 ++ m2) gs2 rest2))
  | Group r1 => run r1 s gs (λ m gs1 rest, k m (gs1 ++ [m]) rest)
  | Eol =>
      match s with
      | [] => k [] gs []
      | [a] => if Ascii.eqb a newline then k [] gs s else None
      | _ => None
      end
  end.
End Matcher.

(** A match object: its groups, [group(1)] first. *)
Definition match_at (r : regex) (s : list ascii) : option (list (list ascii)) :=
  run r s [] (λ _ gs _, Some gs).

(** [r.search(s)]: the leftmost position where [r] matches. *)
Fixpoint search_from (r : regex) (s : list ascii) : option (list (list ascii)) :=
  match match_at r s with
  | Some gs => Some gs
  | None =>
      match s with
      | [] => None
      | _ :: s' => search_from r s'
      end
  end.

Definition search (r : regex) (s : string) : option (list (list ascii)) :=
  search_from r (PyStr.chars s).

(** The literal text [s] as a pattern, followed by [r]. *)
Fixpoint lit (s : string) (r : regex) : regex :=
  match s with
  | EmptyString => r
  | String a s' => Cat (One (Chr a)) (lit s' r)
  end.

End Re.

(** ** Tables, datasets, exceptions and the trace *)

(** A table cell: a number ([nan] when missing) or a string. *)
Inductive cell :=
| Num (x : float)
| Str (s : string).

(** What a numpy array gives at an integer index: a scalar or a row. Times
    ([JULD]) are numbers like the rest. *)
Inductive item :=
| Scalar (x : float)
| Row (xs : list float).

(** A row label: a position of the default index, or a tuple of the
    hierarchical index (wmo, time, lon, lat, pressure). *)
Inductive label :=
| Pos (n : nat)
| Tuple (wmo : string) (time lon lat : item) (pressure : float).

Record Series := { s_values : list cell; s_index : list label }.

Record DataFrame := { index : list label; columns : list (string * list cell) }.

(** A variable of a remote dataset: its array ([values[i]] is [nth i]), or
    one whose read fails on the server. *)
Inductive variable :=
| Values (a : list item)
| Unreadable.

Abbreviation Dataset := (gmap string variable).

Inductive exn :=
| KeyError
| IndexError
| AttributeError
| TypeError
| IOError
| ServerError
| RequiredVariableNotPresent.

Inductive level := ERROR | WARN | INFO | DEBUG.

(** What a method does besides its result: a call of the logger (the format
    and the arguments that matter), a request to a server, or a run of
    [ptrepack]. Opening a remote dataset counts as the fetch of that profile. *)
Inductive event :=
| Log (l : level) (msg : string) (args : list string)
| FetchGlobalMeta (url : string)
| FetchCatalog (url : string)
| FetchProfile (url : string)
| Repack.

(** The cache file: its named nodes, each a table with its [attrs.metadata].
    A read of a name that is not there raises [KeyError]. *)
Abbreviation Store := (gmap string (DataFrame * option (list string))).

(** A method: from the store to the new store, the trace, and the value
    returned or the exception raised *)
Definition M (A : Type) : Type := Store → Store * list event * (exn + A).

Definition ret {A} (a : A) : M A := λ st, (st, [], inr a).
Definition raise {A} (e : exn) : M A := λ st, (st, [], inl e).
Definition bind {A B} (m : M A) (f : A → M B) : M B :=
  λ st,
    match m st with
    | (st1, ev1, inl e) => (st1, ev1, inl e)
    | (st1, ev1, inr a) =>
        match f a st1 with
        | (st2, ev2, r) => (st2, ev1 ++ ev2, r)
        end
    end.
Definition emit (e : event) : M unit := λ st, (st, [e], inr tt).
Definition logger (l : level) (msg : string) (args : list string) : M unit :=
  emit (Log l msg args).

(** [try: m  except e: h] for the exceptions chosen by [catches]. *)
Definition try_except {A} (m : M A) (catches : exn → bool) (h : exn → M A) : M A :=
  λ st,
    match m st with
    | (st1, ev1, inl e) =>
        if catches e then
          match h e st1 with
          | (st2, ev2, r) => (st2, ev1 ++ ev2, r)
          end
        else (st1, ev1, inl e)
    | res => res
    end.

(** [try: m  finally: f] *)
Definition try_finally {A} (m : M A) (f : M unit) : M A :=
  λ st,
    match m st with
    | (st1, ev1, r) =>
        match f st1 with
        | (st2, ev2, inl e) => (st2, ev1 ++ ev2, inl e)
        | (st2, ev2, inr _) => (st2, ev1 ++ ev2, r)
        end
    end.

Definition lift {A} (r : exn + A) : M A := λ st, (st, [], r).

Notation "x <- m ;; k" := (bind m (λ x, k))
  (at level 100, m at next level, right associativity, only parsing).
Notation "m ;; k" := (bind m (λ _, k))
  (at level 100, right associativity, only parsing).

Definition is_exn (e1 e2 : exn) : bool :=
  match e1, e2 with
  | KeyError, KeyError | IndexError, IndexError | AttributeError, AttributeError
  | TypeError, TypeError | IOError, IOError | ServerError, ServerError
  | RequiredVariableNotPresent, RequiredVariableNotPresent => true
  | _, _ => false
  end.

(** Python's own result type, for code that touches neither store nor log. *)
Definition rbind {A B} (r : exn + A) (f : A → exn + B) : exn + B :=
  match r with
  | inl e => inl e
  | inr a => f a
  end.

Fixpoint rmap {A B} (f : A → exn + B) (l : list A) : exn + list B :=
  match l with
  | [] => inr []
  | a :: l' => rbind (f a) (λ b, rbind (rmap f l') (λ bs, inr (b :: bs)))
  end.

Fixpoint foldM {A B} (f : B → A → M B) (b : B) (l : list A) : M B :=
  match l with
  | [] => ret b
  | a :: l' => b' <- f b a ;; foldM f b' l'
  end.

(** ** pandas tables *)

(** [pd.DataFrame()] *)
Definition DataFrame0 : DataFrame := {| index := []; columns := [] |}.

(** [df.empty]: no rows or no columns *)
Definition df_empty (df : DataFrame) : bool :=
  (length (index df) =? 0)%nat || (length (columns df) =? 0)%nat.

Fixpoint assoc_set {V} (k : string) (v : V) (d : list (string * V)) : list (string * V) :=
  match d with
  | [] => [(k, v)]
  | (k', v') :: d' =>
      if String.eqb k' k then (k, v) :: d' else (k', v') :: assoc_set k v d'
  end.

Fixpoint assoc_get {V} (k : string) (d : list (string * V)) : option V :=
  match d with
  | [] => None
  | (k', v) :: d' => if String.eqb k' k then Some v else assoc_get k d'
  end.

(** [df[v] = s] for a series on the table's own index (the only use here):
    the first column assigned to an empty table brings its index along. *)
Definition df_setitem (df : DataFrame) (v : string) (s : Series) : DataFrame :=
  match columns df, index df with
  | [], [] => {| index := s_index s; columns := [(v, s_values s)] |}
  | _, _ => {| index := index df; columns := assoc_set v (s_values s) (columns df) |}
  end.

(** [df[v]] *)
Definition df_getitem (df : DataFrame) (v : string) : exn + list cell :=
  match assoc_get v (columns df) with
  | Some vals => inr vals
  | None => inl KeyError
  end.

Definition is_missing (c : cell) : bool :=
  match c with
  | Num x => PrimFloat.is_nan x
  | Str _ => false
  end.

(** [s.dropna().empty] *)
Definition dropna_empty (vals : list cell) : bool := forallb is_missing vals.

(** [a.append(b)]: the rows of [a] then those of [b], over the union of the
    columns, a column missing on one side filled with [nan]. *)
Definition df_append (a b : DataFrame) : DataFrame :=
  let pad (n : nat) := replicate n (Num PrimFloat.nan) in
  let na := length (index a) in
  let nb := length (index b) in
  let names :=
    (columns a).*1 ++ filter (λ n, bool_decide (n ∉ (columns a).*1)) (columns b).*1 in
  {| index := index a ++ index b;
     columns :=
       (λ n, (n, default (pad na) (assoc_get n (columns a)) ++
                 default (pad nb) (assoc_get n (columns b)))) <$> names |}.

(** ** The fixed names of the class *)

Definition _GLOBAL_META : string := "global_meta".
Definition _coordinates : list string :=
  ["PRES_ADJUSTED"; "LATITUDE"; "LONGITUDE"; "JULD"].
Definition _fixed_cache_base : string := "oxyfloat_fixed_cache".

(** ['age([0-9]+)'], ['profiles([0-9]+)'], ['pressure([0-9]+)'] *)
Definition _ageRE : Re.regex := Re.lit "age" (Re.Group (Re.Plus Re.Digit)).
Definition _profilesRE : Re.regex := Re.lit "profiles" (Re.Group (Re.Plus Re.Digit)).
Definition _pressureRE : Re.regex := Re.lit "pressure" (Re.Group (Re.Plus Re.Digit)).

(** [[a for a in dir(self) if not callable(a) and a.endswith("RE")]], in the
    sorted order of [dir], each with the value [__getattribute__] gives. *)
Definition RE_attributes : list (string * Re.regex) :=
  [("_ageRE", _ageRE); ("_pressureRE", _pressureRE); ("_profilesRE", _profilesRE)].

(** [r"(\d+_\d+).nc$"] *)
Definition float_profile_RE : Re.regex :=
  Re.Cat (Re.Group (Re.Cat (Re.Plus Re.Digit)
                      (Re.Cat (Re.One (Re.Chr "_")) (Re.Plus Re.Digit))))
    (Re.Cat (Re.One Re.Any) (Re.lit "nc" Re.Eol)).

(** [re.compile("nc$")] *)
Definition nc_RE : Re.regex := Re.lit "nc" Re.Eol.

(** [m.group(1)] on the result of a search; [m] is [None] when nothing
    matched, and [None.group] raises [AttributeError]. *)
Definition group1 (m : option (list (list ascii))) : exn + list ascii :=
  match m with
  | Some (g :: _) => inr g
  | Some [] => inl IndexError
  | None => inl AttributeError
  end.

(** ** Cache naming and constraints *)

Definition _get_cache_file_parms (cache_file : string) : gmap string Z :=
  if PyStr.contains _fixed_cache_base cache_file then
    foldl (λ (parm_dict : gmap string Z) (attr : string * Re.regex),
             match group1 (Re.search attr.2 cache_file) with
             | inr g => <[PyStr.slice_1_m2 attr.1 := PyStr.int g]> parm_dict
             | inl _ => parm_dict                     (* AttributeError: pass *)
             end)
          ∅ RE_attributes
  else ∅.

(** [ArgoDataLoader.short_cache_file]; [args] is [vars(self.args)] for the
    integer options, [Some None] an option left unset. *)
Definition short_cache_file (args : gmap string (option Z)) : string :=
  foldl (λ (cache_file : string) (attr : string * Re.regex),
           let item := PyStr.slice_1_m2 attr.1 in
           match args !! item with
           | Some (Some v) => cache_file +:+ "_" +:+ item +:+ PyStr.format_d v
           | _ => cache_file
           end)
        _fixed_cache_base RE_attributes
  +:+ ".hdf".

Record ArgoData := {
  cache_file : string;
  (** [None]: the attribute was never set (no [cache_file] given) *)
  cache_file_parms : option (gmap string Z);
  _oxygen_required : bool;
  global_url : string;
  thredds_url : string;
  variables : list string;
}.

(** [ArgoData.__init__] *)
Definition ArgoData_init (cache_file : option string) (oxygen_required : bool)
    (global_url thredds_url : string) (variables : list string) : ArgoData :=
  match cache_file with
  | Some (String a f) =>
      {| cache_file := String a f;
         cache_file_parms := Some (_get_cache_file_parms (String a f));
         _oxygen_required := oxygen_required; global_url := global_url;
         thredds_url := thredds_url; variables := remove_dups variables |}
  | _ =>
      {| cache_file := "oxyfloat_cache.hdf"; cache_file_parms := None;
         _oxygen_required := oxygen_required; global_url := global_url;
         thredds_url := thredds_url; variables := remove_dups variables |}
  end.

(** Truth value of an [int] or [None] *)
Definition truthy (v : option Z) : bool :=
  match v with
  | Some z => negb (z =? 0)
  | None => false
  end.

(** [a > b] on [int] or [None] (in Python 2 [None] is below every number) *)
Definition py_gt (a b : option Z) : bool :=
  match a, b with
  | Some x, Some y => x >? y
  | Some _, None => true
  | None, _ => false
  end.

Definition show (v : option Z) : string :=
  match v with
  | Some z => PyStr.format_d z
  | None => "None"
  end.

Definition unlimited : Z := 10000000000.

Definition _validate_cache_file_parm (self : ArgoData) (parm : string)
    (value : option Z) : M Z :=
  let '(adjusted_value, cache_file_value) :=
    match cache_file_parms self with
    | Some parms =>
        match parms !! parm with
        | Some c => (value, Some c)
        | None => (Some unlimited, None)           (* KeyError *)
        end
    | None => (value, None)                        (* AttributeError *)
    end in
  adjusted_value <-
    (if truthy value && truthy cache_file_value then
       if py_gt value cache_file_value then
         logger WARN "Requested %s %s exceeds cache file's parameter: %s"
                [parm; show value; show cache_file_value] ;;
         logger INFO "Setting %s to %s" [parm; show cache_file_value] ;;
         ret cache_file_value
       else ret adjusted_value
     else if negb (truthy value) && truthy cache_file_value then
       logger INFO "Using fixed cache file's %s value of %s"
              [parm; show cache_file_value] ;;
       ret cache_file_value
     else ret adjusted_value) ;;
  ret (match adjusted_value with
       | Some z => if z =? 0 then unlimited else z
       | None => unlimited
       end).

(** ** The remote servers *)

Record World := {
  (** [xray.open_dataset(url)] *)
  open_dataset : string → exn + Dataset;
  (** [requests.get(catalog_url)], parsed: the [urlpath] attributes of the
      document's [dataset] elements in document order; [None] is a
      [ConnectionError] *)
  catalog_get : string → option (list string);
  (** [urllib2.urlopen(global_url)] read as a table *)
  global_meta_get : string → exn + DataFrame;
}.

(** A Python [int] as a float, rounded to nearest (exact up to 2^53, which
    covers [unlimited]) *)
Definition float_of_Z (z : Z) : float :=
  SF2Prim (binary_normalize prec emax z 0 false).

(** [p >= max_pressure] *)
Definition ge_int (p : float) (max_pressure : Z) : bool :=
  PrimFloat.leb (float_of_Z max_pressure) p.

(** [ds[v].values[i]] *)
Definition values_at (ds : Dataset) (v : string) (i : nat) : exn + item :=
  match ds !! v with
  | None => inl KeyError
  | Some Unreadable => inl ServerError
  | Some (Values a) =>
      match a !! i with
      | Some x => inr x
      | None => inl IndexError
      end
  end.

(** [x[pres_indices]], indexing a row with a list of positions *)
Definition take_indices (x : item) (pres_indices : list nat) : exn + list cell :=
  match x with
  | Scalar _ => inl IndexError
  | Row xs =>
      rmap (λ i, match xs !! i with
                 | Some y => inr (Num y)
                 | None => inl IndexError
                 end) pres_indices
  end.

(** The loop of [_get_pressures], from position [i] of the axis on *)
Fixpoint pressures_loop (max_pressure : Z) (i : nat) (axis : list float)
    : list float * list nat :=
  match axis with
  | [] => ([], [])
  | p :: axis' =>
      if ge_int p max_pressure then ([], [])
      else
        let '(pressures, pres_indices) := pressures_loop max_pressure (S i) axis' in
        (p :: pressures, i :: pres_indices)
  end.

(** The key of a location: [P] and the text the pattern captures; a location
    the pattern does not match raises [AttributeError] *)
Definition _float_profile (url : string) : M string :=
  g <- lift (group1 (Re.search float_profile_RE url)) ;;
  ret ("P" +:+ PyStr.str g).

(** [self.variables ^ self._coordinates] *)
Definition symmetric_difference (a b : list string) : list string :=
  filter (λ v, bool_decide (v ∉ b)) a ++ filter (λ v, bool_decide (v ∉ a)) b.

(** [dac_urls[k] = v] on a [dict] kept in insertion order (Python 2 iterates a
    [dict] in the order of its hash table; any fixed order serves here) *)
Definition dict_set (k v : string) (d : list (string * string)) : list (string * string) :=
  assoc_set k v d.

(** [for v in self.variables: if v not in ds.keys(): raise ...] *)
Definition require_variables (ds : Dataset) (variables : list string) : M unit :=
  foldM (λ _ v, match ds !! v with
                | None => raise RequiredVariableNotPresent
                | Some _ => ret tt
                end) tt variables.

Section Methods.

Context (self : ArgoData) (W : World).
(** [round(x, 1)] *)
Context (round1 : float → float).

Definition _repack_hdf : M unit :=
  logger DEBUG "Running ptrepack on %s" [cache_file self] ;;
  emit Repack ;;
  logger DEBUG "return code = %s" [] ;;
  logger DEBUG "Moving tmp file back to original" [] ;;
  logger DEBUG "return code = %s" [].

Definition _put_df (df : DataFrame) (name : string) (metadata : list string) : M unit :=
  logger DEBUG "Saving DataFrame to name '%s' in file %s" [name; cache_file self] ;;
  (λ store : Store,
     (<[name := (df, match metadata with [] => None | _ => Some metadata end)]> store,
      [], inr tt)) ;;
  logger DEBUG "store.close()" [].

Definition _get_df (name : string) : M DataFrame :=
  try_finally
    (logger DEBUG "Getting '%s' from %s" [name; cache_file self] ;;
     (λ store : Store,
        match store !! name with
        | Some (df, _) => (store, [], inr df)
        | None => (store, [], inl KeyError)
        end))
    (logger DEBUG "store.close()" []).

Definition _global_meta_to_df : M DataFrame :=
  logger INFO "Reading data from %s" [global_url self] ;;
  emit (FetchGlobalMeta (global_url self)) ;;
  lift (global_meta_get W (global_url self)).

Definition _get_pressures (ds : Dataset) (max_pressure : Z)
    : M (list float * list nat) :=
  axis <- lift (values_at ds "PRES_ADJUSTED" 0) ;;
  match axis with
  | Scalar _ => raise TypeError
  | Row ps =>
      let '(pressures, pres_indices) := pressures_loop max_pressure 0 ps in
      (match pressures with
       | [] => logger WARN "No PRES_ADJUSTED values in netCDF file" []
       | _ => ret tt
       end) ;;
      ret (pressures, pres_indices)
  end.

(** The body of the loop over the non-coordinate variables *)
Definition add_column (ds : Dataset) (url : string) (pres_indices : list nat)
    (indices : list label) (df : DataFrame) (v : string) : M DataFrame :=
  try_except
    (x0 <- lift (rbind (values_at ds v 0) (λ x, take_indices x pres_indices)) ;;
     s <-
       (if dropna_empty x0 then
          logger WARN "%s: N_PROF [0] empty, trying [1]" [v] ;;
          try_except
            (x1 <- lift (rbind (values_at ds v 1)
                           (λ x, take_indices x pres_indices)) ;;
             ret {| s_values := x1; s_index := indices |})
            (is_exn IndexError)
            (λ _, ret {| s_values := x0; s_index := indices |})
        else ret {| s_values := x0; s_index := indices |}) ;;
     logger DEBUG "Added %s to DataFrame" [v] ;;
     ret (df_setitem df v s))
    (λ e, is_exn KeyError e || is_exn ServerError e)
    (λ e, (if is_exn KeyError e then logger WARN "%s not in %s" [v; url]
           else logger ERROR "%s" []) ;;
          ret df).

(** The list comprehension that builds the tuples of the index *)
Definition index_tuples (ds : Dataset) (wmo : string) (pressures : list float)
    : exn + list label :=
  rmap (λ pres,
          rbind (values_at ds "JULD" 0) (λ juld,
          rbind (values_at ds "LONGITUDE" 0) (λ lon,
          rbind (values_at ds "LATITUDE" 0) (λ lat,
          inr (Tuple wmo juld lon lat (round1 pres)))))) pressures.

Definition _profile_to_dataframe (wmo url : string) (max_pressure : Z) : M DataFrame :=
  logger DEBUG "Opening %s" [url] ;;
  emit (FetchProfile url) ;;
  ds <- lift (open_dataset W url) ;;
  logger DEBUG "Checking %s for our desired variables" [url] ;;
  require_variables ds (variables self) ;;
  pp <- _get_pressures ds max_pressure ;;
  let '(pressures, pres_indices) := pp in
  tuples <- lift (index_tuples ds wmo pressures) ;;
  match tuples with
  | [] => ret DataFrame0
  | _ =>
      foldM (add_column ds url pres_indices tuples) DataFrame0
            (symmetric_difference (variables self) _coordinates)
  end.

Definition _validate_oxygen (df : DataFrame) (url : string) : M DataFrame :=
  doxy <- lift (df_getitem df "DOXY_ADJUSTED") ;;
  if dropna_empty doxy then
    logger WARN "Oxygen is all NaNs in %s" [url] ;;
    ret DataFrame0
  else ret df.

Definition _save_profile (url : string) (count : nat) (opendap_urls : list string)
    (wmo key : string) (max_pressure : Z) (float_msg : string) : M DataFrame :=
  df <- try_except
          (logger INFO "%s, Profile %s of %s, key = %s"
                  [float_msg; PyStr.format_d (Z.of_nat count);
                   PyStr.format_d (Z.of_nat (length opendap_urls)); key] ;;
           df <- _profile_to_dataframe wmo url max_pressure ;;
           if negb (df_empty df) && _oxygen_required self then _validate_oxygen df url
           else ret df)
          (is_exn RequiredVariableNotPresent)
          (λ _, logger WARN "%s not in %s" [url] ;; ret DataFrame0) ;;
  _put_df df key (remove_dups ["url"; url]) ;;
  ret df.

(** Lines 266-271: the index table, from the cache or fetched into it *)
Definition cached_global_meta : M DataFrame :=
  try_except (_get_df _GLOBAL_META) (is_exn KeyError)
    (λ _, logger DEBUG "Could not read global_meta, putting it into cache." [] ;;
          meta <- _global_meta_to_df ;;
          _put_df meta _GLOBAL_META [] ;;
          _get_df _GLOBAL_META).

(** Lines 273-284: the catalog of each desired float of the index table *)
Definition dac_urls_of (df : DataFrame) (desired_float_numbers : list string)
    : M (list (string * string)) :=
  files <- lift (df_getitem df "file") ;;
  dac_urls <-
    foldM (λ dac_urls file,
             match file with
             | Num _ => raise AttributeError
             | Str f =>
                 match PyStr.split "/" f !! 1%nat with
                 | None => raise IndexError
                 | Some floatNum =>
                     if bool_decide (floatNum ∈ desired_float_numbers) then
                       ret (dict_set floatNum
                              (thredds_url self +:+
                               PyStr.join "/" (take 2 (PyStr.split "/" f)) +:+
                               "/profiles/catalog.xml")
                              dac_urls)
                     else ret dac_urls
                 end
             end) [] files ;;
  logger DEBUG "Found %s dac_urls" [PyStr.format_d (Z.of_nat (length dac_urls))] ;;
  ret dac_urls.

Definition get_dac_urls (desired_float_numbers : list string)
    : M (list (string * string)) :=
  df <- cached_global_meta ;;
  dac_urls_of df desired_float_numbers.

Definition get_profile_opendap_urls (catalog_url : string) : M (list string) :=
  logger DEBUG "Parsing %s" [catalog_url] ;;
  emit (FetchCatalog catalog_url) ;;
  match catalog_get W catalog_url with
  | None =>
      logger ERROR "Cannot open catalog_url = %s" [catalog_url] ;;
      logger ERROR "%s" [] ;;
      ret []
  | Some urlpaths =>
      let base_url :=
        PyStr.join "/" (take 4 (PyStr.split "/" catalog_url)) +:+ "/dodsC/" in
      ret ((λ p, base_url +:+ p) <$>
           filter (λ p, is_Some (Re.search nc_RE p)) urlpaths)
  end.

(** Lines 406-415: one profile of the inner loop *)
Definition profile_step (url : string) (i : nat) (opendap_urls : list string)
    (wmo : string) (max_pressure : Z) (float_msg : string) (append_df : bool)
    (float_df : DataFrame) : M DataFrame :=
  key <- _float_profile url ;;
  df <- try_except (_get_df key) (is_exn KeyError)
          (λ _, _save_profile url i opendap_urls wmo key max_pressure float_msg) ;;
  logger DEBUG "%s" [] ;;
  ret (if append_df then df_append float_df df else float_df).

(** [for i, url in enumerate(opendap_urls)], from position [i] on *)
Fixpoint profiles_loop (max_profiles max_pressure : Z) (opendap_urls : list string)
    (wmo float_msg : string) (append_df : bool)
    (i : nat) (urls : list string) (float_df : DataFrame) : M DataFrame :=
  match urls with
  | [] => ret float_df
  | url :: urls' =>
      if Z.of_nat i >? max_profiles then
        logger INFO "Stopping at max_profiles = %s" [PyStr.format_d max_profiles] ;;
        ret float_df
      else
        float_df' <- profile_step url i opendap_urls wmo max_pressure float_msg
                       append_df float_df ;;
        profiles_loop max_profiles max_pressure opendap_urls wmo float_msg append_df
          (S i) urls' float_df'
  end.

(** [for f, (wmo, dac_url) in enumerate(...iteritems())], from [f] on *)
Fixpoint floats_loop (max_profiles max_pressure : Z) (n_wmo : nat) (append_df : bool)
    (f : nat) (dac_urls : list (string * string)) (float_df : DataFrame)
    : M DataFrame :=
  match dac_urls with
  | [] => ret float_df
  | (wmo, dac_url) :: dac_urls' =>
      let float_msg :=
        "WMO " +:+ wmo +:+ ": Float " +:+ PyStr.format_d (Z.of_nat (f + 1)) +:+
        " of " +:+ PyStr.format_d (Z.of_nat n_wmo) in
      logger INFO float_msg [] ;;
      opendap_urls <- get_profile_opendap_urls dac_url ;;
      float_df' <- profiles_loop max_profiles max_pressure opendap_urls wmo float_msg
                     append_df 0 opendap_urls float_df ;;
      logger INFO "Repacking cache file" [] ;;
      _repack_hdf ;;
      floats_loop max_profiles max_pressure n_wmo append_df (S f) dac_urls' float_df'
  end.

Definition get_float_dataframe (wmo_list : list string)
    (max_profiles max_pressure : option Z) (append_df : bool) : M DataFrame :=
  max_profiles <- _validate_cache_file_parm self "profiles" max_profiles ;;
  max_pressure <- _validate_cache_file_parm self "pressure" max_pressure ;;
  dac_urls <- get_dac_urls wmo_list ;;
  floats_loop max_profiles max_pressure (length wmo_list) append_df 0 dac_urls
    DataFrame0.

End Methods.

(** ** The status of the floats *)




Section Status.

Context (self : ArgoData).
(** [self.status_url], and what [requests.get] answers for it, decoded and
    read by [pd.read_csv]. The request has no event of its own in the
    trace, only the log line before it. *)
Context (status_url : string) (status_get : string → exn + DataFrame).
(** The exception of pandas for a query it cannot evaluate on the table: a
    name that is no column, a cell that is no number *)
Context (query_error : exn).





End Status.

(** * Vocabulary of the properties *)

Definition all_digits (l : list ascii) : Prop :=
  Forall (λ a, PyStr.is_digit a = true) l.

Definition fp_shape (s d1 d2 : list ascii) : Prop :=
  ∃ c tl, s = d1 ++ "_"%char :: d2 ++ c :: "n"%char :: "c"%char :: tl ∧
          (tl = [] ∨ tl = [Re.newline]) ∧
          d1 ≠ [] ∧ d2 ≠ [] ∧ all_digits d1 ∧ all_digits d2.

Definition digits_end (rest : list ascii) : Prop :=
  ∀ a s', rest = a :: s' → PyStr.is_digit a = false.

(** The token that [short_cache_file] writes for one constraint *)
Definition token (name : string) (d : option (list ascii)) : list ascii :=
  match d with
  | Some D => "_"%char :: PyStr.chars name ++ D
  | None => []
  end.

Definition good_digits (d : option (list ascii)) : Prop :=
  ∀ D, d = Some D → D ≠ [] ∧ all_digits D.

(** [s] with the literal [N] taken off its head, when it begins with [N] *)
Fixpoint strip (N : string) (s : list ascii) : option (list ascii) :=
  match N with
  | EmptyString => Some s
  | String a N' =>
      match s with
      | c :: s' => if Ascii.eqb c a then strip N' s' else None
      | [] => None
      end
  end.

(** The constraint [name] of the parsed arguments, when it is set *)
Definition constraint (args : gmap string (option Z)) (name : string) : option Z :=
  match args !! name with
  | Some (Some v) => Some v
  | _ => None
  end.

Definition arg_digits (args : gmap string (option Z)) (name : string)
    : option (list ascii) :=
  (λ v, PyStr.chars (PyStr.format_d v)) <$> constraint args name.

(** The integer after the first place where the pattern matches, if any *)
Definition first_token (r : Re.regex) (f : string) : option Z :=
  match group1 (Re.search r f) with
  | inr g => Some (PyStr.int g)
  | inl _ => None
  end.

Definition constraint_names : list string := ["age"; "pressure"; "profiles"].

(** What the cache file's name declares for [parm], if anything *)
Definition declared (self : ArgoData) (parm : string) : option Z :=
  match cache_file_parms self with
  | Some parms => parms !! parm
  | None => None
  end.

Definition no_world : World :=
  {| open_dataset := λ _, inl IOError;
     catalog_get := λ _, None;
     global_meta_get := λ _, inl IOError |}.

(** [m] neither reads nor writes the store: its trace and result are fixed. *)
Definition stateless {A} (m : M A) : Prop :=
  ∃ evs r, ∀ st, m st = (st, evs, r).

Definition no_pressures_warning : event :=
  Log WARN "No PRES_ADJUSTED values in netCDF file" [].

(** The table under construction: still [pd.DataFrame()], or a table on the
    index [tuples] with at least one column. *)
Definition table_on (tuples : list label) (df : DataFrame) : Prop :=
  df = DataFrame0 ∨ (index df = tuples ∧ columns df ≠ []).

(** [ds[v].values[0]] when it can be read *)
Definition coord (ds : Dataset) (v : string) : item :=
  match values_at ds v 0 with
  | inr x => x
  | inl _ => Scalar 0%float
  end.

(** The tuple of the index for one retained pressure *)
Definition row_key (round1 : float → float) (ds : Dataset) (wmo : string)
    (pres : float) : label :=
  Tuple wmo (coord ds "JULD") (coord ds "LONGITUDE") (coord ds "LATITUDE")
    (round1 pres).

(** A profile with the given pressure row and oxygen row *)
Definition example_profile (pres doxy : list float) : Dataset :=
  list_to_map
    [("PRES_ADJUSTED", Values [Row pres]); ("DOXY_ADJUSTED", Values [Row doxy]);
     ("JULD", Values [Scalar 23376.5%float]); ("LONGITUDE", Values [Scalar (-30.25)%float]);
     ("LATITUDE", Values [Scalar 41.5%float])].

Definition example_catalog : string :=
  "http://tds0.ifremer.fr/thredds/catalog/CORIOLIS-ARGO-GDAC-OBS/coriolis/1900650/profiles/catalog.xml".

Definition example_url (n : string) : string :=
  "http://tds0.ifremer.fr/thredds/dodsC/CORIOLIS-ARGO-GDAC-OBS/coriolis/1900650/profiles/R1900650_"
  +:+ n +:+ ".nc".

(** One float with three profiles: the first has two readings at the same
    pressure, the second has no oxygen reading, the third lacks the oxygen
    variable altogether. *)
Definition example_world : World :=
  {| open_dataset := λ url,
       if String.eqb url (example_url "001") then
         inr (example_profile [5%float; 5%float; 12.5%float]
                [210%float; 212%float; 190%float])
       else if String.eqb url (example_url "002") then
         inr (example_profile [4%float; 8%float] [nan; nan])
       else if String.eqb url (example_url "003") then
         inr (delete "DOXY_ADJUSTED" (example_profile [4%float] [nan]))
       else inl IOError;
     catalog_get := λ url,
       if String.eqb url example_catalog then
         Some ["CORIOLIS-ARGO-GDAC-OBS/coriolis/1900650/profiles/R1900650_001.nc";
               "CORIOLIS-ARGO-GDAC-OBS/coriolis/1900650/profiles/R1900650_002.nc";
               "CORIOLIS-ARGO-GDAC-OBS/coriolis/1900650/profiles/R1900650_003.nc";
               "CORIOLIS-ARGO-GDAC-OBS/coriolis/1900650/profiles/index.html"]
       else None;
     global_meta_get := λ _,
       inr {| index := [Pos 0; Pos 1];
              columns := [("file", [Str "coriolis/1900650/1900650_meta.nc";
                                    Str "aoml/1901158/1901158_meta.nc"])] |} |}.

Definition example_self (oxygen_required : bool) : ArgoData :=
  ArgoData_init None oxygen_required "ftp://ftp.ifremer.fr/ifremer/argo/ar_index_global_meta.txt"
    "http://tds0.ifremer.fr/thredds/catalog/CORIOLIS-ARGO-GDAC-OBS/"
    ["DOXY_ADJUSTED"; "PRES_ADJUSTED"; "LATITUDE"; "LONGITUDE"; "JULD"].

(** The metadata [_save_profile] stores: the set [{'url', url}] *)
Definition url_metadata (url : string) : list string := remove_dups ["url"; url].

(** The part of [_save_profile] inside its [try] *)
Definition fetch_and_validate (self : ArgoData) (W : World) (round1 : float → float)
    (url wmo : string) (max_pressure : Z) : M DataFrame :=
  df <- _profile_to_dataframe self W round1 wmo url max_pressure ;;
  if negb (df_empty df) && _oxygen_required self then _validate_oxygen df url
  else ret df.

(** The key of a location, or the exception [_float_profile] raises *)
Definition key_of (url : string) : exn + string :=
  rbind (group1 (Re.search float_profile_RE url)) (λ g, inr ("P" +:+ PyStr.str g)).

Definition is_fetch (e : event) : bool :=
  match e with
  | FetchGlobalMeta _ | FetchCatalog _ | FetchProfile _ => true
  | _ => false
  end.

(** The network fetches of a trace, in order *)
Definition fetches (evs : list event) : list event := filter (λ e, is_fetch e = true) evs.

(** The trace of a profile found in the cache *)
Definition hit_trace (self : ArgoData) (key : string) : list event :=
  [Log DEBUG "Getting '%s' from %s" [key; cache_file self];
   Log DEBUG "store.close()" []; Log DEBUG "%s" []].

Definition appended (append_df : bool) (float_df df : DataFrame) : DataFrame :=
  if append_df then df_append float_df df else float_df.

(** From [st] to [st'] the cache file was only added to: what was stored is
    still there, and a new name is that of the index table or the key of a
    location. *)
Definition only_adds (st st' : Store) : Prop :=
  st ⊆ st' ∧
  ∀ k, st !! k = None → is_Some (st' !! k) →
       k = _GLOBAL_META ∨ ∃ url, key_of url = inr k.

(** The table of the location [url] as the cache file [st] holds it *)
Definition cached_as (st : Store) (url : string) (df : DataFrame) : Prop :=
  ∃ key meta, key_of url = inr key ∧ st !! key = Some (df, meta).

(** The result of a loop that handed the tables [dfs] on, one by one *)
Definition aggregate (append_df : bool) (float_df : DataFrame)
    (r : exn + list DataFrame) : exn + DataFrame :=
  match r with
  | inl e => inl e
  | inr dfs => inr (foldl (appended append_df) float_df dfs)
  end.

(** The values of the variable [v] at the first [k] positions of the row in
    its slot [slot], when the slot has such a row *)
Definition slot_values (ds : Dataset) (v : string) (slot k : nat) : option (list cell) :=
  match values_at ds v slot with
  | inr (Row xs) => if decide (k ≤ length xs)%nat then Some (Num <$> take k xs) else None
  | _ => None
  end.

(** A column of a profile table over [k] retained pressures: one of the
    variables [names], with the values of slot 0, or those of slot 1 when
    slot 0 has no reading at these positions *)
Definition column_of (ds : Dataset) (k : nat) (names : list string)
    (c : string * list cell) : Prop :=
  c.1 ∈ names ∧
  (slot_values ds c.1 0 k = Some c.2 ∨
   (slot_values ds c.1 1 k = Some c.2 ∧
    ∃ x0, slot_values ds c.1 0 k = Some x0 ∧ dropna_empty x0 = true)).






(** * Properties *)

(** ** Strings and patterns *)

Lemma chars_append (a b : string) :
  PyStr.chars (a +:+ b) = PyStr.chars a ++ PyStr.chars b.
Proof.
  induction a as [|c a IH]; simpl; [done|]. by rewrite <- IH.
Qed.

Lemma str_chars (s : string) : PyStr.str (PyStr.chars s) = s.
Proof. apply string_of_list_ascii_of_string. Qed.

Lemma chars_str (l : list ascii) : PyStr.chars (PyStr.str l) = l.
Proof. apply list_ascii_of_string_of_list_ascii. Qed.

Lemma str_app (a b : list ascii) : PyStr.str (a ++ b) = PyStr.str a +:+ PyStr.str b.
Proof.
  unfold PyStr.str. induction a as [|c a IH]; simpl; [done|]. by rewrite IH.
Qed.

Section PlusFacts.
Context {R : Type}.
Implicit Types (k : list ascii → list ascii → option R).

(** Whatever [c+] hands to its continuation is a non-empty run of [c]. *)
Lemma plus_sound c s k r :
  Re.plus c s k = Some r →
  ∃ m rest, s = m ++ rest ∧ m ≠ [] ∧
            Forall (λ a, Re.accepts c a = true) m ∧ k m rest = Some r.
Proof.
  revert k. induction s as [|a s IH]; intros k; simpl; [done|].
  destruct (Re.accepts c a) eqn:Ha; [|done].
  destruct (Re.plus c s _) as [r'|] eqn:Hp.
  - intros [= ->]. apply IH in Hp as (m & rest & -> & _ & Hm & Hk).
    exists (a :: m), rest. repeat split; auto.
  - intros Hk. exists [a], s. repeat split; auto.
Qed.

Lemma plus_stuck c s k :
  (∀ a s', s = a :: s' → Re.accepts c a = false) → Re.plus c s k = None.
Proof.
  destruct s as [|a s]; simpl; [done|].
  intros H. by rewrite (H a s eq_refl).
Qed.

(** The longest run is tried first: if the continuation takes it, that is
    the match. *)
Lemma plus_greedy c m rest k r :
  m ≠ [] → Forall (λ a, Re.accepts c a = true) m →
  (∀ a s', rest = a :: s' → Re.accepts c a = false) →
  k m rest = Some r →
  Re.plus c (m ++ rest) k = Some r.
Proof.
  revert k. induction m as [|a m IH]; intros k Hne Hm Hrest Hk; [done|].
  apply Forall_cons in Hm as [Ha Hm]. simpl. rewrite Ha.
  destruct m as [|b m].
  - simpl. by rewrite plus_stuck.
  - rewrite (IH (λ m' rest', k (a :: m') rest')); auto.
Qed.
End PlusFacts.

(** A text splits in one way only into a part, a separator that is no
    digit, and digits up to the end. *)
Lemma split_at_last_nondigit (a a' b b' : list ascii) (x : ascii) :
  a ++ x :: b = a' ++ x :: b' →
  PyStr.is_digit x = false → all_digits b → all_digits b' →
  a = a' ∧ b = b'.
Proof.
  intros Heq Hx Hb Hb'. revert a' Heq.
  induction a as [|c a IH]; intros [|c' a'] Heq; simpl in Heq.
  - by injection Heq.
  - injection Heq as -> ->.
    apply Forall_app in Hb as [_ Hb]. apply Forall_cons in Hb as [Hb _].
    congruence.
  - injection Heq as -> <-.
    apply Forall_app in Hb' as [_ Hb']. apply Forall_cons in Hb' as [Hb' _].
    congruence.
  - injection Heq as -> Heq. apply IH in Heq as [-> ->]. done.
Qed.

(** What a match of [(\d+_\d+).nc$] at the head of [s] looks like *)
Lemma float_profile_match_sound s gs :
  Re.match_at float_profile_RE s = Some gs →
  ∃ d1 d2, gs = [d1 ++ "_"%char :: d2] ∧ fp_shape s d1 d2.
Proof.
  unfold Re.match_at, float_profile_RE. simpl.
  intros H. apply plus_sound in H as (d1 & rest1 & -> & Hne1 & Hd1 & H).
  destruct rest1 as [|u rest1]; [done|].
  destruct (Ascii.eqb u "_") eqn:Hu; [|done].
  apply Ascii.eqb_eq in Hu as ->.
  apply plus_sound in H as (d2 & rest2 & -> & Hne2 & Hd2 & H).
  destruct rest2 as [|c rest2]; [done|].
  destruct (negb (Ascii.eqb c Re.newline)); [|done].
  destruct rest2 as [|n rest2]; [done|].
  destruct (Ascii.eqb n "n") eqn:Hn; [|done].
  apply Ascii.eqb_eq in Hn as ->.
  destruct rest2 as [|c2 rest2]; [done|].
  destruct (Ascii.eqb c2 "c") eqn:Hc; [|done].
  apply Ascii.eqb_eq in Hc as ->.
  assert (gs = [d1 ++ "_"%char :: d2] ∧ (rest2 = [] ∨ rest2 = [Re.newline]))
    as [-> Htl].
  { destruct rest2 as [|e [|? ?]]; [| |done].
    - injection H as <-. auto.
    - destruct (Ascii.eqb e Re.newline) eqn:He; [|done].
      apply Ascii.eqb_eq in He as ->. injection H as <-. auto. }
  exists d1, d2. split; [done|].
  exists c, rest2. repeat split; auto.
Qed.

Lemma digit_not_underscore a : PyStr.is_digit a = true → a ≠ "_"%char.
Proof. by intros H ->. Qed.

(** A match where the digits, the underscore, the digits and [.nc] begin *)
Lemma float_profile_match_here (d1 d2 : list ascii) :
  d1 ≠ [] → d2 ≠ [] → all_digits d1 → all_digits d2 →
  Re.match_at float_profile_RE
    (d1 ++ "_"%char :: d2 ++ PyStr.chars ".nc") = Some [d1 ++ "_"%char :: d2].
Proof.
  intros Hne1 Hne2 Hd1 Hd2.
  unfold Re.match_at, float_profile_RE. simpl.
  apply plus_greedy; [done | done | by intros a s' [= <- _] |].
  simpl. apply plus_greedy; [done | done | by intros a s' [= <- _] |].
  done.
Qed.

(** No match begins in a part that does not end in a digit. *)
Lemma float_profile_no_match_before (c : ascii) (pre d1 d2 : list ascii) :
  (∀ x, last (c :: pre) = Some x → PyStr.is_digit x = false) →
  all_digits d2 →
  Re.match_at float_profile_RE
    ((c :: pre) ++ d1 ++ "_"%char :: d2 ++ PyStr.chars ".nc") = None.
Proof.
  intros Hlast Hd2.
  destruct (Re.match_at _ _) as [gs|] eqn:Hm; [exfalso|done].
  apply float_profile_match_sound in Hm
    as (e1 & e2 & _ & x & tl & Heq & Htl & _ & _ & He1 & He2).
  destruct Htl as [-> | ->].
  - replace (e1 ++ "_"%char :: e2 ++ [x; "n"%char; "c"%char])
      with ((e1 ++ "_"%char :: e2) ++ [x; "n"%char; "c"%char]) in Heq
      by (by rewrite <- app_assoc).
    replace ((c :: pre) ++ d1 ++ "_"%char :: d2 ++ PyStr.chars ".nc")
      with ((((c :: pre) ++ d1) ++ "_"%char :: d2) ++ PyStr.chars ".nc") in Heq
      by (by rewrite <- !app_assoc).
    apply app_inj_2 in Heq as [Heq _]; [|done].
    symmetry in Heq.
    apply split_at_last_nondigit in Heq as [Heq _]; auto.
    rewrite Heq in He1. apply Forall_app in He1 as [He1 _].
    destruct (last (c :: pre)) as [y|] eqn:Hy.
    + specialize (Hlast y eq_refl).
      apply last_Some in Hy as [l' Hy]. rewrite Hy in He1.
      apply Forall_app in He1 as [_ He1]. apply Forall_cons in He1 as [He1 _].
      congruence.
    + by apply last_None in Hy.
  - replace (e1 ++ "_"%char :: e2 ++ [x; "n"%char; "c"%char; Re.newline])
      with ((e1 ++ "_"%char :: e2 ++ [x]) ++ ["n"%char; "c"%char; Re.newline])
      in Heq by (by rewrite <- app_assoc; simpl; rewrite <- app_assoc).
    replace ((c :: pre) ++ d1 ++ "_"%char :: d2 ++ PyStr.chars ".nc")
      with ((((c :: pre) ++ d1) ++ "_"%char :: d2) ++ PyStr.chars ".nc") in Heq
      by (by rewrite <- !app_assoc).
    apply app_inj_2 in Heq as [_ Heq]; [|done]. done.
Qed.

Lemma search_from_unfold (r : Re.regex) (s : list ascii) :
  Re.search_from r s =
  match Re.match_at r s with
  | Some gs => Some gs
  | None => match s with
            | [] => None
            | _ :: s' => Re.search_from r s'
            end
  end.
Proof. by destruct s. Qed.

Lemma float_profile_search (pre d1 d2 : list ascii) :
  (∀ x, last pre = Some x → PyStr.is_digit x = false) →
  d1 ≠ [] → d2 ≠ [] → all_digits d1 → all_digits d2 →
  Re.search_from float_profile_RE
    (pre ++ d1 ++ "_"%char :: d2 ++ PyStr.chars ".nc") = Some [d1 ++ "_"%char :: d2].
Proof.
  intros Hlast Hne1 Hne2 Hd1 Hd2.
  induction pre as [|c pre IH]; rewrite search_from_unfold.
  - simpl app. by rewrite float_profile_match_here.
  - rewrite float_profile_no_match_before; auto.
    apply IH. intros x Hx. apply Hlast.
    rewrite last_cons, Hx. done.
Qed.

(** ** Decimal numerals *)

Lemma string_of_uint_digits (d : Decimal.uint) :
  all_digits (PyStr.chars (NilEmpty.string_of_uint d)).
Proof. induction d; simpl; constructor; done. Qed.

Lemma format_d_uint (v : Z) :
  0 ≤ v →
  ∃ d, d ≠ Decimal.Nil ∧ Z.to_int v = Decimal.Pos d ∧
       PyStr.format_d v = NilEmpty.string_of_uint d.
Proof.
  intros Hv. unfold PyStr.format_d. destruct v as [|p|p]; [| |lia].
  - by exists Decimal.zero.
  - exists (Pos.to_uint p). pose proof (Unsigned.to_uint_nonnil p) as Hn.
    repeat split; [done|]. simpl. by destruct (Pos.to_uint p).
Qed.

Lemma format_d_digits (v : Z) :
  0 ≤ v → all_digits (PyStr.chars (PyStr.format_d v)).
Proof.
  intros (d & _ & _ & ->)%format_d_uint. apply string_of_uint_digits.
Qed.

Lemma format_d_nonempty (v : Z) :
  0 ≤ v → PyStr.chars (PyStr.format_d v) ≠ [].
Proof.
  intros (d & Hd & _ & ->)%format_d_uint. by destruct d.
Qed.

(** [int(str(v)) == v] *)
Lemma int_format_d (v : Z) :
  0 ≤ v → PyStr.int (PyStr.chars (PyStr.format_d v)) = v.
Proof.
  intros (d & Hd & Hv & Hf)%format_d_uint.
  unfold PyStr.int. rewrite str_chars, Hf.
  replace (NilEmpty.string_of_uint d) with (NilZero.string_of_uint d)
    by (by destruct d).
  rewrite NilZero.usu by done. simpl.
  change (Z.of_uint d) with (Z.of_int (Decimal.Pos d)).
  rewrite <- Hv. apply DecimalZ.of_to.
Qed.

(** ** Searching a constraint token *)

Lemma match_at_lit_cons (a : ascii) (N : string) (r : Re.regex) (c : ascii)
    (s : list ascii) :
  Re.match_at (Re.lit (String a N) r) (c :: s) =
  if Ascii.eqb c a then Re.match_at (Re.lit N r) s else None.
Proof. unfold Re.match_at. simpl. by destruct (Ascii.eqb c a). Qed.

Lemma match_at_lit_nil (a : ascii) (N : string) (r : Re.regex) :
  Re.match_at (Re.lit (String a N) r) [] = None.
Proof. done. Qed.

Lemma match_at_digits_group (D rest : list ascii) :
  D ≠ [] → all_digits D → digits_end rest →
  Re.match_at (Re.lit EmptyString (Re.Group (Re.Plus Re.Digit))) (D ++ rest) = Some [D].
Proof.
  intros Hne HD Hrest. unfold Re.match_at. simpl.
  by apply plus_greedy.
Qed.

Lemma search_skip_digits (a : ascii) (N : string) (r : Re.regex) (D s : list ascii) :
  PyStr.is_digit a = false → all_digits D →
  Re.search_from (Re.lit (String a N) r) (D ++ s) =
  Re.search_from (Re.lit (String a N) r) s.
Proof.
  intros Ha HD. induction D as [|d D IH]; [done|].
  apply Forall_cons in HD as [Hd HD].
  simpl app. rewrite search_from_unfold, match_at_lit_cons.
  destruct (Ascii.eqb d a) eqn:Hda; [|by apply IH].
  apply Ascii.eqb_eq in Hda. congruence.
Qed.

Lemma match_at_strip (N : string) (r : Re.regex) (s : list ascii) :
  Re.match_at (Re.lit N r) s =
  match strip N s with
  | Some rest => Re.match_at (Re.lit EmptyString r) rest
  | None => None
  end.
Proof.
  revert s. induction N as [|a N IH]; intros s; [done|].
  destruct s as [|c s]; [done|].
  rewrite match_at_lit_cons. simpl. destruct (Ascii.eqb c a); [apply IH|done].
Qed.

Lemma search_from_cons_strip (N : string) (r : Re.regex) (c : ascii) (s : list ascii) :
  Re.search_from (Re.lit N r) (c :: s) =
  match strip N (c :: s) with
  | Some rest =>
      match Re.match_at (Re.lit EmptyString r) rest with
      | Some gs => Some gs
      | None => Re.search_from (Re.lit N r) s
      end
  | None => Re.search_from (Re.lit N r) s
  end.
Proof.
  rewrite search_from_unfold, match_at_strip. by destruct (strip N (c :: s)).
Qed.

Ltac token_search :=
  repeat first
    [ rewrite search_skip_digits by (done || tauto)
    | rewrite search_from_cons_strip; lazy [strip Ascii.eqb Bool.eqb];
      try (rewrite match_at_digits_group;
           [| tauto | tauto | by intros ? ? [= <- _]]) ];
  try done.

Lemma search_tokens (da dp dq : option (list ascii)) :
  good_digits da → good_digits dp → good_digits dq →
  let s := PyStr.chars _fixed_cache_base ++ token "age" da ++ token "pressure" dp ++
           token "profiles" dq ++ PyStr.chars ".hdf" in
  Re.search_from _ageRE s = (λ D, [D]) <$> da ∧
  Re.search_from _pressureRE s = (λ D, [D]) <$> dp ∧
  Re.search_from _profilesRE s = (λ D, [D]) <$> dq.
Proof.
  intros Ha Hp Hq. unfold _ageRE, _pressureRE, _profilesRE.
  destruct da as [Da|], dp as [Dp|], dq as [Dq|];
    simpl token; simpl PyStr.chars; simpl app;
    try (destruct (Ha _ eq_refl)); try (destruct (Hp _ eq_refl));
    try (destruct (Hq _ eq_refl));
    (split; [|split]); token_search.
Qed.

Lemma string_append_assoc (a b c : string) : (a +:+ b) +:+ c = a +:+ (b +:+ c).
Proof.
  induction a as [|x a IH]; [done|].
  change (String x ((a +:+ b) +:+ c) = String x (a +:+ (b +:+ c))).
  by rewrite IH.
Qed.

Lemma prefix_append (a b : string) : String.prefix a (a +:+ b) = true.
Proof.
  induction a as [|x a IH]; [by destruct b|].
  change (String.prefix (String x a) (String x (a +:+ b)) = true).
  simpl. destruct (ascii_dec x x); [done|congruence].
Qed.

Lemma contains_prefix (sub s : string) :
  String.prefix sub s = true → PyStr.contains sub s = true.
Proof.
  intros H. destruct s.
  - change (String.prefix sub EmptyString || false = true). by rewrite H.
  - change (String.prefix sub (String a s) || PyStr.contains sub s = true).
    by rewrite H.
Qed.

Lemma short_cache_file_shape (args : gmap string (option Z)) :
  ∃ rest, short_cache_file args = _fixed_cache_base +:+ rest ∧
    PyStr.chars (short_cache_file args) =
      PyStr.chars _fixed_cache_base ++ token "age" (arg_digits args "age") ++
      token "pressure" (arg_digits args "pressure") ++
      token "profiles" (arg_digits args "profiles") ++ PyStr.chars ".hdf".
Proof.
  unfold short_cache_file, RE_attributes, arg_digits, constraint. simpl foldl.
  change (PyStr.slice_1_m2 "_ageRE") with "age".
  change (PyStr.slice_1_m2 "_pressureRE") with "pressure".
  change (PyStr.slice_1_m2 "_profilesRE") with "profiles".
  destruct (args !! "age") as [[a|]|], (args !! "pressure") as [[p|]|],
    (args !! "profiles") as [[q|]|];
    (eexists; split;
     [ rewrite ?string_append_assoc; reflexivity
     | rewrite ?chars_append; simpl; rewrite <- ?app_assoc; reflexivity ]).
Qed.

Lemma parms_of_fixed_name (f : string) :
  PyStr.contains _fixed_cache_base f = true →
  _get_cache_file_parms f !! "age" = first_token _ageRE f ∧
  _get_cache_file_parms f !! "pressure" = first_token _pressureRE f ∧
  _get_cache_file_parms f !! "profiles" = first_token _profilesRE f ∧
  ∀ k, k ∉ constraint_names → _get_cache_file_parms f !! k = None.
Proof.
  intros Hf. unfold _get_cache_file_parms, first_token, RE_attributes.
  rewrite Hf. simpl foldl.
  change (PyStr.slice_1_m2 "_ageRE") with "age".
  change (PyStr.slice_1_m2 "_pressureRE") with "pressure".
  change (PyStr.slice_1_m2 "_profilesRE") with "profiles".
  simpl fst; simpl snd.
  destruct (group1 (Re.search _ageRE f)), (group1 (Re.search _pressureRE f)),
    (group1 (Re.search _profilesRE f));
    (split; [by simplify_map_eq|]); (split; [by simplify_map_eq|]);
    (split; [by simplify_map_eq|]);
    intros k Hk; unfold constraint_names in Hk;
    repeat (rewrite lookup_insert_ne; [|intros <-; apply Hk; set_solver]);
    apply lookup_empty.
Qed.

Lemma parms_of_other_name (f : string) :
  PyStr.contains _fixed_cache_base f = false → _get_cache_file_parms f = ∅.
Proof. intros Hf. unfold _get_cache_file_parms. by rewrite Hf. Qed.

Lemma first_token_short_cache_file (args : gmap string (option Z)) :
  (∀ k v, args !! k = Some (Some v) → 0 ≤ v) →
  first_token _ageRE (short_cache_file args) = constraint args "age" ∧
  first_token _pressureRE (short_cache_file args) = constraint args "pressure" ∧
  first_token _profilesRE (short_cache_file args) = constraint args "profiles".
Proof.
  intros Hpos.
  destruct (short_cache_file_shape args) as (rest & _ & Hchars).
  assert (∀ k, good_digits (arg_digits args k)) as Hgood.
  { intros k D. unfold arg_digits, constraint.
    destruct (args !! k) as [[v|]|] eqn:Hk; [|done..].
    intros [= <-]. split; [apply format_d_nonempty | apply format_d_digits]; eauto. }
  destruct (search_tokens _ _ _ (Hgood "age") (Hgood "pressure") (Hgood "profiles"))
    as (Ha & Hp & Hq).
  unfold first_token, Re.search. rewrite Hchars, Ha, Hp, Hq.
  unfold arg_digits, constraint.
  repeat split.
  - destruct (args !! "age") as [[v|]|] eqn:Hk; simpl; [|done..].
    f_equal. apply int_format_d. eauto.
  - destruct (args !! "pressure") as [[v|]|] eqn:Hk; simpl; [|done..].
    f_equal. apply int_format_d. eauto.
  - destruct (args !! "profiles") as [[v|]|] eqn:Hk; simpl; [|done..].
    f_equal. apply int_format_d. eauto.
Qed.

(** ** Validation of a requested constraint *)

Ltac mrun :=
  unfold bind, ret, raise, lift, logger, emit, try_except, try_finally; simpl.

Lemma validate_clamps (self : ArgoData) (parm : string) (v c : Z) (st : Store) :
  declared self parm = Some c → 0 < c → v > c →
  _validate_cache_file_parm self parm (Some v) st =
    (st,
     [Log WARN "Requested %s %s exceeds cache file's parameter: %s"
          [parm; PyStr.format_d v; PyStr.format_d c];
      Log INFO "Setting %s to %s" [parm; PyStr.format_d c]],
     inr c).
Proof.
  unfold declared, _validate_cache_file_parm. intros Hd Hc Hv.
  destruct (cache_file_parms self) as [parms|]; [|done]. rewrite Hd.
  simpl truthy. simpl py_gt.
  destruct (Z.eqb_spec c 0) as [|_]; [lia|].
  destruct (Z.eqb_spec v 0) as [|_]; [lia|].
  simpl. destruct (Z.gtb_spec v c); [|lia]. mrun.
  destruct (Z.eqb_spec c 0); [lia|done].
Qed.

Lemma validate_adopts (self : ArgoData) (parm : string) (value : option Z) (c : Z)
    (st : Store) :
  declared self parm = Some c → c ≠ 0 → truthy value = false →
  _validate_cache_file_parm self parm value st =
    (st, [Log INFO "Using fixed cache file's %s value of %s" [parm; PyStr.format_d c]],
     inr c).
Proof.
  unfold declared, _validate_cache_file_parm. intros Hd Hc Hv.
  destruct (cache_file_parms self) as [parms|]; [|done]. rewrite Hd, Hv.
  simpl truthy. destruct (Z.eqb_spec c 0) as [|_]; [done|]. mrun.
  destruct (Z.eqb_spec c 0); done.
Qed.

Lemma validate_keeps (self : ArgoData) (parm : string) (v c : Z) (st : Store) :
  declared self parm = Some c → c ≠ 0 → v ≠ 0 → v ≤ c →
  _validate_cache_file_parm self parm (Some v) st = (st, [], inr v).
Proof.
  unfold declared, _validate_cache_file_parm. intros Hd Hc Hv Hle.
  destruct (cache_file_parms self) as [parms|]; [|done]. rewrite Hd.
  simpl truthy. simpl py_gt.
  destruct (Z.eqb_spec c 0) as [|_]; [done|].
  destruct (Z.eqb_spec v 0) as [|_]; [done|].
  simpl. destruct (Z.gtb_spec v c); [lia|]. mrun.
  destruct (Z.eqb_spec v 0); done.
Qed.

Lemma validate_undeclared (self : ArgoData) (parm : string) (value : option Z)
    (st : Store) :
  declared self parm = None →
  _validate_cache_file_parm self parm value st =
    (st, [],
     inr (match cache_file_parms self, value with
          | None, Some v => if v =? 0 then unlimited else v
          | _, _ => unlimited
          end)).
Proof.
  unfold declared, _validate_cache_file_parm. intros Hd.
  destruct (cache_file_parms self) as [parms|].
  - rewrite Hd. change (truthy None) with false.
    rewrite !andb_false_r. by destruct value.
  - change (truthy None) with false. rewrite !andb_false_r.
    destruct value as [v|]; [|done]. mrun. by destruct (v =? 0).
Qed.

Lemma validate_declared_zero (self : ArgoData) (parm : string) (value : option Z)
    (st : Store) :
  declared self parm = Some 0 →
  _validate_cache_file_parm self parm value st =
    (st, [],
     inr (match value with
          | Some v => if v =? 0 then unlimited else v
          | None => unlimited
          end)).
Proof.
  unfold declared, _validate_cache_file_parm. intros Hd.
  destruct (cache_file_parms self) as [parms|]; [|done]. rewrite Hd.
  change (truthy (Some 0)) with false. rewrite !andb_false_r.
  destruct value as [v|]; [|done]. mrun. by destruct (v =? 0).
Qed.

(** A request of [0] and no request at all are validated alike. *)
Lemma validate_zero_as_none (self : ArgoData) (parm : string) :
  _validate_cache_file_parm self parm (Some 0) =
  _validate_cache_file_parm self parm None.
Proof.
  unfold _validate_cache_file_parm.
  destruct (cache_file_parms self) as [parms|]; [|done].
  destruct (parms !! parm) as [c|]; [|done].
  simpl. by destruct (negb (c =? 0)).
Qed.

Lemma declared_init_nonneg (cache_file : option string) o g t vs (parm : string) (c : Z) :
  declared (ArgoData_init cache_file o g t vs) parm = Some c → 0 ≤ c.
Proof.
  unfold declared, ArgoData_init.
  destruct cache_file as [[|a f]|]; simpl; [done| |done].
  unfold _get_cache_file_parms.
  destruct (PyStr.contains _ _); [|by rewrite lookup_empty].
  assert (∀ g, 0 ≤ PyStr.int g) as Hint.
  { intros g0. unfold PyStr.int.
    destruct (NilZero.uint_of_string _) as [d|]; simpl; [|done].
    unfold Z.of_uint. lia. }
  unfold RE_attributes. simpl foldl.
  repeat match goal with
         | |- context [group1 ?m] => destruct (group1 m)
         end;
    intros Hl;
    repeat match type of Hl with
           | <[?k := _]> _ !! _ = _ =>
               apply lookup_insert_Some in Hl as [[_ <-]|[_ Hl]]; [apply Hint|]
           end;
    by rewrite lookup_empty in Hl.
Qed.

(** For a name that declares a positive value the validated value never
    exceeds it: a larger request is clamped, an unset one adopts the file's
    value, a smaller one is kept. *)
Lemma validate_narrows (self : ArgoData) (parm : string) (value : option Z) (c : Z)
    (st : Store) :
  declared self parm = Some c → 0 < c →
  ∃ evs z, _validate_cache_file_parm self parm value st = (st, evs, inr z) ∧
           z ≤ c ∧
           (∀ v, value = Some v → v > c → z = c) ∧
           (truthy value = false → z = c).
Proof.
  intros Hd Hc.
  destruct (truthy value) eqn:Ht.
  - destruct value as [v|]; [|done].
    assert (v ≠ 0) as Hv0.
    { intros ->. done. }
    destruct (Z_gt_le_dec v c) as [Hgt|Hle].
    + eexists _, c. rewrite (validate_clamps _ _ _ _ _ Hd Hc Hgt).
      repeat split; auto; lia.
    + eexists _, v. rewrite (validate_keeps _ _ _ _ _ Hd); [|lia|done|done].
      repeat split; auto; try done. intros v' [= <-]. lia.
  - eexists _, c. rewrite (validate_adopts _ _ _ _ _ Hd); [|lia|done].
    repeat split; auto; lia.
Qed.

(** C2: [_validate_cache_file_parm] tests its two values for truth, so a
    cache file that declares the value 0 (the name [short_cache_file] gives
    for [--profiles 0]) is treated as declaring nothing: a request of 5 is
    returned as 5, not clamped to 0, and no request gives 10000000000. *)
Theorem validate_ignores_declared_zero (st : Store) :
  let self := ArgoData_init (Some "oxyfloat_fixed_cache_profiles0.hdf") true
                "ftp://global" "http://thredds" [] in
  short_cache_file {["profiles" := Some 0]} = "oxyfloat_fixed_cache_profiles0.hdf" ∧
  declared self "profiles" = Some 0 ∧
  _validate_cache_file_parm self "profiles" (Some 5) st = (st, [], inr 5) ∧
  _validate_cache_file_parm self "profiles" None st = (st, [], inr unlimited).
Proof.
  intros self.
  assert (declared self "profiles" = Some 0) as Hd by (by vm_compute).
  split; [by vm_compute|]. split; [done|].
  split; by rewrite validate_declared_zero.
Qed.

(** C10: when the cache file declares no value for a parameter, a request of
    0 is validated to the sentinel 10000000000; [get_float_dataframe] cannot
    tell a limit of 0 from a limit left unset. *)
Theorem validate_zero_request_is_unlimited (self : ArgoData) (W : World)
    (round1 : float → float) (parm : string) (st : Store) (wmo_list : list string)
    (other : option Z) (append_df : bool) :
  declared self parm = None →
  _validate_cache_file_parm self parm (Some 0) st = (st, [], inr unlimited) ∧
  get_float_dataframe self W round1 wmo_list (Some 0) other append_df =
    get_float_dataframe self W round1 wmo_list None other append_df ∧
  get_float_dataframe self W round1 wmo_list other (Some 0) append_df =
    get_float_dataframe self W round1 wmo_list other None append_df.
Proof.
  intros Hd. split; [|split].
  - rewrite validate_undeclared by done. by destruct (cache_file_parms self).
  - unfold get_float_dataframe. by rewrite validate_zero_as_none.
  - unfold get_float_dataframe. by rewrite validate_zero_as_none.
Qed.

Lemma validate_zero_request_is_unlimited_witness :
  _validate_cache_file_parm
    (ArgoData_init (Some "oxyfloat_fixed_cache_age3000.hdf") true "g" "t" [])
    "profiles" (Some 0) ∅ = (∅, [], inr 10000000000).
Proof.
  refine (proj1 (validate_zero_request_is_unlimited
                   (ArgoData_init (Some "oxyfloat_fixed_cache_age3000.hdf") true "g" "t" [])
                   no_world (λ x, x) "profiles" ∅ [] None true _)).
  vm_compute. reflexivity.
Defined.

(** C5, as stated, fails on the code: a name without the fixed base is not
    decoded although the pattern is found in it, and a negative constraint
    written by [short_cache_file] is not read back. *)
Lemma decode_not_every_name :
  first_token _ageRE "/tmp/cache_age30.hdf" = Some 30 ∧
  _get_cache_file_parms "/tmp/cache_age30.hdf" !! "age" = None ∧
  short_cache_file {["age" := Some (-5)]} = "oxyfloat_fixed_cache_age-5.hdf" ∧
  _get_cache_file_parms (short_cache_file {["age" := Some (-5)]}) !! "age" = None.
Proof. repeat split; by vm_compute. Qed.

(** C5 (amended): a cache file name is decoded only when it holds the fixed
    base [oxyfloat_fixed_cache]; then, for each of age, pressure and profiles,
    the integer after the first match of [<name>([0-9]+)] is recorded, a name
    without a match gets no entry, and no other key is recorded. A name built
    by [short_cache_file] from constraints that are not negative decodes to
    exactly the constraints that were set. The name
    [oxyfloat_fixed_cache_age3000_profiles1.hdf] decodes to age 3000 and
    profiles 1, and a request of profiles 5 against it is validated to 1. *)
Theorem cache_file_name_decodes (f : string) (args : gmap string (option Z))
    (st : Store) :
  (PyStr.contains _fixed_cache_base f = true →
   _get_cache_file_parms f !! "age" = first_token _ageRE f ∧
   _get_cache_file_parms f !! "pressure" = first_token _pressureRE f ∧
   _get_cache_file_parms f !! "profiles" = first_token _profilesRE f ∧
   ∀ k, k ∉ constraint_names → _get_cache_file_parms f !! k = None) ∧
  (PyStr.contains _fixed_cache_base f = false → _get_cache_file_parms f = ∅) ∧
  ((∀ k v, args !! k = Some (Some v) → 0 ≤ v) →
   ∀ k, _get_cache_file_parms (short_cache_file args) !! k =
        if bool_decide (k ∈ constraint_names) then constraint args k else None) ∧
  _get_cache_file_parms "oxyfloat_fixed_cache_age3000_profiles1.hdf" =
    {["age" := 3000; "profiles" := 1]} ∧
  ∃ evs,
    _validate_cache_file_parm
      (ArgoData_init (Some "oxyfloat_fixed_cache_age3000_profiles1.hdf") true
         "ftp://global" "http://thredds" [])
      "profiles" (Some 5) st = (st, evs, inr 1).
Proof.
  split; [apply parms_of_fixed_name|]. split; [apply parms_of_other_name|].
  split; [|split].
  - intros Hpos k.
    destruct (short_cache_file_shape args) as (rest & Hname & _).
    assert (PyStr.contains _fixed_cache_base (short_cache_file args) = true) as Hc.
    { apply contains_prefix. rewrite Hname. apply prefix_append. }
    destruct (parms_of_fixed_name _ Hc) as (Ha & Hp & Hq & Hother).
    destruct (first_token_short_cache_file args Hpos) as (Ha' & Hp' & Hq').
    case_bool_decide as Hk.
    + unfold constraint_names in Hk.
      apply elem_of_cons in Hk as [->|Hk]; [congruence|].
      apply elem_of_cons in Hk as [->|Hk]; [congruence|].
      apply list_elem_of_singleton in Hk as ->. congruence.
    + by apply Hother.
  - by vm_compute.
  - eexists. apply validate_clamps; [by vm_compute|lia|lia].
Qed.

Lemma cache_file_name_decodes_witness :
  _get_cache_file_parms "oxyfloat_fixed_cache_age3000_profiles1.hdf" !! "age" =
    first_token _ageRE "oxyfloat_fixed_cache_age3000_profiles1.hdf" ∧
  _get_cache_file_parms
    (short_cache_file {["age" := Some 3000; "profiles" := Some 1; "pressure" := None]})
    !! "profiles" = Some 1.
Proof.
  pose proof (cache_file_name_decodes "oxyfloat_fixed_cache_age3000_profiles1.hdf"
                {["age" := Some 3000; "profiles" := Some 1; "pressure" := None]} ∅)
    as (H1 & _ & H3 & _).
  split.
  - apply H1. vm_compute. reflexivity.
  - refine (H3 _ "profiles").
    intros k v Hk.
    apply lookup_insert_Some in Hk as [[_ [= <-]]|[_ Hk]]; [lia|].
    apply lookup_insert_Some in Hk as [[_ [= <-]]|[_ Hk]]; [lia|].
    apply lookup_singleton_Some in Hk as [_ Hk]. discriminate.
Defined.

(** C6: a location that ends in digits, an underscore, digits and [.nc]
    (the first digits not preceded by a digit) gets the key [P] followed by
    those digits, underscore and digits; the store is neither read nor
    written and nothing is logged, so the key depends on the location's
    text alone. *)
Theorem float_profile_key (pre d1 d2 : string) (st : Store) :
  (∀ x, last (PyStr.chars pre) = Some x → PyStr.is_digit x = false) →
  PyStr.chars d1 ≠ [] → PyStr.chars d2 ≠ [] →
  all_digits (PyStr.chars d1) → all_digits (PyStr.chars d2) →
  _float_profile (pre +:+ d1 +:+ "_" +:+ d2 +:+ ".nc") st =
    (st, [], inr ("P" +:+ d1 +:+ "_" +:+ d2)).
Proof.
  intros Hpre Hne1 Hne2 Hd1 Hd2.
  unfold _float_profile, Re.search.
  rewrite !chars_append.
  change (PyStr.chars "_" ++ PyStr.chars d2 ++ PyStr.chars ".nc")
    with ("_"%char :: PyStr.chars d2 ++ PyStr.chars ".nc").
  rewrite float_profile_search by done.
  mrun. rewrite str_app. simpl. by rewrite !str_chars.
Qed.

Lemma float_profile_key_witness :
  _float_profile "http://tds0.ifremer.fr/thredds/dodsC/coriolis/1900650/profiles/R1900650_003.nc" ∅ =
    (∅, [], inr "P1900650_003").
Proof.
  apply (float_profile_key
           "http://tds0.ifremer.fr/thredds/dodsC/coriolis/1900650/profiles/R"
           "1900650" "003" ∅).
  - intros x Hx. vm_compute in Hx. injection Hx as <-. reflexivity.
  - discriminate.
  - discriminate.
  - repeat constructor.
  - repeat constructor.
Defined.

(** ** Computations that leave the store alone *)

Lemma stateless_ret {A} (a : A) : stateless (ret a).
Proof. by exists [], (inr a). Qed.

Lemma stateless_raise {A} (e : exn) : stateless (@raise A e).
Proof. by exists [], (inl e). Qed.

Lemma stateless_lift {A} (r : exn + A) : stateless (lift r).
Proof. by exists [], r. Qed.

Lemma stateless_emit (e : event) : stateless (emit e).
Proof. by exists [e], (inr tt). Qed.

Lemma stateless_logger (l : level) (msg : string) (args : list string) :
  stateless (logger l msg args).
Proof. apply stateless_emit. Qed.

Lemma stateless_bind {A B} (m : M A) (f : A → M B) :
  stateless m → (∀ a, stateless (f a)) → stateless (bind m f).
Proof.
  intros (ev1 & [e|a] & Hm) Hf.
  - exists ev1, (inl e). intros st. unfold bind. by rewrite Hm.
  - destruct (Hf a) as (ev2 & r & Hfa).
    exists (ev1 ++ ev2), r. intros st. unfold bind. by rewrite Hm, Hfa.
Qed.

Lemma stateless_try_except {A} (m : M A) (catches : exn → bool) (h : exn → M A) :
  stateless m → (∀ e, stateless (h e)) → stateless (try_except m catches h).
Proof.
  intros (ev1 & [e|a] & Hm) Hh.
  - destruct (catches e) eqn:Hc.
    + destruct (Hh e) as (ev2 & r & Hhe).
      exists (ev1 ++ ev2), r. intros st. unfold try_except. by rewrite Hm, Hc, Hhe.
    + exists ev1, (inl e). intros st. unfold try_except. by rewrite Hm, Hc.
  - exists ev1, (inr a). intros st. unfold try_except. by rewrite Hm.
Qed.

Lemma stateless_foldM {A B} (f : B → A → M B) (b : B) (l : list A) :
  (∀ b a, stateless (f b a)) → stateless (foldM f b l).
Proof.
  intros Hf. revert b. induction l as [|a l IH]; intros b; simpl.
  - apply stateless_ret.
  - apply stateless_bind; auto.
Qed.

Ltac stateless_tac :=
  repeat first
    [ apply stateless_ret | apply stateless_raise | apply stateless_lift
    | apply stateless_logger | apply stateless_emit
    | apply stateless_bind; [|intros ?]
    | apply stateless_try_except; [|intros ?]
    | apply stateless_foldM; intros ? ?
    | match goal with
      | |- stateless (match ?x with _ => _ end) => destruct x
      | |- stateless (if ?b then _ else _) => destruct b
      end ].

Lemma stateless_validate (self : ArgoData) (parm : string) (value : option Z) :
  stateless (_validate_cache_file_parm self parm value).
Proof. unfold _validate_cache_file_parm. stateless_tac. Qed.

Lemma stateless_float_profile (url : string) : stateless (_float_profile url).
Proof. unfold _float_profile. stateless_tac. Qed.

Lemma stateless_get_pressures (ds : Dataset) (max_pressure : Z) :
  stateless (_get_pressures ds max_pressure).
Proof. unfold _get_pressures. stateless_tac. Qed.

Lemma stateless_add_column (ds : Dataset) (url : string) (pres_indices : list nat)
    (indices : list label) (df : DataFrame) (v : string) :
  stateless (add_column ds url pres_indices indices df v).
Proof. unfold add_column. stateless_tac. Qed.

Lemma stateless_profile_to_dataframe (self : ArgoData) (W : World)
    (round1 : float → float) (wmo url : string) (max_pressure : Z) :
  stateless (_profile_to_dataframe self W round1 wmo url max_pressure).
Proof.
  unfold _profile_to_dataframe. stateless_tac.
Qed.

Lemma stateless_validate_oxygen (df : DataFrame) (url : string) :
  stateless (_validate_oxygen df url).
Proof. unfold _validate_oxygen. stateless_tac. Qed.

Lemma stateless_repack (self : ArgoData) : stateless (_repack_hdf self).
Proof. unfold _repack_hdf. stateless_tac. Qed.

Lemma stateless_get_profile_opendap_urls (W : World) (catalog_url : string) :
  stateless (get_profile_opendap_urls W catalog_url).
Proof. unfold get_profile_opendap_urls. stateless_tac. Qed.

(** ** Comparing binary64 numbers *)

Lemma SFcompare_antisym (x y : spec_float) (c : comparison) :
  SFcompare x y = Some c → SFcompare y x = Some (CompOpp c).
Proof.
  destruct x as [s1|s1| |s1 m1 e1], y as [s2|s2| |s2 m2 e2]; simpl;
    intros [= <-]; try done; try (by destruct s1); try (by destruct s2);
    try (by destruct s1, s2).
  destruct s1, s2; simpl; try done; f_equal.
  - rewrite (Z.compare_antisym e1 e2).
    destruct (e1 ?= e2); simpl; try done.
    by rewrite (Pos.compare_cont_antisym m1 m2 Eq).
  - rewrite (Z.compare_antisym e1 e2).
    destruct (e1 ?= e2); simpl; try done.
    by rewrite (Pos.compare_cont_antisym m1 m2 Eq).
Qed.

Lemma SFcompare_None (x y : spec_float) :
  SFcompare x y = None → x = S754_nan ∨ y = S754_nan.
Proof.
  destruct x as [s1|s1| |s1 m1 e1], y as [s2|s2| |s2 m2 e2]; simpl; auto; done.
Qed.

Lemma Prim2SF_is_nan (p : float) : Prim2SF p = S754_nan → PrimFloat.is_nan p = true.
Proof.
  unfold Prim2SF. destruct (PrimFloat.is_nan p); [done|].
  destruct (PrimFloat.is_zero p); [done|].
  destruct (PrimFloat.is_infinity p); [done|].
  destruct (Z.frexp p) as [r e].
  destruct (shr_fexp _ _ _ _ _) as [sh e'].
  by destruct (shr_m sh).
Qed.

(** Two numbers that are not [nan] are ordered: not [m <= p] is [p < m]. *)
Lemma float_not_le_lt (m p : float) :
  PrimFloat.leb m p = false →
  PrimFloat.is_nan p = false → PrimFloat.is_nan m = false →
  PrimFloat.ltb p m = true.
Proof.
  rewrite leb_spec, ltb_spec. unfold SFleb, SFltb. intros Hle Hp Hm.
  destruct (SFcompare (Prim2SF m) (Prim2SF p)) as [c|] eqn:Hc.
  - apply SFcompare_antisym in Hc. rewrite Hc. by destruct c.
  - apply SFcompare_None in Hc as [Hc|Hc]; apply Prim2SF_is_nan in Hc; congruence.
Qed.

Lemma shr_1_nonneg (mrs : shr_record) : 0 ≤ shr_m mrs → 0 ≤ shr_m (shr_1 mrs).
Proof.
  destruct mrs as [m r s]. simpl. intros Hm.
  destruct m as [|[p|p|]|p]; simpl; lia.
Qed.

Lemma iter_shr_1_nonneg (n : positive) (mrs : shr_record) :
  0 ≤ shr_m mrs → 0 ≤ shr_m (SpecFloat.iter_pos shr_1 n mrs).
Proof.
  revert mrs. induction n as [n IH|n IH|]; intros mrs Hm; simpl.
  - apply IH, IH. by apply shr_1_nonneg.
  - by apply IH, IH.
  - by apply shr_1_nonneg.
Qed.

Lemma shr_fexp_nonneg (pr em m e : Z) (l : location) :
  0 ≤ m → 0 ≤ shr_m (shr_fexp pr em m e l).1.
Proof.
  intros Hm. unfold shr_fexp, shr.
  assert (0 ≤ shr_m (shr_record_of_loc m l)) as H0.
  { by destruct l as [|[]]. }
  destruct (fexp pr em (Zdigits2 m + e) - e); simpl; auto.
  by apply iter_shr_1_nonneg.
Qed.

Lemma binary_round_aux_not_nan (pr em : Z) (sx : bool) (mx ex : Z) (lx : location) :
  0 ≤ mx → binary_round_aux pr em sx mx ex lx ≠ S754_nan.
Proof.
  intros Hm. unfold binary_round_aux.
  pose proof (shr_fexp_nonneg pr em mx ex lx Hm) as H1.
  destruct (shr_fexp pr em mx ex lx) as [mrs' e']. simpl in H1.
  set (mx' := round_nearest_even (shr_m mrs') (loc_of_shr_record mrs')).
  assert (0 ≤ mx') as H2.
  { unfold mx', round_nearest_even.
    destruct (loc_of_shr_record mrs') as [|[]]; try done; try lia.
    destruct (Z.even (shr_m mrs')); lia. }
  pose proof (shr_fexp_nonneg pr em mx' e' loc_Exact H2) as H3.
  destruct (shr_fexp pr em mx' e' loc_Exact) as [mrs'' e'']. simpl in H3.
  destruct (shr_m mrs'') as [|q|q]; [done| |lia].
  by destruct (e'' <=? em - pr).
Qed.

Lemma binary_normalize_not_nan (pr em m e : Z) (z : bool) :
  binary_normalize pr em m e z ≠ S754_nan.
Proof.
  unfold binary_normalize, binary_round.
  destruct m as [|p|p]; [done| |];
    destruct (shl_align _ _ _) as [mz ez]; by apply binary_round_aux_not_nan.
Qed.

Lemma SF2Prim_not_nan (x : spec_float) :
  x ≠ S754_nan → PrimFloat.is_nan (SF2Prim x) = false.
Proof.
  intros Hx. destruct (PrimFloat.is_nan (SF2Prim x)) eqn:Hn; [exfalso|done].
  destruct x as [[]|[]| |s m e]; try done. unfold SF2Prim in Hn.
  set (f := Z.ldexp (of_uint63 (Uint63.of_Z (Z.pos m))) e) in Hn.
  assert (Prim2SF f ≠ S754_nan) as Hf.
  { unfold f. rewrite FloatLemmas.Z_ldexp_spec, of_uint63_spec.
    unfold SFldexp.
    pose proof (binary_normalize_not_nan prec emax
                  (Uint63.to_Z (Uint63.of_Z (Z.pos m))) 0 false) as Hb.
    destruct (binary_normalize _ _ _ _ _) as [| | |s' m' e']; try done.
    unfold binary_round. destruct (shl_align _ _ _) as [mz ez].
    by apply binary_round_aux_not_nan. }
  assert (Prim2SF (if s then - f else f)%float ≠ S754_nan) as Hsf.
  { destruct s; [|done]. rewrite opp_spec. by destruct (Prim2SF f). }
  apply Hsf. unfold Prim2SF. by rewrite Hn.
Qed.

(** An integer never converts to [nan]. *)
Lemma float_of_Z_not_nan (z : Z) : PrimFloat.is_nan (float_of_Z z) = false.
Proof. apply SF2Prim_not_nan, binary_normalize_not_nan. Qed.

(** ** Running a computation step by step *)

Lemma bind_inr {A B} (m : M A) (f : A → M B) (st st' : Store) (evs : list event) (b : B) :
  bind m f st = (st', evs, inr b) →
  ∃ st1 ev1 a ev2,
    m st = (st1, ev1, inr a) ∧ f a st1 = (st', ev2, inr b) ∧ evs = ev1 ++ ev2.
Proof.
  unfold bind. destruct (m st) as [[st1 ev1] [e|a]]; [done|].
  destruct (f a st1) as [[st2 ev2] r] eqn:Hf.
  intros [= <- <- ->]. by exists st1, ev1, a, ev2.
Qed.

Lemma bind_run {A B} (m : M A) (f : A → M B) (st st1 : Store) (ev1 : list event) (a : A) :
  m st = (st1, ev1, inr a) →
  bind m f st = (let '(st2, ev2, r) := f a st1 in (st2, ev1 ++ ev2, r)).
Proof. intros Hm. unfold bind. by rewrite Hm. Qed.

Lemma bind_fail {A B} (m : M A) (f : A → M B) (st st1 : Store) (ev1 : list event)
    (e : exn) :
  m st = (st1, ev1, inl e) → bind m f st = (st1, ev1, inl e).
Proof. intros Hm. unfold bind. by rewrite Hm. Qed.

Lemma try_except_ok {A} (m : M A) (catches : exn → bool) (h : exn → M A)
    (st st1 : Store) (ev1 : list event) (a : A) :
  m st = (st1, ev1, inr a) → try_except m catches h st = (st1, ev1, inr a).
Proof. intros Hm. unfold try_except. by rewrite Hm. Qed.

Lemma try_except_caught {A} (m : M A) (catches : exn → bool) (h : exn → M A)
    (st st1 : Store) (ev1 : list event) (e : exn) :
  m st = (st1, ev1, inl e) → catches e = true →
  try_except m catches h st = (let '(st2, ev2, r) := h e st1 in (st2, ev1 ++ ev2, r)).
Proof. intros Hm Hc. unfold try_except. by rewrite Hm, Hc. Qed.

(** ** The pressure axis *)

Lemma pressures_loop_prefix (max_pressure : Z) (i : nat) (axis : list float) :
  ∃ k, pressures_loop max_pressure i axis = (take k axis, seq i k) ∧
       (k ≤ length axis)%nat ∧
       Forall (λ p, ge_int p max_pressure = false) (take k axis) ∧
       (∀ p, axis !! k = Some p → ge_int p max_pressure = true).
Proof.
  revert i. induction axis as [|p axis IH]; intros i.
  - exists 0%nat. repeat split; auto. intros p. by rewrite lookup_nil.
  - simpl. destruct (ge_int p max_pressure) eqn:Hp.
    + exists 0%nat. repeat split; auto; [lia|]. by intros q [= <-].
    + destruct (IH (S i)) as (k & -> & Hk & Hall & Hstop).
      exists (S k). repeat split; auto; [simpl; lia|].
      simpl. by constructor.
Qed.

(** A retained pressure is below the limit or is [nan]. *)
Lemma not_ge_int (p : float) (max_pressure : Z) :
  ge_int p max_pressure = false →
  PrimFloat.is_nan p = true ∨ PrimFloat.ltb p (float_of_Z max_pressure) = true.
Proof.
  unfold ge_int. intros Hp.
  destruct (PrimFloat.is_nan p) eqn:Hn; [by left|right].
  apply float_not_le_lt; auto. apply float_of_Z_not_nan.
Qed.

Lemma require_variables_present (ds : Dataset) (vs : list string) (st : Store) :
  Forall (λ v, is_Some (ds !! v)) vs →
  require_variables ds vs st = (st, [], inr tt).
Proof.
  unfold require_variables. induction 1 as [|v vs [x Hv] _ IH]; [done|].
  simpl. unfold bind. rewrite Hv. simpl. by rewrite IH.
Qed.

Lemma require_variables_missing (ds : Dataset) (vs : list string) (st : Store) :
  Exists (λ v, ds !! v = None) vs →
  require_variables ds vs st = (st, [], inl RequiredVariableNotPresent).
Proof.
  unfold require_variables. induction vs as [|v vs IH]; intros Hex.
  - by apply Exists_nil in Hex.
  - simpl. unfold bind. destruct (ds !! v) eqn:Hv; [|done].
    apply Exists_cons in Hex as [Hex|Hex]; [congruence|].
    simpl. by rewrite IH.
Qed.

Lemma require_variables_inr (ds : Dataset) (vs : list string) (st st' : Store)
    (evs : list event) (u : unit) :
  require_variables ds vs st = (st', evs, inr u) →
  Forall (λ v, is_Some (ds !! v)) vs ∧ st' = st ∧ evs = [].
Proof.
  intros H.
  destruct (decide (Forall (λ v, is_Some (ds !! v)) vs)) as [Hall|Hnot].
  - rewrite require_variables_present in H by done. by injection H as <- <-.
  - apply not_Forall_Exists in Hnot; [|apply _].
    rewrite require_variables_missing in H; [done|].
    eapply Exists_impl; [done|]. simpl. intros v Hv.
    destruct (ds !! v); [|done]. exfalso. by apply Hv.
Qed.

Lemma get_pressures_run (ds : Dataset) (max_pressure : Z) (axis : list float)
    (st : Store) :
  values_at ds "PRES_ADJUSTED" 0 = inr (Row axis) →
  _get_pressures ds max_pressure st =
    (st,
     match (pressures_loop max_pressure 0 axis).1 with
     | [] => [no_pressures_warning]
     | _ => []
     end,
     inr (pressures_loop max_pressure 0 axis)).
Proof.
  intros Hv. unfold _get_pressures. unfold bind at 1, lift. rewrite Hv.
  destruct (pressures_loop max_pressure 0 axis) as [[|p ps] idx]; done.
Qed.

Lemma get_pressures_inr (ds : Dataset) (max_pressure : Z) (st st' : Store)
    (evs : list event) (pp : list float * list nat) :
  _get_pressures ds max_pressure st = (st', evs, inr pp) →
  ∃ axis, values_at ds "PRES_ADJUSTED" 0 = inr (Row axis) ∧
          pp = pressures_loop max_pressure 0 axis ∧ st' = st.
Proof.
  unfold _get_pressures. unfold bind at 1, lift.
  destruct (values_at ds "PRES_ADJUSTED" 0) as [e|[x|axis]] eqn:Hv; [done|done|].
  destruct (pressures_loop max_pressure 0 axis) as [[|p ps] idx] eqn:Hl;
    simpl; intros [= ? ? ?]; subst; exists axis; by rewrite Hl.
Qed.

(** ** The profile transform *)

Lemma foldM_inr_invariant {A B} (P : B → Prop) (f : B → A → M B) (l : list A) :
  (∀ b a st st' evs b', f b a st = (st', evs, inr b') → P b → P b') →
  ∀ b st st' evs b', foldM f b l st = (st', evs, inr b') → P b → P b'.
Proof.
  intros Hf. induction l as [|a l IH]; intros b st st' evs b' Hrun Hb; simpl in Hrun.
  - by injection Hrun as _ _ <-.
  - apply bind_inr in Hrun as (st1 & ev1 & b1 & ev2 & H1 & H2 & _).
    eapply IH; [done|]. by eapply Hf.
Qed.

Lemma df_setitem_table_on (tuples : list label) (df : DataFrame) (v : string)
    (vals : list cell) :
  table_on tuples df →
  table_on tuples (df_setitem df v {| s_values := vals; s_index := tuples |}).
Proof.
  intros [->|[Hi Hc]]; right.
  - done.
  - unfold df_setitem. destruct (columns df) as [|[k x] cs] eqn:Hcs; [done|].
    simpl. split; [done|]. by destruct (String.eqb k v).
Qed.

Lemma add_column_table_on (ds : Dataset) (url : string) (pres_indices : list nat)
    (tuples : list label) (df df' : DataFrame) (v : string) (st st' : Store)
    (evs : list event) :
  add_column ds url pres_indices tuples df v st = (st', evs, inr df') →
  table_on tuples df → table_on tuples df'.
Proof.
  intros Hrun Hdf. unfold add_column in Hrun.
  unfold try_except, bind, lift, logger, emit, ret in Hrun.
  repeat case_match; simplify_eq; auto using df_setitem_table_on.
Qed.

Lemma index_tuples_inr (round1 : float → float) (ds : Dataset) (wmo : string)
    (pressures : list float) (tuples : list label) :
  index_tuples round1 ds wmo pressures = inr tuples →
  tuples = row_key round1 ds wmo <$> pressures.
Proof.
  unfold index_tuples, row_key, coord. revert tuples.
  induction pressures as [|p ps IH]; intros tuples; simpl.
  - by intros [= <-].
  - destruct (values_at ds "JULD" 0) as [|juld]; [done|].
    destruct (values_at ds "LONGITUDE" 0) as [|lon]; [done|].
    destruct (values_at ds "LATITUDE" 0) as [|lat]; [done|]. simpl.
    destruct (rmap _ ps) as [|ts] eqn:Hts; [done|]. simpl. intros [= <-].
    by rewrite (IH ts eq_refl).
Qed.

(** What a successful transform has done: it opened the dataset, found the
    required variables and a pressure row, and built a table that is empty
    or indexed by one tuple per retained pressure; the store is untouched. *)
Lemma profile_to_dataframe_inr (self : ArgoData) (W : World) (round1 : float → float)
    (wmo url : string) (max_pressure : Z) (st st' : Store) (evs : list event)
    (df : DataFrame) :
  _profile_to_dataframe self W round1 wmo url max_pressure st = (st', evs, inr df) →
  st' = st ∧
  ∃ ds axis,
    open_dataset W url = inr ds ∧
    Forall (λ v, is_Some (ds !! v)) (variables self) ∧
    values_at ds "PRES_ADJUSTED" 0 = inr (Row axis) ∧
    table_on (row_key round1 ds wmo <$> (pressures_loop max_pressure 0 axis).1) df ∧
    ((pressures_loop max_pressure 0 axis).1 = [] → df = DataFrame0).
Proof.
  intros Hrun.
  destruct (stateless_profile_to_dataframe self W round1 wmo url max_pressure)
    as (evs0 & r0 & Hst).
  split; [rewrite Hst in Hrun; by injection Hrun|].
  unfold _profile_to_dataframe in Hrun.
  apply bind_inr in Hrun as (? & ? & [] & ? & _ & Hrun & _).
  apply bind_inr in Hrun as (? & ? & [] & ? & _ & Hrun & _).
  apply bind_inr in Hrun as (? & ? & ds & ? & Hopen & Hrun & _).
  apply bind_inr in Hrun as (? & ? & [] & ? & _ & Hrun & _).
  apply bind_inr in Hrun as (? & ? & [] & ? & Hreq & Hrun & _).
  apply bind_inr in Hrun as (? & ? & [pressures idx] & ? & Hpres & Hrun & _).
  apply bind_inr in Hrun as (? & ? & tuples & ? & Htup & Hrun & _).
  unfold lift in Hopen, Htup.
  apply require_variables_inr in Hreq as (Hreq & _ & _).
  apply get_pressures_inr in Hpres as (axis & Haxis & Hpp & _).
  assert (index_tuples round1 ds wmo pressures = inr tuples) as Htup'
    by congruence.
  apply index_tuples_inr in Htup' as ->.
  exists ds, axis.
  split; [congruence|]. split; [done|]. split; [done|].
  rewrite <- Hpp. simpl.
  destruct pressures as [|p ps].
  - simpl in Hrun. injection Hrun as _ _ <-. split; [by left|done].
  - simpl in Hrun. split; [|done].
    eapply (foldM_inr_invariant (table_on _)); [|exact Hrun|by left].
    intros. by eapply add_column_table_on.
Qed.

(** With no retained pressure the transform warns and gives the empty table. *)
Lemma profile_to_dataframe_no_pressures (self : ArgoData) (W : World)
    (round1 : float → float) (wmo url : string) (max_pressure : Z) (ds : Dataset)
    (axis : list float) (st : Store) :
  open_dataset W url = inr ds →
  Forall (λ v, is_Some (ds !! v)) (variables self) →
  values_at ds "PRES_ADJUSTED" 0 = inr (Row axis) →
  (pressures_loop max_pressure 0 axis).1 = [] →
  _profile_to_dataframe self W round1 wmo url max_pressure st =
    (st,
     [Log DEBUG "Opening %s" [url]; FetchProfile url;
      Log DEBUG "Checking %s for our desired variables" [url];
      no_pressures_warning],
     inr DataFrame0).
Proof.
  intros Hopen Hreq Haxis Hnone. unfold _profile_to_dataframe.
  unfold bind at 1, logger, emit. unfold bind at 1. unfold bind at 1, lift.
  rewrite Hopen. unfold bind at 1.
  erewrite (bind_run (require_variables ds (variables self)));
    [|by apply require_variables_present].
  erewrite (bind_run (_get_pressures ds max_pressure));
    [|by apply get_pressures_run].
  destruct (pressures_loop max_pressure 0 axis) as [ps idx].
  simpl in Hnone. subst ps. done.
Qed.

(** C7, as stated, fails on the code: a [nan] pressure is not [>=] the
    limit, so it is retained, and it is not below the limit either. *)
Lemma nan_pressure_is_retained :
  let ds : Dataset := {["PRES_ADJUSTED" := Values [Row [nan; 5%float; 12%float]]]} in
  _get_pressures ds 10 ∅ = (∅, [], inr ([nan; 5%float], [0; 1]%nat)) ∧
  PrimFloat.ltb nan (float_of_Z 10) = false.
Proof. split; by vm_compute. Qed.

(** C7 (amended): the retained indices are exactly the positions before the
    first pressure that is [>=] the limit (all of them when there is none),
    and the retained pressures are the axis at those positions. No retained
    pressure is [>=] the limit: each is strictly below it or is [nan] (a
    missing pressure does not stop the loop). When nothing is retained the
    warning is logged and the transform returns the empty table. *)
Theorem pressures_are_a_prefix (self : ArgoData) (W : World) (round1 : float → float)
    (wmo url : string) (ds : Dataset) (max_pressure : Z) (axis : list float)
    (st : Store) :
  open_dataset W url = inr ds →
  Forall (λ v, is_Some (ds !! v)) (variables self) →
  values_at ds "PRES_ADJUSTED" 0 = inr (Row axis) →
  ∃ k, (k ≤ length axis)%nat ∧
    _get_pressures ds max_pressure st =
      (st, match k with O => [no_pressures_warning] | _ => [] end,
       inr (take k axis, seq 0 k)) ∧
    (∀ j p, (j < k)%nat → axis !! j = Some p →
            ge_int p max_pressure = false ∧
            (PrimFloat.is_nan p = true ∨
             PrimFloat.ltb p (float_of_Z max_pressure) = true)) ∧
    (∀ p, axis !! k = Some p → ge_int p max_pressure = true) ∧
    (k = 0%nat →
     ∃ evs, no_pressures_warning ∈ evs ∧
            _profile_to_dataframe self W round1 wmo url max_pressure st =
              (st, evs, inr DataFrame0)).
Proof.
  intros Hopen Hreq Haxis.
  destruct (pressures_loop_prefix max_pressure 0 axis) as (k & Hloop & Hk & Hall & Hstop).
  exists k. split; [done|]. split; [|split; [|split]].
  - rewrite (get_pressures_run _ _ axis) by done. rewrite Hloop. simpl.
    destruct k as [|k]; [done|]. destruct axis; [simpl in Hk; lia|done].
  - intros j p Hj Hp.
    assert (ge_int p max_pressure = false) as Hge.
    { rewrite Forall_lookup in Hall. apply (Hall j).
      by rewrite lookup_take_lt. }
    split; [done|]. by apply not_ge_int.
  - done.
  - intros ->. eexists. split; [|eapply profile_to_dataframe_no_pressures; eauto].
    + set_solver.
    + by rewrite Hloop.
Qed.

(** ** Worked examples *)

Lemma pressures_are_a_prefix_witness :
  ∃ k, (k ≤ 3)%nat ∧
       ∀ p, [5%float; 5%float; 12.5%float] !! k = Some p → ge_int p 10 = true.
Proof.
  destruct (pressures_are_a_prefix (example_self true) example_world (λ x, x)
              "1900650" (example_url "001")
              (example_profile [5%float; 5%float; 12.5%float]
                 [210%float; 212%float; 190%float])
              10 [5%float; 5%float; 12.5%float] ∅)
    as (k & Hk & _ & _ & Hstop & _).
  - reflexivity.
  - vm_compute. repeat constructor; eexists; reflexivity.
  - reflexivity.
  - exists k. split; assumption.
Defined.

(** ** The rows of a profile table *)

Lemma row_key_NoDup (round1 : float → float) (ds : Dataset) (wmo : string)
    (pressures : list float) :
  NoDup (row_key round1 ds wmo <$> pressures) ↔ NoDup (round1 <$> pressures).
Proof.
  unfold row_key.
  change (λ pres, Tuple wmo (coord ds "JULD") (coord ds "LONGITUDE")
                    (coord ds "LATITUDE") (round1 pres))
    with (Tuple wmo (coord ds "JULD") (coord ds "LONGITUDE") (coord ds "LATITUDE")
          ∘ round1).
  rewrite list_fmap_compose. apply NoDup_fmap.
  by intros x y [= ->].
Qed.

(** C9, as stated, fails on the code: the transform builds one row per
    retained pressure and removes none, so two readings at one pressure give
    two rows with the same tuple, whatever the rounding to one decimal is. *)
Lemma equal_pressures_repeat_a_row :
  let ds := example_profile [5%float; 5%float; 12.5%float]
              [210%float; 212%float; 190%float] in
  open_dataset example_world (example_url "001") = inr ds ∧
  ∀ round1 : float → float,
    (_profile_to_dataframe (example_self true) example_world round1
       "1900650" (example_url "001") 10 ∅).2 =
      inr {| index := [row_key round1 ds "1900650" 5%float;
                       row_key round1 ds "1900650" 5%float];
             columns := [("DOXY_ADJUSTED", [Num 210%float; Num 212%float])] |} ∧
    ¬ NoDup [row_key round1 ds "1900650" 5%float;
             row_key round1 ds "1900650" 5%float].
Proof.
  intros ds. split; [reflexivity|]. intros round1. split.
  - vm_compute. reflexivity.
  - intros Hnd. apply NoDup_cons in Hnd as [Hnot _]. apply Hnot. by left.
Qed.

(** C9 (amended): a table the transform returns is empty, or its index has
    exactly one tuple (float-id, time, longitude, latitude, pressure rounded
    to one decimal) per retained pressure, in axis order, with time,
    longitude and latitude the same in all of them. Its tuples are
    therefore unique exactly when the rounded retained pressures are
    pairwise different; nothing is removed when they are not. *)
Theorem profile_table_rows (self : ArgoData) (W : World) (round1 : float → float)
    (wmo url : string) (max_pressure : Z) (st st' : Store) (evs : list event)
    (df : DataFrame) :
  _profile_to_dataframe self W round1 wmo url max_pressure st = (st', evs, inr df) →
  ∃ ds axis k,
    open_dataset W url = inr ds ∧
    values_at ds "PRES_ADJUSTED" 0 = inr (Row axis) ∧
    (pressures_loop max_pressure 0 axis).1 = take k axis ∧
    (df = DataFrame0 ∨
     (index df = row_key round1 ds wmo <$> take k axis ∧
      (NoDup (index df) ↔ NoDup (round1 <$> take k axis)))).
Proof.
  intros Hrun.
  apply profile_to_dataframe_inr in Hrun
    as (_ & ds & axis & Hopen & _ & Haxis & Htab & _).
  destruct (pressures_loop_prefix max_pressure 0 axis) as (k & Hloop & _).
  exists ds, axis, k. rewrite Hloop in *. simpl in *.
  repeat split; auto.
  destruct Htab as [->|[Hidx _]]; [by left|right].
  split; [done|]. rewrite Hidx. apply row_key_NoDup.
Qed.

Lemma profile_table_rows_witness :
  ∃ (ds : Dataset) (axis : list float) (k : nat),
    open_dataset example_world (example_url "001") = inr ds ∧
    values_at ds "PRES_ADJUSTED" 0 = inr (Row axis) ∧
    (pressures_loop 10 0 axis).1 = take k axis.
Proof.
  destruct (profile_table_rows (example_self true) example_world (λ x, x)
              "1900650" (example_url "001") 10 ∅ ∅
              [Log DEBUG "Opening %s" [example_url "001"];
               FetchProfile (example_url "001");
               Log DEBUG "Checking %s for our desired variables" [example_url "001"];
               Log DEBUG "Added %s to DataFrame" ["DOXY_ADJUSTED"]]
              {| index := [row_key (λ x, x) (example_profile [] []) "1900650" 5%float;
                           row_key (λ x, x) (example_profile [] []) "1900650" 5%float];
                 columns := [("DOXY_ADJUSTED", [Num 210%float; Num 212%float])] |})
    as (ds & axis & k & H1 & H2 & H3 & _).
  - vm_compute. reflexivity.
  - exists ds, axis, k. repeat split; assumption.
Defined.

(** ** Saving a profile *)

Lemma url_metadata_nonempty (url : string) : url_metadata url ≠ [].
Proof.
  unfold url_metadata. simpl. by case_decide.
Qed.

Lemma put_df_run (self : ArgoData) (df : DataFrame) (name : string)
    (metadata : list string) (st : Store) :
  metadata ≠ [] →
  _put_df self df name metadata st =
    (<[name := (df, Some metadata)]> st,
     [Log DEBUG "Saving DataFrame to name '%s' in file %s" [name; cache_file self];
      Log DEBUG "store.close()" []],
     inr tt).
Proof. intros Hm. unfold _put_df. mrun. by destruct metadata. Qed.

Lemma get_df_hit (self : ArgoData) (name : string) (st : Store) (df : DataFrame)
    (meta : option (list string)) :
  st !! name = Some (df, meta) →
  _get_df self name st =
    (st,
     [Log DEBUG "Getting '%s' from %s" [name; cache_file self];
      Log DEBUG "store.close()" []],
     inr df).
Proof. intros Hst. unfold _get_df. mrun. by rewrite Hst. Qed.

Lemma get_df_miss (self : ArgoData) (name : string) (st : Store) :
  st !! name = None →
  _get_df self name st =
    (st,
     [Log DEBUG "Getting '%s' from %s" [name; cache_file self];
      Log DEBUG "store.close()" []],
     inl KeyError).
Proof. intros Hst. unfold _get_df. mrun. by rewrite Hst. Qed.

Lemma stateless_fetch_and_validate (self : ArgoData) (W : World)
    (round1 : float → float) (url wmo : string) (max_pressure : Z) :
  stateless (fetch_and_validate self W round1 url wmo max_pressure).
Proof.
  unfold fetch_and_validate. apply stateless_bind.
  - apply stateless_profile_to_dataframe.
  - intros df. destruct (_ && _); [apply stateless_validate_oxygen|apply stateless_ret].
Qed.

(** [_save_profile] stores what its [try] block returns, or the empty table
    when a required variable is missing; any other exception leaves the
    store as it was. *)
Lemma save_profile_run (self : ArgoData) (W : World) (round1 : float → float)
    (url : string) (count : nat) (opendap_urls : list string) (wmo key : string)
    (max_pressure : Z) (float_msg : string) (st : Store) :
  ∃ evs r, (∀ st0, fetch_and_validate self W round1 url wmo max_pressure st0 =
                     (st0, evs, r)) ∧
    ∃ evs',
      _save_profile self W round1 url count opendap_urls wmo key max_pressure
        float_msg st =
      match r with
      | inr df => (<[key := (df, Some (url_metadata url))]> st, evs', inr df)
      | inl RequiredVariableNotPresent =>
          (<[key := (DataFrame0, Some (url_metadata url))]> st, evs', inr DataFrame0)
      | inl e => (st, evs', inl e)
      end.
Proof.
  destruct (stateless_fetch_and_validate self W round1 url wmo max_pressure)
    as (evs & r & Hfv).
  exists evs, r. split; [done|].
  unfold _save_profile. fold (url_metadata url).
  unfold fetch_and_validate in Hfv.
  unfold bind at 1. unfold try_except. unfold bind at 1. unfold logger at 1, emit.
  rewrite Hfv.
  pose proof (url_metadata_nonempty url) as Hmeta.
  destruct r as [e|df].
  - destruct e; simpl; try (eexists; reflexivity).
    destruct (url_metadata url); [done|]. eexists. reflexivity.
  - simpl. destruct (url_metadata url); [done|]. eexists. reflexivity.
Qed.

(** C8: when oxygen is required and the oxygen column of the transformed
    table holds no value that is not missing, the table stored under the
    profile's key is the empty one; when oxygen is not required, the
    transformed table is stored as it is, with all its columns. *)
Theorem oxygen_gate (self : ArgoData) (W : World) (round1 : float → float)
    (url : string) (count : nat) (opendap_urls : list string) (wmo key : string)
    (max_pressure : Z) (float_msg : string) (st st' : Store) (evs : list event)
    (df : DataFrame) :
  _profile_to_dataframe self W round1 wmo url max_pressure st = (st', evs, inr df) →
  (_oxygen_required self = true →
   ∀ doxy, df_getitem df "DOXY_ADJUSTED" = inr doxy → dropna_empty doxy = true →
   ∃ evs',
     _save_profile self W round1 url count opendap_urls wmo key max_pressure
       float_msg st =
     (<[key := (DataFrame0, Some (url_metadata url))]> st, evs', inr DataFrame0)) ∧
  (_oxygen_required self = false →
   ∃ evs',
     _save_profile self W round1 url count opendap_urls wmo key max_pressure
       float_msg st =
     (<[key := (df, Some (url_metadata url))]> st, evs', inr df)).
Proof.
  intros Hrun.
  pose proof Hrun as Hinv.
  apply profile_to_dataframe_inr in Hinv
    as (-> & ds & axis & _ & _ & _ & Htab & Hnone).
  destruct (save_profile_run self W round1 url count opendap_urls wmo key
              max_pressure float_msg st) as (evs0 & r & Hfv & evs' & Hsave).
  specialize (Hfv st). unfold fetch_and_validate in Hfv.
  rewrite (bind_run _ _ _ _ _ _ Hrun) in Hfv.
  split.
  - intros Hoxy doxy Hcol Hnan.
    assert (df_empty df = false) as Hne.
    { destruct Htab as [->|[Hidx Hcols]]; [done|].
      unfold df_empty. rewrite Hidx, length_fmap.
      destruct (pressures_loop max_pressure 0 axis).1 as [|p ps] eqn:Hps.
      - rewrite Hnone in Hcol by done. done.
      - simpl. by destruct (columns df). }
    rewrite Hne, Hoxy in Hfv. simpl in Hfv.
    unfold _validate_oxygen in Hfv. unfold bind at 1, lift in Hfv.
    rewrite Hcol, Hnan in Hfv. simpl in Hfv.
    injection Hfv as <- <-. eauto.
  - intros Hoxy. rewrite Hoxy, andb_false_r in Hfv. simpl in Hfv.
    injection Hfv as <- <-. eauto.
Qed.

Lemma oxygen_gate_witness :
  ∃ evs',
    _save_profile (example_self true) example_world (λ x, x) (example_url "002")
      1 [example_url "001"; example_url "002"] "1900650" "P1900650_002" 10
      "WMO 1900650: Float 1 of 1" ∅ =
    (<["P1900650_002" := (DataFrame0, Some (url_metadata (example_url "002")))]> ∅,
     evs', inr DataFrame0).
Proof.
  edestruct (oxygen_gate (example_self true) example_world (λ x, x)
               (example_url "002") 1 [example_url "001"; example_url "002"]
               "1900650" "P1900650_002" 10 "WMO 1900650: Float 1 of 1" ∅)
    as [Hgate _].
  - vm_compute. reflexivity.
  - apply (Hgate eq_refl [Num nan; Num nan]); reflexivity.
Defined.

(** ** One profile of the loop *)

Lemma float_profile_run (url : string) (st : Store) :
  _float_profile url st = (st, [], key_of url).
Proof.
  unfold _float_profile, key_of, bind, lift, ret.
  by destruct (group1 _).
Qed.

Lemma fetches_app (a b : list event) : fetches (a ++ b) = fetches a ++ fetches b.
Proof. apply filter_app. Qed.

Lemma fetches_log (l : level) (msg : string) (args : list string) (evs : list event) :
  fetches (Log l msg args :: evs) = fetches evs.
Proof. done. Qed.

Section Step.

Context (self : ArgoData) (W : World) (round1 : float → float).
Context (opendap_urls : list string) (wmo : string) (max_pressure : Z)
        (float_msg : string) (append_df : bool).

Lemma profile_step_hit (url key : string) (i : nat) (float_df df : DataFrame)
    (meta : option (list string)) (st : Store) :
  key_of url = inr key → st !! key = Some (df, meta) →
  profile_step self W round1 url i opendap_urls wmo max_pressure float_msg append_df
    float_df st =
  (st, hit_trace self key, inr (appended append_df float_df df)).
Proof.
  intros Hkey Hst. unfold profile_step.
  pose proof (float_profile_run url st) as Hfp. rewrite Hkey in Hfp.
  rewrite (bind_run _ _ _ _ _ _ Hfp).
  erewrite bind_run;
    [|by apply try_except_ok, (get_df_hit _ _ _ _ _ Hst)].
  done.
Qed.

Lemma profile_step_miss (url key : string) (i : nat) (float_df : DataFrame)
    (st : Store) :
  key_of url = inr key → st !! key = None →
  ∃ evs r,
    (∀ st0, fetch_and_validate self W round1 url wmo max_pressure st0 = (st0, evs, r)) ∧
    ∃ evs',
      profile_step self W round1 url i opendap_urls wmo max_pressure float_msg
        append_df float_df st =
      match r with
      | inr df =>
          (<[key := (df, Some (url_metadata url))]> st, evs',
           inr (appended append_df float_df df))
      | inl RequiredVariableNotPresent =>
          (<[key := (DataFrame0, Some (url_metadata url))]> st, evs',
           inr (appended append_df float_df DataFrame0))
      | inl e => (st, evs', inl e)
      end.
Proof.
  intros Hkey Hst.
  destruct (save_profile_run self W round1 url i opendap_urls wmo key max_pressure
              float_msg st) as (evs & r & Hfv & evs' & Hsave).
  exists evs, r. split; [done|].
  unfold profile_step.
  pose proof (float_profile_run url st) as Hfp. rewrite Hkey in Hfp.
  rewrite (bind_run _ _ _ _ _ _ Hfp).
  pose proof (try_except_caught _ (is_exn KeyError)
                (λ _, _save_profile self W round1 url i opendap_urls wmo key
                        max_pressure float_msg)
                _ _ _ _ (get_df_miss self key st Hst) eq_refl) as Htry.
  cbv beta in Htry. rewrite Hsave in Htry.
  destruct r as [[]|df];
    first [ rewrite (bind_fail _ _ _ _ _ _ Htry)
          | rewrite (bind_run _ _ _ _ _ _ Htry) ];
    simpl; eexists; reflexivity.
Qed.

(** After a profile is processed its key is in the store, with the table
    that was handed on; keys already there keep their tables. *)
Lemma profile_step_inr (url : string) (i : nat) (float_df float_df' : DataFrame)
    (st st' : Store) (evs : list event) :
  profile_step self W round1 url i opendap_urls wmo max_pressure float_msg append_df
    float_df st = (st', evs, inr float_df') →
  ∃ key df meta,
    key_of url = inr key ∧ st' !! key = Some (df, meta) ∧
    float_df' = appended append_df float_df df ∧ st ⊆ st'.
Proof.
  intros Hrun.
  destruct (key_of url) as [e|key] eqn:Hkey.
  { unfold profile_step in Hrun.
    pose proof (float_profile_run url st) as Hfp. rewrite Hkey in Hfp.
    by rewrite (bind_fail _ _ _ _ _ _ Hfp) in Hrun. }
  destruct (st !! key) as [[df meta]|] eqn:Hst.
  - rewrite (profile_step_hit _ _ _ _ _ _ _ Hkey Hst) in Hrun.
    injection Hrun as <- _ <-. by exists key, df, meta.
  - destruct (profile_step_miss url key i float_df st Hkey Hst)
      as (evs0 & r & _ & evs' & Hstep).
    rewrite Hstep in Hrun.
    destruct r as [[]|df]; try done; injection Hrun as <- _ <-.
    + eexists key, DataFrame0, _.
      repeat split; [apply lookup_insert_eq|by apply insert_subseteq].
    + eexists key, df, _.
      repeat split; [apply lookup_insert_eq|by apply insert_subseteq].
Qed.

Lemma profile_step_grows (url : string) (i : nat) (float_df : DataFrame)
    (st st' : Store) (evs : list event) (r : exn + DataFrame) :
  profile_step self W round1 url i opendap_urls wmo max_pressure float_msg append_df
    float_df st = (st', evs, r) →
  st ⊆ st'.
Proof.
  intros Hrun.
  destruct (key_of url) as [e|key] eqn:Hkey.
  { unfold profile_step in Hrun.
    pose proof (float_profile_run url st) as Hfp. rewrite Hkey in Hfp.
    rewrite (bind_fail _ _ _ _ _ _ Hfp) in Hrun. by injection Hrun as <- _ _. }
  destruct (st !! key) as [[df meta]|] eqn:Hst.
  - rewrite (profile_step_hit _ _ _ _ _ _ _ Hkey Hst) in Hrun.
    by injection Hrun as <- _ _.
  - destruct (profile_step_miss url key i float_df st Hkey Hst)
      as (evs0 & r0 & _ & evs' & Hstep).
    rewrite Hstep in Hrun.
    destruct r0 as [[]|df]; injection Hrun as <- _ _;
      done || by apply insert_subseteq.
Qed.

End Step.

(** ** The loops of [get_float_dataframe] *)

Lemma bind_any {A B} (m : M A) (f : A → M B) (st st' : Store) (evs : list event)
    (r : exn + B) :
  bind m f st = (st', evs, r) →
  (∃ e, m st = (st', evs, inl e) ∧ r = inl e) ∨
  (∃ st1 ev1 a ev2,
     m st = (st1, ev1, inr a) ∧ f a st1 = (st', ev2, r) ∧ evs = ev1 ++ ev2).
Proof.
  unfold bind. destruct (m st) as [[st1 ev1] [e|a]].
  - intros [= <- <- <-]. left. by exists e.
  - destruct (f a st1) as [[st2 ev2] r2] eqn:Hf.
    intros [= <- <- <-]. right. by exists st1, ev1, a, ev2.
Qed.

Section Loops.

Context (self : ArgoData) (W : World) (round1 : float → float).
Context (max_profiles max_pressure : Z) (append_df : bool).

Lemma profiles_loop_grows (opendap_urls : list string) (wmo float_msg : string)
    (urls : list string) (i : nat) (float_df : DataFrame) (st st' : Store)
    (evs : list event) (r : exn + DataFrame) :
  profiles_loop self W round1 max_profiles max_pressure opendap_urls wmo float_msg
    append_df i urls float_df st = (st', evs, r) →
  st ⊆ st'.
Proof.
  revert i float_df st evs.
  induction urls as [|url urls IH]; intros i float_df st evs Hrun; simpl in Hrun.
  - by injection Hrun as <- _ _.
  - destruct (Z.of_nat i >? max_profiles).
    + by injection Hrun as <- _ _.
    + apply bind_any in Hrun
        as [(e & Hstep & _)|(st1 & ev1 & df1 & ev2 & Hstep & Hrest & _)].
      * by eapply profile_step_grows.
      * etrans; [by eapply profile_step_grows|by eapply IH].
Qed.

(** Every profile up to and including position [max_profiles] has its key in
    the store when the loop ends. *)
Lemma profiles_loop_processes (opendap_urls : list string) (wmo float_msg : string)
    (urls : list string) (i : nat) (float_df res : DataFrame) (st st' : Store)
    (evs : list event) :
  profiles_loop self W round1 max_profiles max_pressure opendap_urls wmo float_msg
    append_df i urls float_df st = (st', evs, inr res) →
  ∀ n url, urls !! n = Some url → Z.of_nat (i + n) ≤ max_profiles →
           ∃ key, key_of url = inr key ∧ is_Some (st' !! key).
Proof.
  revert i float_df st evs.
  induction urls as [|u urls IH]; intros i float_df st evs Hrun n url Hn Hle;
    [done|]. simpl in Hrun.
  destruct (Z.gtb_spec (Z.of_nat i) max_profiles) as [Hgt|_]; [lia|].
  apply bind_inr in Hrun as (st1 & ev1 & df1 & ev2 & Hstep & Hrest & _).
  destruct n as [|n].
  - injection Hn as ->.
    apply profile_step_inr in Hstep as (key & df & meta & Hkey & Hst1 & _ & _).
    exists key. split; [done|].
    apply profiles_loop_grows in Hrest.
    exists (df, meta). by eapply lookup_weaken.
  - eapply (IH (S i)); [done|done|]. lia.
Qed.

(** Run again on a store that holds everything the first run left, the loop
    returns the same table, leaves the store alone and fetches nothing. *)
Lemma profiles_loop_rerun (opendap_urls : list string) (wmo float_msg : string)
    (urls : list string) (i : nat) (float_df res : DataFrame) (st st' st2 : Store)
    (evs : list event) :
  profiles_loop self W round1 max_profiles max_pressure opendap_urls wmo float_msg
    append_df i urls float_df st = (st', evs, inr res) →
  st' ⊆ st2 →
  ∃ evs2,
    profiles_loop self W round1 max_profiles max_pressure opendap_urls wmo float_msg
      append_df i urls float_df st2 = (st2, evs2, inr res) ∧
    fetches evs2 = [].
Proof.
  revert i float_df st evs.
  induction urls as [|url urls IH]; intros i float_df st evs Hrun Hsub;
    simpl in Hrun; simpl.
  - injection Hrun as _ _ <-. by exists [].
  - destruct (Z.of_nat i >? max_profiles).
    + injection Hrun as _ _ <-. by eexists.
    + apply bind_inr in Hrun as (st1 & ev1 & df1 & ev2 & Hstep & Hrest & _).
      apply profile_step_inr in Hstep as (key & df & meta & Hkey & Hst1 & -> & _).
      pose proof (profiles_loop_grows _ _ _ _ _ _ _ _ _ _ Hrest) as Hgrow.
      assert (st2 !! key = Some (df, meta)) as Hst2.
      { eapply lookup_weaken; [|done]. by eapply lookup_weaken. }
      destruct (IH _ _ _ _ Hrest Hsub) as (evs2 & Hrest2 & Hnone).
      exists (hit_trace self key ++ evs2). split.
      * erewrite bind_run; [|by eapply profile_step_hit]. by rewrite Hrest2.
      * by rewrite fetches_app, Hnone.
Qed.

End Loops.

Lemma repack_run (self : ArgoData) :
  ∃ evs, (∀ st, _repack_hdf self st = (st, evs, inr tt)) ∧ fetches evs = [].
Proof. eexists. split; [intros st; reflexivity|done]. Qed.

(** The catalog is fetched on every call: exactly one fetch, never a failure. *)
Lemma get_profile_opendap_urls_run (W : World) (catalog_url : string) :
  ∃ evs urls,
    (∀ st, get_profile_opendap_urls W catalog_url st = (st, evs, inr urls)) ∧
    fetches evs = [FetchCatalog catalog_url].
Proof.
  unfold get_profile_opendap_urls.
  destruct (catalog_get W catalog_url) as [paths|];
    eexists _, _; (split; [intros st; reflexivity|done]).
Qed.

Lemma validate_fetches (self : ArgoData) (parm : string) (value : option Z) :
  ∃ evs z, (∀ st, _validate_cache_file_parm self parm value st = (st, evs, inr z)) ∧
           fetches evs = [].
Proof.
  unfold _validate_cache_file_parm.
  destruct (cache_file_parms self) as [parms|]; [destruct (parms !! parm)|];
    destruct (truthy value && _); try destruct (py_gt value _);
    try destruct (negb (truthy value) && _);
    eexists _, _; (split; [intros st; reflexivity|done]).
Qed.

Section Floats.

Context (self : ArgoData) (W : World) (round1 : float → float).
Context (max_profiles max_pressure : Z) (n_wmo : nat) (append_df : bool).

Lemma floats_loop_grows (dac_urls : list (string * string)) (f : nat)
    (float_df : DataFrame) (st st' : Store) (evs : list event) (r : exn + DataFrame) :
  floats_loop self W round1 max_profiles max_pressure n_wmo append_df f dac_urls
    float_df st = (st', evs, r) →
  st ⊆ st'.
Proof.
  revert f float_df st st' evs r.
  induction dac_urls as [|[wmo dac_url] dac_urls IH];
    intros f float_df st st' evs r Hrun; simpl in Hrun.
  - by injection Hrun as <- _ _.
  - destruct (get_profile_opendap_urls_run W dac_url) as (evc & urls & Hcat & _).
    destruct (repack_run self) as (evr & Hrep & _).
    apply bind_any in Hrun as [(e & Hlog & _)|(? & ? & [] & ? & Hlog & Hrun & _)];
      [done|]. injection Hlog as <- _.
    rewrite (bind_run _ _ _ _ _ _ (Hcat st)) in Hrun.
    destruct (bind _ _ st) as [[sx evx] rx] eqn:Hx. simplify_eq.
    apply bind_any in Hx as [(e & Hloop & _)|(s1 & ? & df1 & ? & Hloop & Hx & _)].
    + by eapply profiles_loop_grows.
    + etrans; [by eapply profiles_loop_grows|].
      apply bind_any in Hx as [(e & Hlog & _)|(? & ? & [] & ? & Hlog & Hx & _)];
        [done|]. injection Hlog as <- _.
      rewrite (bind_run _ _ _ _ _ _ (Hrep s1)) in Hx.
      destruct (floats_loop _ _ _ _ _ _ _ _ _ _ s1) as [[sy evy] ry] eqn:Hy.
      simplify_eq. by eapply IH.
Qed.

Lemma floats_loop_rerun (dac_urls : list (string * string)) (f : nat)
    (float_df res : DataFrame) (st st' st2 : Store) (evs : list event) :
  floats_loop self W round1 max_profiles max_pressure n_wmo append_df f dac_urls
    float_df st = (st', evs, inr res) →
  st' ⊆ st2 →
  ∃ evs2,
    floats_loop self W round1 max_profiles max_pressure n_wmo append_df f dac_urls
      float_df st2 = (st2, evs2, inr res) ∧
    fetches evs2 = FetchCatalog <$> dac_urls.*2.
Proof.
  revert f float_df st st' evs.
  induction dac_urls as [|[wmo dac_url] dac_urls IH];
    intros f float_df st st' evs Hrun Hsub; simpl in Hrun; simpl.
  - injection Hrun as _ _ <-. by exists [].
  - destruct (get_profile_opendap_urls_run W dac_url) as (evc & urls & Hcat & Hfc).
    destruct (repack_run self) as (evr & Hrep & Hfr).
    apply bind_inr in Hrun as (? & ? & [] & ? & Hlog & Hrun & _).
    injection Hlog as <- _.
    rewrite (bind_run _ _ _ _ _ _ (Hcat st)) in Hrun.
    destruct (bind _ _ st) as [[sx evx] rx] eqn:Hx. simplify_eq.
    apply bind_inr in Hx as (s1 & ? & df1 & ? & Hloop & Hx & _).
    apply bind_inr in Hx as (? & ? & [] & ? & Hlog & Hx & _).
    injection Hlog as <- _.
    rewrite (bind_run _ _ _ _ _ _ (Hrep s1)) in Hx.
    destruct (floats_loop _ _ _ _ _ _ _ _ _ _ s1) as [[sy evy] ry] eqn:Hy.
    simplify_eq.
    pose proof (floats_loop_grows _ _ _ _ _ _ _ Hy) as Hgrow.
    edestruct profiles_loop_rerun as (evp & Hloop2 & Hfp);
      [exact Hloop|by etrans|].
    destruct (IH _ _ _ _ _ Hy Hsub) as (evf & Hrest2 & Hff).
    eexists. split.
    + unfold bind at 1. unfold logger at 1, emit.
      rewrite (bind_run _ _ _ _ _ _ (Hcat st2)).
      rewrite (bind_run _ _ _ _ _ _ Hloop2).
      unfold bind at 1. unfold logger at 1, emit.
      rewrite (bind_run _ _ _ _ _ _ (Hrep st2)).
      rewrite Hrest2. reflexivity.
    + simpl app. repeat rewrite ?fetches_log, ?fetches_app.
      by rewrite Hfc, Hfp, Hfr, Hff.
Qed.

End Floats.

(** ** The index of floats *)

Lemma cached_global_meta_hit (self : ArgoData) (W : World) (st : Store) (df : DataFrame)
    (meta : option (list string)) :
  st !! _GLOBAL_META = Some (df, meta) →
  ∃ evs, cached_global_meta self W st = (st, evs, inr df) ∧ fetches evs = [].
Proof.
  intros Hst. eexists. split.
  - unfold cached_global_meta. apply try_except_ok. by eapply get_df_hit.
  - done.
Qed.

Lemma cached_global_meta_miss (self : ArgoData) (W : World) (st : Store) :
  st !! _GLOBAL_META = None →
  ∃ evs,
    cached_global_meta self W st =
    match global_meta_get W (global_url self) with
    | inl e => (st, evs, inl e)
    | inr meta => (<[_GLOBAL_META := (meta, None)]> st, evs, inr meta)
    end.
Proof.
  intros Hst. unfold cached_global_meta.
  erewrite try_except_caught; [|by apply get_df_miss|done].
  unfold _global_meta_to_df, _put_df, _get_df. mrun.
  destruct (global_meta_get W (global_url self)) as [e|meta].
  - eexists. reflexivity.
  - simpl. rewrite lookup_insert_eq. eexists. reflexivity.
Qed.

Lemma cached_global_meta_post (self : ArgoData) (W : World) (st st' : Store)
    (evs : list event) (r : exn + DataFrame) :
  cached_global_meta self W st = (st', evs, r) →
  st ⊆ st' ∧ ∀ df, r = inr df → ∃ meta, st' !! _GLOBAL_META = Some (df, meta).
Proof.
  intros Hrun.
  destruct (st !! _GLOBAL_META) as [[df meta]|] eqn:Hst.
  - destruct (cached_global_meta_hit self W st df meta Hst) as (evs0 & Hhit & _).
    rewrite Hhit in Hrun. simplify_eq. split; [done|].
    intros ? [= <-]. eauto.
  - destruct (cached_global_meta_miss self W st Hst) as (evs0 & Hmiss).
    rewrite Hmiss in Hrun.
    destruct (global_meta_get W (global_url self)) as [e|meta]; simplify_eq.
    + split; [done|]. by intros.
    + split; [by apply insert_subseteq|].
      intros ? [= <-]. eexists. apply lookup_insert_eq.
Qed.

Lemma foldM_pure {A B} (f : B → A → M B) (l : list A) (b : B) :
  (∀ b a, ∃ r, ∀ st, f b a st = (st, [], r)) →
  ∃ r, ∀ st, foldM f b l st = (st, [], r).
Proof.
  intros Hf. revert b. induction l as [|a l IH]; intros b; simpl.
  - by exists (inr b).
  - destruct (Hf b a) as ([e|b'] & Hfa).
    + exists (inl e). intros st. unfold bind. by rewrite Hfa.
    + destruct (IH b') as (r & Hr). exists r. intros st.
      unfold bind. by rewrite Hfa, Hr.
Qed.

Lemma dac_urls_of_run (self : ArgoData) (df : DataFrame) (desired : list string) :
  ∃ evs r, (∀ st, dac_urls_of self df desired st = (st, evs, r)) ∧ fetches evs = [].
Proof.
  unfold dac_urls_of.
  destruct (df_getitem df "file") as [e|files].
  { exists [], (inl e). done. }
  edestruct (foldM_pure
               (λ dac_urls file,
                  match file with
                  | Num _ => raise AttributeError
                  | Str f =>
                      match PyStr.split "/" f !! 1%nat with
                      | None => raise IndexError
                      | Some floatNum =>
                          if bool_decide (floatNum ∈ desired) then
                            ret (dict_set floatNum
                                   (thredds_url self +:+
                                    PyStr.join "/" (take 2 (PyStr.split "/" f)) +:+
                                    "/profiles/catalog.xml")
                                   dac_urls)
                          else ret dac_urls
                      end
                  end) files []) as (r & Hr).
  { intros b [x|f]; [by eexists|].
    destruct (PyStr.split "/" f !! 1%nat); [|by eexists].
    case_bool_decide; by eexists. }
  destruct r as [e|dacs].
  - exists [], (inl e). split; [|done]. intros st.
    unfold bind at 1, lift. unfold bind at 1. by rewrite Hr.
  - eexists _, (inr dacs). split; [|shelve]. intros st.
    unfold bind at 1, lift. unfold bind at 1. rewrite Hr. reflexivity.
    Unshelve. done.
Qed.

Lemma get_dac_urls_grows (self : ArgoData) (W : World) (desired : list string)
    (st st' : Store) (evs : list event) (r : exn + list (string * string)) :
  get_dac_urls self W desired st = (st', evs, r) → st ⊆ st'.
Proof.
  unfold get_dac_urls. intros Hrun.
  apply bind_any in Hrun as [(e & Hload & _)|(s1 & ? & df & ? & Hload & Hrest & _)].
  - by apply cached_global_meta_post in Hload as [? _].
  - apply cached_global_meta_post in Hload as [Hsub _].
    destruct (dac_urls_of_run self df desired) as (? & ? & Hd & _).
    rewrite Hd in Hrest. by simplify_eq.
Qed.

Lemma get_dac_urls_rerun (self : ArgoData) (W : World) (desired : list string)
    (st st' st2 : Store) (evs : list event) (dac_urls : list (string * string)) :
  get_dac_urls self W desired st = (st', evs, inr dac_urls) →
  st' ⊆ st2 →
  ∃ evs2, get_dac_urls self W desired st2 = (st2, evs2, inr dac_urls) ∧
          fetches evs2 = [].
Proof.
  unfold get_dac_urls. intros Hrun Hsub.
  apply bind_inr in Hrun as (s1 & ? & df & ? & Hload & Hrest & _).
  apply cached_global_meta_post in Hload as [_ Hload].
  destruct (Hload df eq_refl) as (meta & Hs1).
  destruct (dac_urls_of_run self df desired) as (evd & rd & Hd & Hfd).
  rewrite Hd in Hrest. simplify_eq.
  destruct (cached_global_meta_hit self W st2 df meta) as (evh & Hhit & Hfh).
  { by eapply lookup_weaken. }
  eexists. split.
  - rewrite (bind_run _ _ _ _ _ _ Hhit). rewrite Hd. reflexivity.
  - by rewrite fetches_app, Hfh, Hfd.
Qed.

(** ** The cache across profiles and calls *)

(** C1: a profile whose key is in the store is not fetched and not
    transformed: the stored table, empty or not, is handed on as it is, and
    the store stays as it was. A profile that lacks a required variable has
    the empty table stored under its key, and from then on every call for
    that key returns the empty table from the store without a fetch. *)
Theorem cached_profile_is_final (self : ArgoData) (W : World) (round1 : float → float)
    (url key wmo float_msg : string) (i : nat) (opendap_urls : list string)
    (max_pressure : Z) (append_df : bool) (float_df : DataFrame) (st : Store) :
  key_of url = inr key →
  (∀ df meta, st !! key = Some (df, meta) →
     profile_step self W round1 url i opendap_urls wmo max_pressure float_msg
       append_df float_df st =
     (st, hit_trace self key, inr (appended append_df float_df df)) ∧
     fetches (hit_trace self key) = []) ∧
  (st !! key = None →
   ∀ ds, open_dataset W url = inr ds →
         Exists (λ v, ds !! v = None) (variables self) →
     ∃ evs st',
       profile_step self W round1 url i opendap_urls wmo max_pressure float_msg
         append_df float_df st =
       (st', evs, inr (appended append_df float_df DataFrame0)) ∧
       st' = <[key := (DataFrame0, Some (url_metadata url))]> st ∧
       ∀ i' urls' wmo' max' msg' append' float_df',
         profile_step self W round1 url i' urls' wmo' max' msg' append' float_df' st' =
         (st', hit_trace self key, inr (appended append' float_df' DataFrame0))).
Proof.
  intros Hkey. split.
  - intros df meta Hst. split; [by eapply profile_step_hit|done].
  - intros Hst ds Hopen Hmissing.
    destruct (profile_step_miss self W round1 opendap_urls wmo max_pressure float_msg
                append_df url key i float_df st Hkey Hst)
      as (evs & r & Hfv & evs' & Hstep).
    assert (r = inl RequiredVariableNotPresent) as ->.
    { specialize (Hfv st). unfold fetch_and_validate, _profile_to_dataframe in Hfv.
      revert Hfv. mrun. rewrite Hopen. simpl.
      rewrite (require_variables_missing _ _ _ Hmissing). by intros [= _ <-]. }
    eexists _, _. split; [exact Hstep|]. split; [done|].
    intros. eapply profile_step_hit; [done|]. apply lookup_insert_eq.
Qed.

Lemma cached_profile_is_final_witness :
  ∃ evs st',
    profile_step (example_self true) example_world (λ x, x) (example_url "003") 2
      [example_url "001"; example_url "002"; example_url "003"] "1900650" 10
      "WMO 1900650: Float 1 of 1" true DataFrame0 ∅ =
    (st', evs, inr (appended true DataFrame0 DataFrame0)) ∧
    st' !! "P1900650_003" = Some (DataFrame0, Some (url_metadata (example_url "003"))).
Proof.
  destruct (cached_profile_is_final (example_self true) example_world (λ x, x)
              (example_url "003") "P1900650_003" "1900650"
              "WMO 1900650: Float 1 of 1" 2
              [example_url "001"; example_url "002"; example_url "003"] 10 true
              DataFrame0 ∅) as [_ Hmiss].
  - vm_compute. reflexivity.
  - destruct (Hmiss eq_refl (delete "DOXY_ADJUSTED" (example_profile [4%float] [nan])))
      as (evs & st' & Hstep & Hst' & _).
    + reflexivity.
    + apply Exists_cons_hd. reflexivity.
    + exists evs, st'. split; [exact Hstep|].
      rewrite Hst'. apply lookup_insert_eq.
Defined.

(** C3: with [max_profiles = 1] the code processes the profiles at
    positions 0 and 1: the loop stops only at a position greater than
    [max_profiles], so the profile at position [max_profiles] is fetched
    and stored. *)
Theorem profile_at_max_profiles_is_processed :
  let call := get_float_dataframe (example_self true) example_world (λ x, x)
                ["1900650"] (Some 1) None true ∅ in
  fetches call.1.2 =
    [FetchGlobalMeta (global_url (example_self true)); FetchCatalog example_catalog;
     FetchProfile (example_url "001"); FetchProfile (example_url "002")] ∧
  is_Some (call.1.1 !! "P1900650_002") ∧
  call.1.1 !! "P1900650_003" = None.
Proof. vm_compute. repeat split. by eexists. Qed.

(** C4, as stated, fails on the code: the second call returns the same
    table, but it fetches the catalog of every float again. *)
Lemma second_call_fetches_the_catalog :
  let call := get_float_dataframe (example_self true) example_world (λ x, x)
                ["1900650"] None None true in
  (∃ df, (call ∅).2 = inr df ∧ (call (call ∅).1.1).2 = inr df) ∧
  fetches (call (call ∅).1.1).1.2 = [FetchCatalog example_catalog].
Proof. vm_compute. split; [|done]. eexists. by split. Qed.

(** C4 (amended): when a call of [get_float_dataframe] returns a table, a
    second call with the same arguments on the store it left (and with the
    servers answering as before) returns the same table and leaves the store
    as it is; it fetches no profile and no index table, and it fetches the
    catalog of every resolved float once more, since catalogs are not
    cached. *)
Theorem second_call_repeats (self : ArgoData) (W : World) (round1 : float → float)
    (wmo_list : list string) (max_profiles max_pressure : option Z) (append_df : bool)
    (st st1 : Store) (ev1 : list event) (df : DataFrame) :
  get_float_dataframe self W round1 wmo_list max_profiles max_pressure append_df st =
    (st1, ev1, inr df) →
  ∃ ev2 evd dac_urls,
    get_float_dataframe self W round1 wmo_list max_profiles max_pressure append_df st1 =
      (st1, ev2, inr df) ∧
    get_dac_urls self W wmo_list st1 = (st1, evd, inr dac_urls) ∧
    fetches ev2 = FetchCatalog <$> dac_urls.*2.
Proof.
  unfold get_float_dataframe. intros Hrun.
  destruct (validate_fetches self "profiles" max_profiles) as (eva & mp & Hva & Hfa).
  destruct (validate_fetches self "pressure" max_pressure) as (evb & mq & Hvb & Hfb).
  rewrite (bind_run _ _ _ _ _ _ (Hva st)) in Hrun.
  rewrite (bind_run _ _ _ _ _ _ (Hvb st)) in Hrun.
  destruct (bind (get_dac_urls _ _ _) _ st) as [[sx evx] rx] eqn:Hx.
  simplify_eq.
  apply bind_inr in Hx as (s0 & ? & dac_urls & ? & Hdac & Hloop & _).
  pose proof (floats_loop_grows _ _ _ _ _ _ _ _ _ _ _ _ _ _ Hloop) as Hgrow.
  destruct (get_dac_urls_rerun _ _ _ _ _ st1 _ _ Hdac Hgrow) as (evd & Hdac2 & Hfd).
  edestruct floats_loop_rerun as (evf & Hloop2 & Hff); [exact Hloop|reflexivity|].
  exists (eva ++ evb ++ evd ++ evf), evd, dac_urls. split; [|split; [done|]].
  - rewrite (bind_run _ _ _ _ _ _ (Hva st1)).
    rewrite (bind_run _ _ _ _ _ _ (Hvb st1)).
    rewrite (bind_run _ _ _ _ _ _ Hdac2). by rewrite Hloop2.
  - by rewrite !fetches_app, Hfa, Hfb, Hfd, Hff.
Qed.

Lemma second_call_repeats_witness :
  ∃ (st1 : Store) (ev2 : list event) (df : DataFrame) (dac_urls : list (string * string)),
    get_float_dataframe (example_self true) example_world (λ x, x) ["1900650"]
      None None true st1 = (st1, ev2, inr df) ∧
    fetches ev2 = FetchCatalog <$> dac_urls.*2.
Proof.
  edestruct (second_call_repeats (example_self true) example_world (λ x, x)
               ["1900650"] None None true ∅) as (ev2 & evd & dacs & H2 & _ & Hf).
  - vm_compute. reflexivity.
  - eexists _, ev2, _, dacs. split; [exact H2|exact Hf].
Defined.

(** * Further properties *)

(** ** More on validation *)

Lemma init_named_parms (f : string) (o : bool) (g t : string) (vs : list string) :
  f ≠ EmptyString →
  cache_file_parms (ArgoData_init (Some f) o g t vs) = Some (_get_cache_file_parms f).
Proof. by destruct f. Qed.

Lemma short_cache_file_nonempty (args : gmap string (option Z)) :
  short_cache_file args ≠ EmptyString.
Proof.
  destruct (short_cache_file_shape args) as (rest & Heq & _).
  rewrite Heq. discriminate.
Qed.

(** X1: Validation never fails, never touches the store, asks no server,
    and never yields the limit 0. *)
Theorem validated_limit_is_never_zero (self : ArgoData) (parm : string)
    (value : option Z) (st : Store) :
  ∃ evs z, _validate_cache_file_parm self parm value st = (st, evs, inr z) ∧
           z ≠ 0 ∧ fetches evs = [].
Proof.
  unfold _validate_cache_file_parm.
  destruct (cache_file_parms self) as [parms|]; [destruct (parms !! parm) as [c|]|];
    destruct value as [v|]; simpl;
    repeat match goal with
           | |- context [?a =? 0] => destruct (Z.eqb_spec a 0); simpl
           | |- context [?a >? ?b] => destruct (a >? b); simpl
           end;
    mrun;
    repeat match goal with
           | |- context [?a =? 0] => destruct (Z.eqb_spec a 0); simpl
           end;
    eexists _, _; (split; [reflexivity|]); split; done.
Qed.

(** X2: A cache file whose name lacks the fixed base declares nothing, and
    then every requested limit is dropped: validation answers 10000000000
    whatever was asked, so [get_float_dataframe] runs as if no limit had
    been given. *)
Theorem named_cache_file_ignores_limits (f : string) (o : bool) (g t : string)
    (vs : list string) (W : World) (round1 : float → float) (wmo_list : list string)
    (max_profiles max_pressure : option Z) (append_df : bool) (st : Store) :
  f ≠ EmptyString → PyStr.contains _fixed_cache_base f = false →
  let self := ArgoData_init (Some f) o g t vs in
  (∀ parm value st0,
     _validate_cache_file_parm self parm value st0 = (st0, [], inr unlimited)) ∧
  get_float_dataframe self W round1 wmo_list max_profiles max_pressure append_df st =
    get_float_dataframe self W round1 wmo_list None None append_df st.
Proof.
  intros Hf Hc self.
  assert (Hv : ∀ parm value st0,
             _validate_cache_file_parm self parm value st0 = (st0, [], inr unlimited)).
  { intros parm value st0. rewrite validate_undeclared.
    - subst self. by rewrite init_named_parms.
    - subst self. unfold declared. rewrite init_named_parms by done.
      by rewrite parms_of_other_name. }
  split; [exact Hv|].
  unfold get_float_dataframe.
  rewrite (bind_run _ _ _ _ _ _ (Hv "profiles" max_profiles st)).
  rewrite (bind_run _ _ _ _ _ _ (Hv "profiles" None st)).
  rewrite (bind_run _ _ _ _ _ _ (Hv "pressure" max_pressure st)).
  rewrite (bind_run _ _ _ _ _ _ (Hv "pressure" None st)). done.
Qed.

Lemma named_cache_file_ignores_limits_witness :
  _validate_cache_file_parm
    (ArgoData_init (Some "/tmp/oxyfloat_cache_file.hdf") true "g" "t" [])
    "profiles" (Some 2) ∅ = (∅, [], inr 10000000000).
Proof.
  destruct (named_cache_file_ignores_limits "/tmp/oxyfloat_cache_file.hdf" true "g" "t"
              [] no_world (λ x, x) [] None None true ∅) as [H _];
    [done | by vm_compute |].
  apply H.
Defined.

(** X3: When the cache file declares a positive value [c] for a parameter,
    the validated limit is [c] for an unset or zero request and the smaller
    of the request and [c] otherwise: a request is never widened. *)
Theorem declared_limit_caps_the_request (self : ArgoData) (parm : string)
    (value : option Z) (c : Z) (st : Store) :
  declared self parm = Some c → 0 < c →
  ∃ evs,
    _validate_cache_file_parm self parm value st =
      (st, evs,
       inr (match value with
            | Some v => if v =? 0 then c else Z.min v c
            | None => c
            end)) ∧
    fetches evs = [].
Proof.
  intros Hd Hc. destruct value as [v|].
  - destruct (Z.eqb_spec v 0) as [->|Hv].
    + rewrite (validate_adopts _ _ _ c) by (done || lia). by eexists.
    + destruct (Z_gt_le_dec v c) as [Hgt|Hle].
      * rewrite (validate_clamps _ _ _ c) by done.
        rewrite Z.min_r by lia. by eexists.
      * rewrite (validate_keeps _ _ _ c) by (done || lia).
        rewrite Z.min_l by lia. by eexists.
  - rewrite (validate_adopts _ _ _ c) by (done || lia). by eexists.
Qed.

Lemma declared_limit_caps_the_request_witness :
  ∃ evs,
    _validate_cache_file_parm
      (ArgoData_init (Some "oxyfloat_fixed_cache_age3000_profiles2.hdf") true "g" "t" [])
      "profiles" (Some 7) ∅ = (∅, evs, inr 2) ∧ fetches evs = [].
Proof.
  apply (declared_limit_caps_the_request
           (ArgoData_init (Some "oxyfloat_fixed_cache_age3000_profiles2.hdf") true
              "g" "t" [])
           "profiles" (Some 7) 2 ∅); [by vm_compute | lia].
Defined.

(** X4: A cache file named by [short_cache_file] takes its own constraints
    back as they are: validating the constraint the name was built from
    gives that value (10000000000 when it is unset or 0), with no warning. *)
Theorem own_cache_file_keeps_own_limits (args : gmap string (option Z)) (o : bool)
    (g t : string) (vs : list string) (parm : string) (st : Store) :
  (∀ k v, args !! k = Some (Some v) → 0 ≤ v) →
  parm ∈ constraint_names →
  _validate_cache_file_parm (ArgoData_init (Some (short_cache_file args)) o g t vs)
    parm (constraint args parm) st =
  (st, [],
   inr (match constraint args parm with
        | Some v => if v =? 0 then unlimited else v
        | None => unlimited
        end)).
Proof.
  intros Hargs Hparm.
  set (self := ArgoData_init (Some (short_cache_file args)) o g t vs).
  assert (Hparms : cache_file_parms self =
                   Some (_get_cache_file_parms (short_cache_file args))).
  { subst self. apply init_named_parms. apply short_cache_file_nonempty. }
  assert (Hd : declared self parm = constraint args parm).
  { unfold declared. rewrite Hparms.
    destruct (short_cache_file_shape args) as (rest & Heq & _).
    destruct (first_token_short_cache_file args Hargs) as (Ha & Hp & Hq).
    destruct (parms_of_fixed_name (short_cache_file args)) as (Ha' & Hp' & Hq' & _).
    { apply contains_prefix. rewrite Heq. apply prefix_append. }
    unfold constraint_names in Hparm.
    repeat (apply elem_of_cons in Hparm as [->|Hparm]); try congruence.
    by apply elem_of_nil in Hparm. }
  assert (Hnn : ∀ v, constraint args parm = Some v → 0 ≤ v).
  { intros v Hv. unfold constraint in Hv.
    destruct (args !! parm) as [[w|]|] eqn:E; simplify_eq. eauto. }
  destruct (constraint args parm) as [v|] eqn:Ev.
  - destruct (Z.eqb_spec v 0) as [->|Hv].
    + by rewrite validate_declared_zero.
    + rewrite (validate_keeps _ _ _ v); [done..|lia].
  - rewrite validate_undeclared by done. by rewrite Hparms.
Qed.

Lemma own_cache_file_keeps_own_limits_witness :
  let args : gmap string (option Z) := {["age" := Some 3000; "profiles" := Some 2]} in
  constraint args "profiles" = Some 2 ∧
  _validate_cache_file_parm
    (ArgoData_init (Some (short_cache_file args)) true "g" "t" [])
    "profiles" (constraint args "profiles") ∅ = (∅, [], inr 2).
Proof.
  intros args. split; [by vm_compute|].
  rewrite (own_cache_file_keeps_own_limits args true "g" "t" [] "profiles" ∅).
  - by vm_compute.
  - intros k v Hk. subst args.
    apply lookup_insert_Some in Hk as [[_ Hk]|[_ Hk]]; [simplify_eq; lia|].
    apply lookup_singleton_Some in Hk as [_ Hk]. simplify_eq; lia.
  - unfold constraint_names. set_solver.
Defined.

(** ** Names of fixed cache files *)

Lemma short_cache_file_constraints (a b : gmap string (option Z)) :
  (∀ k, k ∈ constraint_names → constraint a k = constraint b k) →
  short_cache_file a = short_cache_file b.
Proof.
  intros Hab. unfold short_cache_file. f_equal.
  pose proof (Hab "age") as Ha. pose proof (Hab "pressure") as Hp.
  pose proof (Hab "profiles") as Hq.
  unfold constraint, constraint_names in Ha, Hp, Hq.
  specialize (Ha ltac:(set_solver)). specialize (Hp ltac:(set_solver)).
  specialize (Hq ltac:(set_solver)).
  simpl.
  change (PyStr.slice_1_m2 "_ageRE") with "age".
  change (PyStr.slice_1_m2 "_pressureRE") with "pressure".
  change (PyStr.slice_1_m2 "_profilesRE") with "profiles".
  destruct (a !! "age") as [[?|]|], (b !! "age") as [[?|]|]; simplify_eq;
    destruct (a !! "pressure") as [[?|]|], (b !! "pressure") as [[?|]|]; simplify_eq;
    destruct (a !! "profiles") as [[?|]|], (b !! "profiles") as [[?|]|]; simplify_eq;
    done.
Qed.

(** X5: The name [short_cache_file] builds tells the constraints apart:
    two sets of options with non-negative values get the same file name
    exactly when they set the same values for age, pressure and profiles.
    Other options do not enter the name. *)
Theorem short_cache_file_injective (a b : gmap string (option Z)) :
  (∀ k v, a !! k = Some (Some v) → 0 ≤ v) →
  (∀ k v, b !! k = Some (Some v) → 0 ≤ v) →
  short_cache_file a = short_cache_file b ↔
  ∀ k, k ∈ constraint_names → constraint a k = constraint b k.
Proof.
  intros Ha Hb. split; [|apply short_cache_file_constraints].
  intros Heq k Hk.
  destruct (first_token_short_cache_file a Ha) as (Ha1 & Ha2 & Ha3).
  destruct (first_token_short_cache_file b Hb) as (Hb1 & Hb2 & Hb3).
  rewrite Heq in Ha1, Ha2, Ha3.
  unfold constraint_names in Hk.
  repeat (apply elem_of_cons in Hk as [->|Hk]); try congruence.
  by apply elem_of_nil in Hk.
Qed.

Lemma short_cache_file_injective_witness :
  short_cache_file {["age" := Some 340; "verbose" := Some 2]} =
  short_cache_file {["age" := Some 340; "pressure" := None]}.
Proof.
  apply (short_cache_file_injective {["age" := Some 340; "verbose" := Some 2]}
           {["age" := Some 340; "pressure" := None]}).
  - intros k v Hk.
    apply lookup_insert_Some in Hk as [[_ Hk]|[_ Hk]]; [simplify_eq; lia|].
    apply lookup_singleton_Some in Hk as [_ Hk]. simplify_eq; lia.
  - intros k v Hk.
    apply lookup_insert_Some in Hk as [[_ Hk]|[_ Hk]]; [simplify_eq; lia|].
    apply lookup_singleton_Some in Hk as [_ Hk]. simplify_eq.
  - intros k Hk. unfold constraint_names in Hk.
    repeat (apply elem_of_cons in Hk as [->|Hk]); try by vm_compute.
    by apply elem_of_nil in Hk.
Defined.

(** ** Tokens in the path of the cache file *)

Lemma contains_append_r (sub p s : string) :
  PyStr.contains sub s = true → PyStr.contains sub (p +:+ s) = true.
Proof.
  intros Hs. induction p as [|a p IH]; [done|].
  change (String a p +:+ s) with (String a (p +:+ s)).
  cbn [PyStr.contains]. rewrite IH. apply orb_true_r.
Qed.

Lemma strip_app (N : string) (s t rest : list ascii) :
  strip N s = Some rest → strip N (s ++ t) = Some (rest ++ t).
Proof.
  revert s. induction N as [|a N IH]; intros s; simpl.
  - by intros [= ->].
  - destruct s as [|c s]; [done|]. simpl. destruct (Ascii.eqb c a); [apply IH|done].
Qed.

Lemma strip_app_None (N : string) (s t : list ascii) (x : ascii) :
  x ∉ PyStr.chars N → strip N s = None → strip N (s ++ x :: t) = None.
Proof.
  revert s. induction N as [|a N IH]; intros s Hx; simpl; [done|].
  apply not_elem_of_cons in Hx as [Hne Hx].
  destruct s as [|c s]; simpl.
  - intros _. destruct (Ascii.eqb_spec x a); [done|done].
  - destruct (Ascii.eqb c a); [by apply IH|done].
Qed.

Lemma digit_run (s : list ascii) :
  ∃ D rest, s = D ++ rest ∧ all_digits D ∧ digits_end rest.
Proof.
  induction s as [|a s (D & rest & -> & HD & Hrest)].
  - exists [], []. split; [done|]. split; [constructor|]. by intros ? ? [=].
  - destruct (PyStr.is_digit a) eqn:Ha.
    + exists (a :: D), rest. split; [done|]. split; [by constructor|done].
    + exists [], (a :: D ++ rest). split; [done|]. split; [constructor|].
      by intros ? ? [= <- _].
Qed.

Lemma match_digits_app (s t : list ascii) (x : ascii) :
  PyStr.is_digit x = false →
  Re.match_at (Re.lit EmptyString (Re.Group (Re.Plus Re.Digit))) (s ++ x :: t) =
  Re.match_at (Re.lit EmptyString (Re.Group (Re.Plus Re.Digit))) s.
Proof.
  intros Hx. destruct (digit_run s) as (D & rest & -> & HD & Hrest).
  assert (Hend : digits_end (rest ++ x :: t)).
  { intros a s' Heq. destruct rest as [|b rest]; simpl in Heq.
    - by injection Heq as <- _.
    - injection Heq as <- _. by eapply Hrest. }
  destruct D as [|d D].
  - simpl. unfold Re.match_at. simpl.
    rewrite !plus_stuck; [done|exact Hrest|exact Hend].
  - rewrite <- app_assoc.
    rewrite !match_at_digits_group; done.
Qed.

Lemma search_token_app (a : ascii) (N : string) (s t : list ascii) (x : ascii)
    (gs : list (list ascii)) :
  PyStr.is_digit x = false → x ∉ PyStr.chars (String a N) →
  Re.search_from (Re.lit (String a N) (Re.Group (Re.Plus Re.Digit))) s = Some gs →
  Re.search_from (Re.lit (String a N) (Re.Group (Re.Plus Re.Digit))) (s ++ x :: t) =
    Some gs.
Proof.
  intros Hx HN. induction s as [|c s IH].
  - rewrite search_from_unfold, match_at_lit_nil. done.
  - change ((c :: s) ++ x :: t) with (c :: (s ++ x :: t)).
    rewrite !search_from_cons_strip.
    destruct (strip (String a N) (c :: s)) as [rest|] eqn:Hs.
    + rewrite (strip_app _ _ (x :: t) _ Hs : strip _ (c :: (s ++ x :: t)) = _).
      rewrite match_digits_app by done.
      destruct (Re.match_at _ rest); [done|apply IH].
    + rewrite (strip_app_None _ _ t x HN Hs : strip _ (c :: (s ++ x :: t)) = _).
      apply IH.
Qed.

Lemma first_token_of_directory (a : ascii) (N : string) (dir f : string) (n : Z) :
  "/"%char ∉ PyStr.chars (String a N) →
  first_token (Re.lit (String a N) (Re.Group (Re.Plus Re.Digit))) dir = Some n →
  first_token (Re.lit (String a N) (Re.Group (Re.Plus Re.Digit))) (dir +:+ "/" +:+ f) =
    Some n.
Proof.
  intros HN. unfold first_token, Re.search.
  destruct (Re.search_from _ (PyStr.chars dir)) as [gs|] eqn:Hs; [|done].
  rewrite chars_append.
  change (PyStr.chars ("/" +:+ f)) with ("/"%char :: PyStr.chars f).
  by rewrite (search_token_app _ _ _ (PyStr.chars f) "/"%char _ eq_refl HN Hs).
Qed.

(** X6: The constraint patterns are searched in the whole path that was
    given as the cache file, not in its last component: when the directory
    part holds a match for a constraint, that first match is what the
    cache file declares, whatever the file name says. *)
Theorem directory_token_is_decoded (dir f : string) (n : Z) :
  PyStr.contains _fixed_cache_base f = true →
  (first_token _ageRE dir = Some n →
   _get_cache_file_parms (dir +:+ "/" +:+ f) !! "age" = Some n) ∧
  (first_token _pressureRE dir = Some n →
   _get_cache_file_parms (dir +:+ "/" +:+ f) !! "pressure" = Some n) ∧
  (first_token _profilesRE dir = Some n →
   _get_cache_file_parms (dir +:+ "/" +:+ f) !! "profiles" = Some n).
Proof.
  intros Hf.
  destruct (parms_of_fixed_name (dir +:+ "/" +:+ f)) as (Ha & Hp & Hq & _).
  { by do 2 apply contains_append_r. }
  rewrite Ha, Hp, Hq.
  assert (Hno : ∀ N, N ∈ ["age"; "pressure"; "profiles"] → "/"%char ∉ PyStr.chars N).
  { intros N HN. repeat (apply elem_of_cons in HN as [->|HN]);
      try (by apply elem_of_nil in HN);
      vm_compute; intros H;
      repeat (apply elem_of_cons in H as [H|H]; [discriminate H|]);
      by apply elem_of_nil in H. }
  repeat split; apply first_token_of_directory; apply Hno; set_solver.
Qed.

Lemma directory_token_is_decoded_witness :
  _get_cache_file_parms ("/mnt/storage1/oxyfloat" +:+ "/" +:+
                         "oxyfloat_fixed_cache_age3000.hdf") !! "age" = Some 1.
Proof.
  apply (directory_token_is_decoded "/mnt/storage1/oxyfloat"
           "oxyfloat_fixed_cache_age3000.hdf" 1); by vm_compute.
Defined.

(** ** Keys of locations *)

Lemma search_from_sound (r : Re.regex) (s : list ascii) (gs : list (list ascii)) :
  Re.search_from r s = Some gs →
  ∃ pre s', s = pre ++ s' ∧ Re.match_at r s' = Some gs.
Proof.
  induction s as [|a s IH]; rewrite search_from_unfold;
    destruct (Re.match_at r _) eqn:E; intros H; simplify_eq.
  - by exists [], [].
  - by exists [], (a :: s).
  - destruct (IH H) as (pre & s' & -> & Hm). by exists (a :: pre), s'.
Qed.

Lemma key_of_cases (url : string) :
  key_of url = inl AttributeError ∨
  ∃ pre s d1 d2,
    PyStr.chars url = pre ++ s ∧ fp_shape s d1 d2 ∧
    key_of url = inr ("P" +:+ PyStr.str (d1 ++ "_"%char :: d2)).
Proof.
  unfold key_of, Re.search.
  destruct (Re.search_from float_profile_RE (PyStr.chars url)) as [gs|] eqn:E;
    [right|by left].
  apply search_from_sound in E as (pre & s & Hs & Hm).
  apply float_profile_match_sound in Hm as (d1 & d2 & -> & Hshape).
  by exists pre, s, d1, d2.
Qed.

Lemma key_of_needs_underscore (url : string) :
  "_"%char ∉ PyStr.chars url → key_of url = inl AttributeError.
Proof.
  intros Hno. destruct (key_of_cases url) as [H|(pre & s & d1 & d2 & Hs & Hshape & _)];
    [done|].
  destruct Hshape as (c & tl & -> & _). exfalso. apply Hno. rewrite Hs.
  set_solver.
Qed.

(** X7: [_float_profile] has two outcomes only: it raises [AttributeError],
    or it returns [P] followed by a text [<digits>_<digits>] that stands in
    the location right before the ending [.nc] (any character for the dot,
    a final newline allowed). Store and log are left alone. *)
Theorem float_profile_outcomes (url : string) (st : Store) :
  _float_profile url st = (st, [], inl AttributeError) ∨
  ∃ pre s d1 d2,
    PyStr.chars url = pre ++ s ∧ fp_shape s d1 d2 ∧
    _float_profile url st = (st, [], inr ("P" +:+ PyStr.str (d1 ++ "_"%char :: d2))).
Proof.
  rewrite float_profile_run.
  destruct (key_of_cases url) as [->|(pre & s & d1 & d2 & Hs & Hshape & ->)];
    [by left|right].
  by exists pre, s, d1, d2.
Qed.

(** X8: A location without an underscore has no key: [_float_profile]
    raises [AttributeError], and the loop over the locations of a float,
    on reaching it within the limit, ends the call with that exception
    (nothing is skipped), having fetched and stored nothing for it. *)
Theorem location_without_underscore_aborts (self : ArgoData) (W : World)
    (round1 : float → float) (max_profiles max_pressure : Z)
    (opendap_urls : list string) (wmo float_msg : string) (append_df : bool)
    (i : nat) (url : string) (urls : list string) (float_df : DataFrame) (st : Store) :
  "_"%char ∉ PyStr.chars url → Z.of_nat i ≤ max_profiles →
  _float_profile url st = (st, [], inl AttributeError) ∧
  profiles_loop self W round1 max_profiles max_pressure opendap_urls wmo float_msg
    append_df i (url :: urls) float_df st = (st, [], inl AttributeError).
Proof.
  intros Hno Hi.
  assert (Hfp : _float_profile url st = (st, [], inl AttributeError)).
  { rewrite float_profile_run. by rewrite key_of_needs_underscore. }
  split; [done|]. simpl.
  destruct (Z.gtb_spec (Z.of_nat i) max_profiles) as [Hgt|_]; [lia|].
  apply bind_fail. unfold profile_step. by apply bind_fail.
Qed.

Lemma location_without_underscore_aborts_witness :
  profiles_loop (example_self true) example_world (λ x, x) 5 10
    ["http://tds0.ifremer.fr/thredds/dodsC/coriolis/1900650/profiles/R1900650.nc"]
    "1900650" "WMO 1900650: Float 1 of 1" true 0
    ["http://tds0.ifremer.fr/thredds/dodsC/coriolis/1900650/profiles/R1900650.nc"]
    DataFrame0 ∅ = (∅, [], inl AttributeError).
Proof.
  apply (location_without_underscore_aborts (example_self true) example_world (λ x, x)
           5 10); [|lia].
  vm_compute. intros H. repeat (apply elem_of_cons in H as [H|H]; [discriminate H|]).
  by apply elem_of_nil in H.
Defined.

(** ** Failures of the servers *)

(** X9: A catalog that cannot be opened is not fatal: the float gives no
    profile, the store is left as it is, the one catalog request is the
    only fetch, and the loop goes on with the floats that follow. *)
Theorem unreachable_catalog_is_skipped (self : ArgoData) (W : World)
    (round1 : float → float) (max_profiles max_pressure : Z) (n_wmo : nat)
    (append_df : bool) (f : nat) (wmo dac_url : string)
    (dac_urls : list (string * string)) (float_df : DataFrame) (st : Store) :
  catalog_get W dac_url = None →
  ∃ evs0,
    fetches evs0 = [FetchCatalog dac_url] ∧
    floats_loop self W round1 max_profiles max_pressure n_wmo append_df f
      ((wmo, dac_url) :: dac_urls) float_df st =
    (let '(st', evs, r) :=
       floats_loop self W round1 max_profiles max_pressure n_wmo append_df (S f)
         dac_urls float_df st in
     (st', evs0 ++ evs, r)).
Proof.
  intros Hc. simpl. unfold get_profile_opendap_urls. rewrite Hc.
  unfold _repack_hdf. mrun.
  destruct (floats_loop _ _ _ _ _ _ _ _ _ _ _) as [[st' evs] r].
  eexists [_; _; _; _; _; _; _; _; _; _; _]. split; [|reflexivity]. done.
Qed.

Lemma unreachable_catalog_is_skipped_witness :
  ∃ evs0,
    fetches evs0 = [FetchCatalog "http://down/catalog.xml"] ∧
    floats_loop (example_self true) example_world (λ x, x) 5 10 1 true 0
      [("1900650", "http://down/catalog.xml")] DataFrame0 ∅ = (∅, evs0 ++ [], inr DataFrame0).
Proof.
  apply (unreachable_catalog_is_skipped (example_self true) example_world (λ x, x)
           5 10 1 true 0 "1900650" "http://down/catalog.xml" [] DataFrame0 ∅).
  by vm_compute.
Defined.

(** X10: When the index of floats is not in the cache and cannot be fetched,
    [get_float_dataframe] raises the error of that fetch: the store is left
    as it was and no catalog and no profile is requested. *)
Theorem index_failure_is_fatal (self : ArgoData) (W : World) (round1 : float → float)
    (wmo_list : list string) (max_profiles max_pressure : option Z) (append_df : bool)
    (st : Store) (e : exn) :
  st !! _GLOBAL_META = None → global_meta_get W (global_url self) = inl e →
  ∃ evs,
    get_float_dataframe self W round1 wmo_list max_profiles max_pressure append_df st =
      (st, evs, inl e) ∧
    fetches evs = [FetchGlobalMeta (global_url self)].
Proof.
  intros Hst He. unfold get_float_dataframe.
  destruct (validate_fetches self "profiles" max_profiles) as (e1 & z1 & Hz1 & Hf1).
  destruct (validate_fetches self "pressure" max_pressure) as (e2 & z2 & Hz2 & Hf2).
  rewrite (bind_run _ _ _ _ _ _ (Hz1 st)).
  rewrite (bind_run _ _ _ _ _ _ (Hz2 st)).
  assert (Hg : ∃ evs, cached_global_meta self W st = (st, evs, inl e) ∧
                      fetches evs = [FetchGlobalMeta (global_url self)]).
  { unfold cached_global_meta.
    rewrite (try_except_caught _ _ _ _ _ _ _ (get_df_miss self _ st Hst) eq_refl).
    unfold _global_meta_to_df. mrun. rewrite He. eexists. split; [reflexivity|done]. }
  destruct Hg as (eg & Hg & Hfg).
  unfold get_dac_urls. rewrite (bind_fail _ _ _ _ _ _ (bind_fail _ _ _ _ _ _ Hg)).
  eexists. split; [reflexivity|].
  by rewrite !fetches_app, Hf1, Hf2, Hfg.
Qed.

Lemma index_failure_is_fatal_witness :
  ∃ evs,
    get_float_dataframe (example_self true) no_world (λ x, x) ["1900650"] None None
      true ∅ = (∅, evs, inl IOError) ∧
    fetches evs = [FetchGlobalMeta (global_url (example_self true))].
Proof.
  apply (index_failure_is_fatal (example_self true) no_world (λ x, x) ["1900650"]
           None None true ∅ IOError); done.
Defined.

(** ** The cache file only grows *)

Lemma only_adds_refl (st : Store) : only_adds st st.
Proof.
  split; [done|]. intros k Hk [v Hv]. congruence.
Qed.

Lemma only_adds_trans (st1 st2 st3 : Store) :
  only_adds st1 st2 → only_adds st2 st3 → only_adds st1 st3.
Proof.
  intros [Hs1 Hk1] [Hs2 Hk2]. split; [by etrans|].
  intros k Hk Hv. destruct (st2 !! k) eqn:E; eauto.
Qed.

Lemma only_adds_insert (st : Store) (k : string) (v : DataFrame * option (list string)) :
  st !! k = None → (k = _GLOBAL_META ∨ ∃ url, key_of url = inr k) →
  only_adds st (<[k := v]> st).
Proof.
  intros Hk Hok. split; [by apply insert_subseteq|].
  intros k' Hk' Hv. destruct (decide (k' = k)) as [->|Hne]; [done|].
  rewrite lookup_insert_ne in Hv by done. destruct Hv. congruence.
Qed.

Section Frame.

Context (self : ArgoData) (W : World) (round1 : float → float).
Context (max_profiles max_pressure : Z).

(** One profile of the loop: the store, the trace and the table of the
    profile do not depend on the table being aggregated. *)
Lemma profile_step_frame (opendap_urls : list string) (wmo float_msg url : string)
    (i : nat) (st : Store) :
  ∃ st' evs (r : exn + DataFrame),
    (∀ append_df float_df,
       profile_step self W round1 url i opendap_urls wmo max_pressure float_msg
         append_df float_df st =
       (st', evs,
        match r with
        | inl e => inl e
        | inr df => inr (appended append_df float_df df)
        end)) ∧
    only_adds st st' ∧
    (∀ df, r = inr df → cached_as st' url df).
Proof.
  pose proof (float_profile_run url st) as Hfp.
  destruct (key_of url) as [e|key] eqn:Hkey.
  { exists st, [], (inl e). split; [|split; [apply only_adds_refl|done]].
    intros append_df float_df. unfold profile_step. by apply bind_fail. }
  destruct (st !! key) as [[df meta]|] eqn:Hst.
  { exists st, (hit_trace self key), (inr df).
    split; [|split; [apply only_adds_refl|]].
    - intros append_df float_df. by eapply profile_step_hit.
    - intros ? [= <-]. by exists key, meta. }
  destruct (save_profile_run self W round1 url i opendap_urls wmo key max_pressure
              float_msg st) as (evs & r & _ & evs' & Hsave).
  pose proof (try_except_caught _ (is_exn KeyError)
                (λ _, _save_profile self W round1 url i opendap_urls wmo key
                        max_pressure float_msg)
                _ _ _ _ (get_df_miss self key st Hst) eq_refl) as Htry.
  cbv beta in Htry. rewrite Hsave in Htry.
  assert (Hadd : ∀ v, only_adds st (<[key := v]> st)).
  { intros v. apply only_adds_insert; [done|]. right. by exists url. }
  destruct r as [[]|df].
  7: { eexists _, _, (inr DataFrame0). split; [|split; [apply Hadd|]].
       - intros append_df float_df. unfold profile_step.
         rewrite (bind_run _ _ _ _ _ _ Hfp). rewrite (bind_run _ _ _ _ _ _ Htry).
         reflexivity.
       - intros ? [= <-]. eexists key, _. split; [done|]. apply lookup_insert_eq. }
  7: { eexists _, _, (inr df). split; [|split; [apply Hadd|]].
       - intros append_df float_df. unfold profile_step.
         rewrite (bind_run _ _ _ _ _ _ Hfp). rewrite (bind_run _ _ _ _ _ _ Htry).
         reflexivity.
       - intros ? [= <-]. eexists key, _. split; [done|]. apply lookup_insert_eq. }
  all: eexists st, _, (inl _); (split; [|split; [apply only_adds_refl|done]]);
    intros append_df float_df; unfold profile_step;
    rewrite (bind_run _ _ _ _ _ _ Hfp); rewrite (bind_fail _ _ _ _ _ _ Htry);
    reflexivity.
Qed.

Lemma cached_as_weaken (st st' : Store) (url : string) (df : DataFrame) :
  cached_as st url df → st ⊆ st' → cached_as st' url df.
Proof.
  intros (key & meta & Hkey & Hst) Hsub. exists key, meta. split; [done|].
  by eapply lookup_weaken.
Qed.

(** The loop over the locations of a float: it processes the locations at
    the positions up to [max_profiles], that one included. *)
Lemma profiles_loop_frame (opendap_urls : list string) (wmo float_msg : string)
    (urls : list string) (i : nat) (st : Store) :
  ∃ st' evs (r : exn + list DataFrame),
    (∀ append_df float_df,
       profiles_loop self W round1 max_profiles max_pressure opendap_urls wmo
         float_msg append_df i urls float_df st =
       (st', evs, aggregate append_df float_df r)) ∧
    only_adds st st' ∧
    (∀ dfs, r = inr dfs →
       Forall2 (cached_as st')
         (take (Z.to_nat (max_profiles + 1 - Z.of_nat i)) urls) dfs).
Proof.
  revert i st. induction urls as [|url urls IH]; intros i st.
  { exists st, [], (inr []). split; [done|]. split; [apply only_adds_refl|].
    intros ? [= <-]. rewrite take_nil. constructor. }
  destruct (Z.gtb_spec (Z.of_nat i) max_profiles) as [Hgt|Hle].
  { eexists st, _, (inr []). split; [|split; [apply only_adds_refl|]].
    - intros append_df float_df. simpl.
      destruct (Z.gtb_spec (Z.of_nat i) max_profiles); [|lia]. reflexivity.
    - intros ? [= <-].
      replace (Z.to_nat _) with 0%nat by lia. constructor. }
  destruct (profile_step_frame opendap_urls wmo float_msg url i st)
    as (s1 & e1 & r1 & Hstep & Hadd1 & Hc1).
  destruct r1 as [e|df].
  { exists s1, e1, (inl e). split; [|split; [done|done]].
    intros append_df float_df. simpl.
    destruct (Z.gtb_spec (Z.of_nat i) max_profiles); [lia|].
    by rewrite (bind_fail _ _ _ _ _ _ (Hstep append_df float_df)). }
  destruct (IH (S i) s1) as (s2 & e2 & r2 & Hloop & Hadd2 & Hc2).
  exists s2, (e1 ++ e2),
    (match r2 with inl e => inl e | inr dfs => inr (df :: dfs) end).
  split; [|split; [by eapply only_adds_trans|]].
  - intros append_df float_df. simpl.
    destruct (Z.gtb_spec (Z.of_nat i) max_profiles); [lia|].
    rewrite (bind_run _ _ _ _ _ _ (Hstep append_df float_df)).
    rewrite Hloop. by destruct r2.
  - intros dfs Hdfs. destruct r2 as [|dfs2]; simplify_eq.
    replace (Z.to_nat (max_profiles + 1 - Z.of_nat i))
      with (S (Z.to_nat (max_profiles + 1 - Z.of_nat (S i)))) by lia.
    simpl. constructor; [|by apply Hc2].
    eapply cached_as_weaken; [by apply Hc1|]. apply Hadd2.
Qed.

Lemma aggregate_app (append_df : bool) (float_df : DataFrame) (dfs : list DataFrame)
    (r : exn + list DataFrame) :
  aggregate append_df (foldl (appended append_df) float_df dfs) r =
  aggregate append_df float_df
    (match r with inl e => inl e | inr dfs' => inr (dfs ++ dfs') end).
Proof. destruct r; simpl; [done|]. by rewrite foldl_app. Qed.

Lemma floats_loop_frame (n_wmo : nat) (dac_urls : list (string * string)) (f : nat)
    (st : Store) :
  ∃ st' evs (r : exn + list DataFrame),
    (∀ append_df float_df,
       floats_loop self W round1 max_profiles max_pressure n_wmo append_df f dac_urls
         float_df st =
       (st', evs, aggregate append_df float_df r)) ∧
    only_adds st st' ∧
    (∀ dfs, r = inr dfs → Forall (λ df, ∃ url, cached_as st' url df) dfs).
Proof.
  revert f st. induction dac_urls as [|[wmo dac_url] dac_urls IH]; intros f st.
  { exists st, [], (inr []). split; [done|]. split; [apply only_adds_refl|].
    intros ? [= <-]. constructor. }
  destruct (get_profile_opendap_urls_run W dac_url) as (evc & urls & Hcat & _).
  destruct (repack_run self) as (evr & Hrep & _).
  set (float_msg := "WMO " +:+ wmo +:+ ": Float " +:+ PyStr.format_d (Z.of_nat (f + 1)) +:+
                    " of " +:+ PyStr.format_d (Z.of_nat n_wmo)).
  destruct (profiles_loop_frame urls wmo float_msg urls 0 st)
    as (s1 & e1 & r1 & Hloop & Hadd1 & Hc1).
  destruct r1 as [e|dfs1].
  { eexists s1, _, (inl e). split; [|split; [done|done]].
    intros append_df float_df. simpl. fold float_msg.
    unfold logger at 1, emit. unfold bind at 1.
    rewrite (bind_run _ _ _ _ _ _ (Hcat st)).
    rewrite (bind_fail _ _ _ _ _ _ (Hloop append_df float_df)). reflexivity. }
  destruct (IH (S f) s1) as (s2 & e2 & r2 & Hrest & Hadd2 & Hc2).
  eexists s2, _,
    (match r2 with inl e => inl e | inr dfs' => inr (dfs1 ++ dfs') end).
  split; [|split; [by eapply only_adds_trans|]].
  - intros append_df float_df. simpl. fold float_msg.
    unfold logger at 1, emit. unfold bind at 1.
    rewrite (bind_run _ _ _ _ _ _ (Hcat st)).
    rewrite (bind_run _ _ _ _ _ _ (Hloop append_df float_df)).
    unfold logger at 1, emit. unfold bind at 1.
    rewrite (bind_run _ _ _ _ _ _ (Hrep s1)).
    rewrite Hrest, aggregate_app. reflexivity.
  - intros dfs Hdfs. destruct r2 as [|dfs2]; simplify_eq.
    apply Forall_app. split; [|by apply Hc2].
    specialize (Hc1 _ eq_refl).
    apply Forall2_Forall_r with (Q := λ df, ∃ url, cached_as s2 url df) in Hc1;
      [done|].
    apply Forall_forall. intros url _ df Hdf. exists url.
    eapply cached_as_weaken; [done|]. apply Hadd2.
Qed.

Lemma get_dac_urls_only_adds (desired : list string) (st st' : Store)
    (evs : list event) (r : exn + list (string * string)) :
  get_dac_urls self W desired st = (st', evs, r) → only_adds st st'.
Proof.
  unfold get_dac_urls. intros Hrun.
  assert (Hload : ∀ s1 ev1 r1, cached_global_meta self W st = (s1, ev1, r1) →
                               only_adds st s1).
  { intros s1 ev1 r1 Hload.
    destruct (st !! _GLOBAL_META) as [[df meta]|] eqn:Hst.
    - destruct (cached_global_meta_hit self W st df meta Hst) as (evs0 & Hhit & _).
      rewrite Hhit in Hload. simplify_eq. apply only_adds_refl.
    - destruct (cached_global_meta_miss self W st Hst) as (evs0 & Hmiss).
      rewrite Hmiss in Hload.
      destruct (global_meta_get W (global_url self)) as [e|meta]; simplify_eq.
      + apply only_adds_refl.
      + apply only_adds_insert; [done|by left]. }
  apply bind_any in Hrun as [(e & Hl & _)|(s1 & ? & df & ? & Hl & Hrest & _)].
  - by eapply Hload.
  - destruct (dac_urls_of_run self df desired) as (? & ? & Hd & _).
    rewrite Hd in Hrest. simplify_eq. by eapply Hload.
Qed.

End Frame.

Lemma get_float_dataframe_frame (self : ArgoData) (W : World) (round1 : float → float)
    (wmo_list : list string) (max_profiles max_pressure : option Z) (st : Store) :
  ∃ st' evs (r : exn + list DataFrame),
    (∀ append_df,
       get_float_dataframe self W round1 wmo_list max_profiles max_pressure
         append_df st =
       (st', evs, aggregate append_df DataFrame0 r)) ∧
    only_adds st st' ∧
    (∀ dfs, r = inr dfs → Forall (λ df, ∃ url, cached_as st' url df) dfs).
Proof.
  unfold get_float_dataframe.
  destruct (validate_fetches self "profiles" max_profiles) as (e1 & z1 & Hz1 & _).
  destruct (validate_fetches self "pressure" max_pressure) as (e2 & z2 & Hz2 & _).
  destruct (get_dac_urls self W wmo_list st) as [[s1 ed] [e|dac_urls]] eqn:Hdac.
  { exists s1, (e1 ++ e2 ++ ed), (inl e).
    split; [|split; [by eapply get_dac_urls_only_adds|done]].
    intros append_df.
    rewrite (bind_run _ _ _ _ _ _ (Hz1 st)), (bind_run _ _ _ _ _ _ (Hz2 st)).
    by rewrite (bind_fail _ _ _ _ _ _ Hdac). }
  destruct (floats_loop_frame self W round1 z1 z2 (length wmo_list) dac_urls 0 s1)
    as (s2 & ef & r & Hloop & Hadd & Hc).
  exists s2, (e1 ++ e2 ++ ed ++ ef), r.
  split; [|split; [|done]].
  - intros append_df.
    rewrite (bind_run _ _ _ _ _ _ (Hz1 st)), (bind_run _ _ _ _ _ _ (Hz2 st)).
    rewrite (bind_run _ _ _ _ _ _ Hdac). by rewrite Hloop.
  - eapply only_adds_trans; [by eapply get_dac_urls_only_adds|done].
Qed.

Lemma aggregate_without_append (float_df : DataFrame) (dfs : list DataFrame) :
  foldl (appended false) float_df dfs = float_df.
Proof. by induction dfs. Qed.

Lemma aggregate_index (float_df : DataFrame) (dfs : list DataFrame) :
  index (foldl df_append float_df dfs) = index float_df ++ concat (index <$> dfs).
Proof.
  revert float_df. induction dfs as [|df dfs IH]; intros float_df; simpl.
  - by rewrite app_nil_r.
  - rewrite IH. simpl. by rewrite app_assoc.
Qed.

(** X11: [get_float_dataframe] only adds to the cache file, whether it
    returns or raises: every table stored before the call is still there
    unchanged, and a name that is new is [global_meta] or the key of a
    location. *)
Theorem cache_file_only_grows (self : ArgoData) (W : World) (round1 : float → float)
    (wmo_list : list string) (max_profiles max_pressure : option Z) (append_df : bool)
    (st st' : Store) (evs : list event) (r : exn + DataFrame) :
  get_float_dataframe self W round1 wmo_list max_profiles max_pressure append_df st =
    (st', evs, r) →
  (∀ name v, st !! name = Some v → st' !! name = Some v) ∧
  (∀ name, st !! name = None → is_Some (st' !! name) →
           name = _GLOBAL_META ∨ ∃ url, key_of url = inr name).
Proof.
  intros Hrun.
  destruct (get_float_dataframe_frame self W round1 wmo_list max_profiles
              max_pressure st) as (s2 & ev2 & r2 & Hall & [Hsub Hnew] & _).
  rewrite Hall in Hrun. simplify_eq. split; [|done].
  intros name v Hv. by eapply lookup_weaken.
Qed.

Lemma cache_file_only_grows_witness :
  let st : Store := {["P1900650_001" := (DataFrame0, None)]} in
  (get_float_dataframe (example_self true) example_world (λ x, x) ["1900650"]
     None None true st).1.1 !! "P1900650_001" = Some (DataFrame0, None).
Proof.
  intros st.
  destruct (get_float_dataframe (example_self true) example_world (λ x, x) ["1900650"]
              None None true st) as [[st' evs] r] eqn:Hrun.
  apply (cache_file_only_grows _ _ _ _ _ _ _ _ _ _ _ Hrun). by vm_compute.
Defined.

(** X12: [append_df] decides the returned table and nothing else: with and
    without it the call leaves the same cache file and the same trace and
    fails with the same exception. With it the result is the tables of the
    processed profiles, as the cache file now holds them, appended in the
    order of processing; without it the result is the empty table. *)
Theorem append_df_only_shapes_the_result (self : ArgoData) (W : World)
    (round1 : float → float) (wmo_list : list string)
    (max_profiles max_pressure : option Z) (st : Store) :
  ∃ st' evs (r : exn + list DataFrame),
    get_float_dataframe self W round1 wmo_list max_profiles max_pressure true st =
      (st', evs,
       match r with
       | inl e => inl e
       | inr dfs => inr (foldl df_append DataFrame0 dfs)
       end) ∧
    get_float_dataframe self W round1 wmo_list max_profiles max_pressure false st =
      (st', evs,
       match r with
       | inl e => inl e
       | inr _ => inr DataFrame0
       end) ∧
    ∀ dfs, r = inr dfs →
      Forall (λ df, ∃ url, cached_as st' url df) dfs ∧
      index (foldl df_append DataFrame0 dfs) = concat (index <$> dfs).
Proof.
  destruct (get_float_dataframe_frame self W round1 wmo_list max_profiles
              max_pressure st) as (s2 & ev2 & r2 & Hall & _ & Hc).
  exists s2, ev2, r2. rewrite !Hall. split; [|split].
  - by destruct r2.
  - destruct r2; simpl; [done|]. by rewrite aggregate_without_append.
  - intros dfs Hdfs. split; [by apply Hc|]. by rewrite aggregate_index.
Qed.

(** X13: The loop over the locations of a float, started at position [i],
    processes exactly the locations at the positions up to [max_profiles],
    that position included ([max_profiles + 1 - i] of them, or all there
    are): each has its table in the cache file afterwards, and the result
    is the incoming table with these tables appended in order. *)
Theorem profiles_loop_takes_max_plus_one (self : ArgoData) (W : World)
    (round1 : float → float) (max_profiles max_pressure : Z)
    (opendap_urls : list string) (wmo float_msg : string) (append_df : bool)
    (urls : list string) (i : nat) (float_df res : DataFrame) (st st' : Store)
    (evs : list event) :
  profiles_loop self W round1 max_profiles max_pressure opendap_urls wmo float_msg
    append_df i urls float_df st = (st', evs, inr res) →
  ∃ dfs,
    Forall2 (cached_as st') (take (Z.to_nat (max_profiles + 1 - Z.of_nat i)) urls) dfs ∧
    res = foldl (appended append_df) float_df dfs.
Proof.
  intros Hrun.
  destruct (profiles_loop_frame self W round1 max_profiles max_pressure opendap_urls
              wmo float_msg urls i st) as (s2 & ev2 & r2 & Hall & _ & Hc).
  rewrite Hall in Hrun. destruct r2 as [e|dfs]; simpl in Hrun; simplify_eq.
  exists dfs. split; [by apply Hc|done].
Qed.

Lemma profiles_loop_takes_max_plus_one_witness :
  let urls := [example_url "001"; example_url "002"; example_url "003"] in
  ∃ st' dfs,
    Forall2 (cached_as st') [example_url "001"; example_url "002"] dfs ∧
    (profiles_loop (example_self true) example_world (λ x, x) 1 10 urls "1900650"
       "WMO 1900650: Float 1 of 1" true 0 urls DataFrame0 ∅).2 =
    inr (foldl (appended true) DataFrame0 dfs).
Proof.
  intros urls.
  destruct (profiles_loop (example_self true) example_world (λ x, x) 1 10 urls "1900650"
              "WMO 1900650: Float 1 of 1" true 0 urls DataFrame0 ∅)
    as [[st' evs] [e|res]] eqn:Hrun; [by vm_compute in Hrun|].
  destruct (profiles_loop_takes_max_plus_one _ _ _ _ _ _ _ _ _ _ _ _ _ _ _ _ Hrun)
    as (dfs & Hdfs & ->).
  exists st', dfs. split; [exact Hdfs|reflexivity].
Defined.

(** ** The columns of a profile table *)

Lemma foldM_inr_invariant_in {A B} (P : B → Prop) (f : B → A → M B) (l : list A) :
  (∀ b a st st' evs b', a ∈ l → f b a st = (st', evs, inr b') → P b → P b') →
  ∀ b st st' evs b', foldM f b l st = (st', evs, inr b') → P b → P b'.
Proof.
  induction l as [|a l IH]; intros Hf b st st' evs b' Hrun Hb; simpl in Hrun.
  - by injection Hrun as _ _ <-.
  - apply bind_inr in Hrun as (st1 & ev1 & b1 & ev2 & H1 & H2 & _).
    eapply IH; [|done|].
    + intros ? ? ? ? ? ? Hin. apply Hf. by right.
    + eapply Hf; [by left|done..].
Qed.

Lemma rmap_seq_row (xs : list float) (k i : nat) (vals : list cell) :
  rmap (λ j, match xs !! j with
             | Some y => inr (Num y)
             | None => inl IndexError
             end) (seq i k) = inr vals →
  (k = 0 ∨ i + k ≤ length xs)%nat ∧ vals = Num <$> take k (drop i xs).
Proof.
  revert i vals. induction k as [|k IH]; intros i vals; simpl.
  - intros [= <-]. split; [by left|done].
  - destruct (xs !! i) as [y|] eqn:Hy; [|done]. simpl.
    destruct (rmap _ (seq (S i) k)) as [|vs] eqn:Hvs; [done|]. simpl.
    intros [= <-]. apply IH in Hvs as [Hk ->].
    apply lookup_lt_Some in Hy as Hlt.
    split; [right; lia|].
    rewrite (drop_S _ _ _ Hy). done.
Qed.

Lemma take_indices_seq (x : item) (k : nat) (vals : list cell) :
  take_indices x (seq 0 k) = inr vals →
  ∃ xs, x = Row xs ∧ (k ≤ length xs)%nat ∧ vals = Num <$> take k xs.
Proof.
  destruct x as [|xs]; [done|]. simpl. intros H.
  apply rmap_seq_row in H as [Hk ->]. exists xs. rewrite drop_0.
  split; [done|]. split; [lia|done].
Qed.

Lemma slot_values_rbind (ds : Dataset) (v : string) (slot k : nat) (vals : list cell) :
  rbind (values_at ds v slot) (λ x, take_indices x (seq 0 k)) = inr vals →
  slot_values ds v slot k = Some vals.
Proof.
  unfold slot_values. destruct (values_at ds v slot) as [|x]; [done|]. simpl.
  intros H. apply take_indices_seq in H as (xs & -> & Hk & ->).
  by rewrite decide_True.
Qed.

Lemma slot_values_length (ds : Dataset) (v : string) (slot k : nat) (vals : list cell) :
  slot_values ds v slot k = Some vals → length vals = k.
Proof.
  unfold slot_values. destruct (values_at ds v slot) as [|[|xs]]; try done.
  case_decide; [|done]. intros [= <-].
  rewrite length_fmap, length_take. lia.
Qed.

Lemma add_column_inr (ds : Dataset) (url : string) (k : nat) (tuples : list label)
    (df df' : DataFrame) (v : string) (st st' : Store) (evs : list event) :
  add_column ds url (seq 0 k) tuples df v st = (st', evs, inr df') →
  df' = df ∨
  ∃ vals,
    df' = df_setitem df v {| s_values := vals; s_index := tuples |} ∧
    (slot_values ds v 0 k = Some vals ∨
     (slot_values ds v 1 k = Some vals ∧
      ∃ x0, slot_values ds v 0 k = Some x0 ∧ dropna_empty x0 = true)).
Proof.
  intros Hrun. unfold add_column in Hrun.
  destruct (rbind (values_at ds v 0) (λ x, take_indices x (seq 0 k)))
    as [e|x0] eqn:H0.
  { unfold try_except, bind, lift, logger, emit, ret in Hrun.
    simpl in Hrun.
    repeat case_match; simplify_eq; by left. }
  apply slot_values_rbind in H0 as H0'.
  destruct (rbind (values_at ds v 1) (λ x, take_indices x (seq 0 k)))
    as [e|x1] eqn:H1.
  - unfold try_except, bind, lift, logger, emit, ret in Hrun.
    simpl in Hrun.
    repeat case_match; simplify_eq; try (by left); right; eexists; split;
      try reflexivity; by left.
  - apply slot_values_rbind in H1 as H1'.
    unfold try_except, bind, lift, logger, emit, ret in Hrun.
    simpl in Hrun.
    destruct (dropna_empty x0) eqn:Hd; simpl in Hrun; simplify_eq; right.
    + exists x1. split; [done|]. right. split; [done|]. by exists x0.
    + exists x0. split; [done|]. by left.
Qed.

Lemma assoc_set_Forall {V} (P : string * V → Prop) (k : string) (v : V)
    (d : list (string * V)) :
  Forall P d → P (k, v) → Forall P (assoc_set k v d).
Proof.
  intros Hd Hkv. induction Hd as [|[k' v'] d Hx Hd IH]; simpl.
  - by constructor.
  - destruct (String.eqb k' k); by constructor.
Qed.

Lemma assoc_set_keys {V} (k : string) (v : V) (d : list (string * V)) :
  (assoc_set k v d).*1 = d.*1 ∨
  ((k ∉ d.*1) ∧ (assoc_set k v d).*1 = (d.*1) ++ [k]).
Proof.
  induction d as [|[k' v'] d IH].
  - right. split; [apply not_elem_of_nil|done].
  - cbn [assoc_set]. destruct (String.eqb_spec k' k) as [->|Hne]; [by left|].
    rewrite !fmap_cons. cbn [fst].
    destruct IH as [->|[Hnot ->]]; [by left|right].
    split; [|done]. apply not_elem_of_cons. by split.
Qed.

Lemma assoc_set_NoDup {V} (k : string) (v : V) (d : list (string * V)) :
  NoDup d.*1 → NoDup (assoc_set k v d).*1.
Proof.
  intros Hd. destruct (assoc_set_keys k v d) as [->|[Hnot ->]]; [done|].
  apply NoDup_app. split; [done|]. split; [|apply NoDup_singleton].
  intros x Hx Hx'. apply list_elem_of_singleton in Hx' as ->. done.
Qed.

Lemma assoc_get_None {V} (k : string) (d : list (string * V)) :
  k ∉ d.*1 → assoc_get k d = None.
Proof.
  induction d as [|[k' v'] d IH]; simpl; [done|].
  intros Hnot. apply not_elem_of_cons in Hnot as [Hne Hnot].
  destruct (String.eqb_spec k' k); [congruence|]. by apply IH.
Qed.

Lemma df_setitem_columns (P : string * list cell → Prop) (df : DataFrame) (v : string)
    (s : Series) :
  Forall P (columns df) → NoDup (columns df).*1 → P (v, s_values s) →
  Forall P (columns (df_setitem df v s)) ∧ NoDup (columns (df_setitem df v s)).*1.
Proof.
  intros HP Hnd Hv. unfold df_setitem.
  destruct (columns df) as [|c cs] eqn:Hc.
  - destruct (index df); simpl.
    + split; [by constructor|]. apply NoDup_singleton.
    + split; [by constructor|]. apply NoDup_singleton.
  - cbn [columns]. split; [by apply assoc_set_Forall|by apply assoc_set_NoDup].
Qed.

(** What a successful transform has put into its table *)
Lemma profile_to_dataframe_columns (self : ArgoData) (W : World)
    (round1 : float → float) (wmo url : string) (max_pressure : Z) (st st' : Store)
    (evs : list event) (df : DataFrame) :
  _profile_to_dataframe self W round1 wmo url max_pressure st = (st', evs, inr df) →
  ∃ ds axis k,
    open_dataset W url = inr ds ∧
    values_at ds "PRES_ADJUSTED" 0 = inr (Row axis) ∧
    pressures_loop max_pressure 0 axis = (take k axis, seq 0 k) ∧
    (k ≤ length axis)%nat ∧
    table_on (row_key round1 ds wmo <$> take k axis) df ∧
    NoDup (columns df).*1 ∧
    Forall (column_of ds k (symmetric_difference (variables self) _coordinates))
      (columns df).
Proof.
  intros Hrun.
  unfold _profile_to_dataframe in Hrun.
  apply bind_inr in Hrun as (? & ? & [] & ? & _ & Hrun & _).
  apply bind_inr in Hrun as (? & ? & [] & ? & _ & Hrun & _).
  apply bind_inr in Hrun as (? & ? & ds & ? & Hopen & Hrun & _).
  apply bind_inr in Hrun as (? & ? & [] & ? & _ & Hrun & _).
  apply bind_inr in Hrun as (? & ? & [] & ? & Hreq & Hrun & _).
  apply bind_inr in Hrun as (? & ? & [pressures idx] & ? & Hpres & Hrun & _).
  apply bind_inr in Hrun as (? & ? & tuples & ? & Htup & Hrun & _).
  unfold lift in Hopen, Htup.
  apply get_pressures_inr in Hpres as (axis & Haxis & Hpp & _).
  destruct (pressures_loop_prefix max_pressure 0 axis) as (k & Hk & Hlen & _).
  rewrite Hk in Hpp. injection Hpp as -> ->.
  assert (index_tuples round1 ds wmo (take k axis) = inr tuples) as Htup'
    by congruence.
  apply index_tuples_inr in Htup' as ->.
  exists ds, axis, k.
  split; [congruence|]. split; [done|]. split; [done|]. split; [done|].
  destruct (row_key round1 ds wmo <$> take k axis) as [|t ts] eqn:Hts.
  { simpl in Hrun. injection Hrun as _ _ <-. split; [by left|].
    split; [constructor|constructor]. }
  simpl in Hrun.
  set (names := symmetric_difference (variables self) _coordinates) in *.
  pose proof (foldM_inr_invariant_in
    (λ d, table_on (t :: ts) d ∧ NoDup (columns d).*1 ∧
          Forall (column_of ds k names) (columns d))
    (add_column ds url (seq 0 k) (t :: ts)) names) as Hinv.
  eapply Hinv; [|exact Hrun|].
  - intros b a s s' ev b' Hin Hadd (Htab & Hnd & Hcols).
    split; [by eapply add_column_table_on|].
    apply add_column_inr in Hadd as [->|(vals & -> & Hvals)]; [done|].
    apply and_comm. apply df_setitem_columns; [done..|]. by split.
  - split; [by left|]. split; constructor.
Qed.

(** X14: The columns of a profile table are variables of
    [variables ^ _coordinates], each once. Row [j] of a column is the value
    of its variable at position [j] of the pressure axis, so the values
    stand beside the pressure they were measured at; they come from slot 0,
    or from slot 1 when slot 0 has no reading at the retained positions.
    Every column has one value per row. *)
Theorem profile_table_columns (self : ArgoData) (W : World) (round1 : float → float)
    (wmo url : string) (max_pressure : Z) (st st' : Store) (evs : list event)
    (df : DataFrame) :
  _profile_to_dataframe self W round1 wmo url max_pressure st = (st', evs, inr df) →
  ∃ ds axis k,
    open_dataset W url = inr ds ∧
    values_at ds "PRES_ADJUSTED" 0 = inr (Row axis) ∧
    pressures_loop max_pressure 0 axis = (take k axis, seq 0 k) ∧
    NoDup (columns df).*1 ∧
    Forall (λ c, column_of ds k (symmetric_difference (variables self) _coordinates) c ∧
                 length c.2 = length (index df))
      (columns df).
Proof.
  intros Hrun.
  apply profile_to_dataframe_columns in Hrun
    as (ds & axis & k & Hopen & Haxis & Hk & Hlen & Htab & Hnd & Hcols).
  exists ds, axis, k. do 4 (split; [done|]).
  destruct Htab as [->|[Hidx _]]; [constructor|].
  eapply Forall_impl; [exact Hcols|]. intros [name vals] Hc. split; [done|].
  rewrite Hidx, length_fmap, length_take. simpl.
  destruct Hc as [_ [Hv|[Hv _]]]; apply slot_values_length in Hv; simpl in Hv; lia.
Qed.

Lemma profile_table_columns_witness :
  ∃ (ds : Dataset) (axis : list float) (k : nat),
    open_dataset example_world (example_url "001") = inr ds ∧
    values_at ds "PRES_ADJUSTED" 0 = inr (Row axis) ∧
    pressures_loop 10 0 axis = (take k axis, seq 0 k).
Proof.
  destruct (_profile_to_dataframe (example_self true) example_world (λ x, x) "1900650"
              (example_url "001") 10 ∅) as [[st' evs] [e|df]] eqn:Hrun;
    [by vm_compute in Hrun|].
  destruct (profile_table_columns _ _ _ _ _ _ _ _ _ _ Hrun)
    as (ds & axis & k & H1 & H2 & H3 & _).
  by exists ds, axis, k.
Defined.

(** ** Failures while saving a profile *)

(** X15: A profile whose dataset cannot be opened is not cached: the
    exception of the open ends the step, the store is left as it was (the
    key stays absent, so a later call fetches again), and the one request
    for the profile is the only fetch. *)
Theorem failed_download_is_not_cached (self : ArgoData) (W : World)
    (round1 : float → float) (opendap_urls : list string) (wmo : string)
    (max_pressure : Z) (float_msg : string) (append_df : bool) (url key : string)
    (i : nat) (float_df : DataFrame) (st : Store) (e : exn) :
  key_of url = inr key → st !! key = None →
  open_dataset W url = inl e → e ≠ RequiredVariableNotPresent →
  ∃ evs,
    profile_step self W round1 url i opendap_urls wmo max_pressure float_msg append_df
      float_df st = (st, evs, inl e) ∧
    fetches evs = [FetchProfile url].
Proof.
  intros Hkey Hst He Hne.
  pose proof (float_profile_run url st) as Hfp. rewrite Hkey in Hfp.
  assert (Hsave : ∃ evs,
    _save_profile self W round1 url i opendap_urls wmo key max_pressure float_msg st =
      (st, evs, inl e) ∧ fetches evs = [FetchProfile url]).
  { unfold _save_profile, _profile_to_dataframe. mrun. rewrite He.
    destruct e; try done; simpl; eexists; (split; [reflexivity|done]). }
  destruct Hsave as (evs & Hsave & Hf).
  pose proof (try_except_caught _ (is_exn KeyError)
                (λ _, _save_profile self W round1 url i opendap_urls wmo key
                        max_pressure float_msg)
                _ _ _ _ (get_df_miss self key st Hst) eq_refl) as Htry.
  cbv beta in Htry. rewrite Hsave in Htry.
  unfold profile_step. rewrite (bind_run _ _ _ _ _ _ Hfp).
  rewrite (bind_fail _ _ _ _ _ _ Htry).
  eexists. split; [reflexivity|]. simpl app. by rewrite !fetches_log.
Qed.

Lemma failed_download_is_not_cached_witness :
  ∃ evs,
    profile_step (example_self true) example_world (λ x, x) (example_url "004") 3
      [example_url "004"] "1900650" 10 "WMO 1900650: Float 1 of 1" true DataFrame0 ∅ =
      (∅, evs, inl IOError) ∧
    fetches evs = [FetchProfile (example_url "004")].
Proof.
  apply (failed_download_is_not_cached (example_self true) example_world (λ x, x)
           [example_url "004"] "1900650" 10 "WMO 1900650: Float 1 of 1" true
           (example_url "004") "P1900650_004" 3 DataFrame0 ∅ IOError);
    by vm_compute.
Defined.

(** X16: The oxygen check reads the column [DOXY_ADJUSTED]. When oxygen is
    required but [DOXY_ADJUSTED] is not among the configured variables, a
    profile whose table is not empty makes [_save_profile] raise [KeyError];
    nothing is stored. *)
Theorem oxygen_check_needs_its_column (self : ArgoData) (W : World)
    (round1 : float → float) (url : string) (count : nat) (opendap_urls : list string)
    (wmo key : string) (max_pressure : Z) (float_msg : string) (st st' : Store)
    (evs : list event) (df : DataFrame) :
  _oxygen_required self = true → "DOXY_ADJUSTED" ∉ variables self →
  _profile_to_dataframe self W round1 wmo url max_pressure st = (st', evs, inr df) →
  df_empty df = false →
  ∃ evs',
    _save_profile self W round1 url count opendap_urls wmo key max_pressure float_msg
      st = (st, evs', inl KeyError).
Proof.
  intros Hoxy Hnot Hrun Hne.
  assert (Hget : df_getitem df "DOXY_ADJUSTED" = inl KeyError).
  { apply profile_to_dataframe_columns in Hrun
      as (ds & axis & k & _ & _ & _ & _ & _ & _ & Hcols).
    unfold df_getitem. rewrite assoc_get_None; [done|].
    intros Hin. apply list_elem_of_fmap in Hin as ([name vals] & Hname & Hin).
    simpl in Hname. subst name.
    eapply Forall_forall in Hcols as [Hsym _]; [|done]. simpl in Hsym.
    unfold symmetric_difference in Hsym.
    apply elem_of_app in Hsym as [Hs|Hs]; apply list_elem_of_filter in Hs as [_ Hs].
    - done.
    - unfold _coordinates in Hs.
      repeat (apply elem_of_cons in Hs as [Hs|Hs]; [discriminate Hs|]).
      by apply elem_of_nil in Hs. }
  destruct (save_profile_run self W round1 url count opendap_urls wmo key max_pressure
              float_msg st) as (ev0 & r & Hfv & evs' & Hsave).
  assert (Hr : r = inl KeyError).
  { specialize (Hfv st). unfold fetch_and_validate in Hfv.
    rewrite (bind_run _ _ _ _ _ _ Hrun) in Hfv.
    rewrite Hne, Hoxy in Hfv. simpl in Hfv.
    unfold _validate_oxygen in Hfv. unfold bind, lift in Hfv.
    rewrite Hget in Hfv. by injection Hfv as _ _ <-. }
  subst r. by exists evs'.
Qed.

Lemma oxygen_check_needs_its_column_witness :
  let self := ArgoData_init None true "ftp://global" "http://thredds/"
                ["TEMP_ADJUSTED"; "PRES_ADJUSTED"; "LATITUDE"; "LONGITUDE"; "JULD"] in
  let W := {| open_dataset := λ _,
                inr (<["TEMP_ADJUSTED" := Values [Row [11.5%float; 9.25%float]]]>
                       (example_profile [5%float; 8%float] [210%float; 212%float]));
              catalog_get := λ _, None;
              global_meta_get := λ _, inl IOError |} in
  ∃ evs',
    _save_profile self W (λ x, x) (example_url "001") 0 [example_url "001"] "1900650"
      "P1900650_001" 10 "WMO 1900650: Float 1 of 1" ∅ = (∅, evs', inl KeyError).
Proof.
  intros self W.
  destruct (_profile_to_dataframe self W (λ x, x) "1900650" (example_url "001") 10 ∅)
    as [[st' evs] [e|df]] eqn:Hrun; [by vm_compute in Hrun|].
  apply (oxygen_check_needs_its_column self W (λ x, x) (example_url "001") 0
           [example_url "001"] "1900650" "P1900650_001" 10
           "WMO 1900650: Float 1 of 1" ∅ st' evs df); [done| |exact Hrun|].
  - vm_compute. intros H.
    repeat (apply elem_of_cons in H as [H|H]; [discriminate H|]).
    by apply elem_of_nil in H.
  - vm_compute in Hrun. by injection Hrun as _ _ <-.
Defined.

(** ** The cache file as a store of tables *)


(** ** The catalogs of the requested floats *)

(** X18: [get_dac_urls] answers for requested floats only, each at most
    once: every key of the result is in the requested list and is the
    second [/]-separated field of a [file] entry of the cached index table,
    and its catalog is [thredds_url], the first two fields of that entry
    and [/profiles/catalog.xml]. *)
Theorem dac_urls_are_requested_floats (self : ArgoData) (W : World)
    (desired : list string) (st st' : Store) (evs : list event)
    (dac_urls : list (string * string)) :
  get_dac_urls self W desired st = (st', evs, inr dac_urls) →
  ∃ df meta files,
    st' !! _GLOBAL_META = Some (df, meta) ∧
    df_getitem df "file" = inr files ∧
    NoDup dac_urls.*1 ∧
    Forall (λ kv, kv.1 ∈ desired ∧
                  ∃ f dac rest,
                    Str f ∈ files ∧ PyStr.split "/" f = dac :: kv.1 :: rest ∧
                    kv.2 = thredds_url self +:+ PyStr.join "/" [dac; kv.1] +:+
                           "/profiles/catalog.xml")
      dac_urls.
Proof.
  unfold get_dac_urls. intros Hrun.
  apply bind_inr in Hrun as (s1 & ev1 & df & ev2 & Hload & Hrest & _).
  apply cached_global_meta_post in Hload as [_ Hmeta].
  destruct (Hmeta df eq_refl) as (meta & Hst).
  destruct (dac_urls_of_run self df desired) as (? & ? & Hd & _).
  pose proof Hrest as Hrest'. rewrite Hd in Hrest'. injection Hrest' as -> _ _.
  unfold dac_urls_of in Hrest.
  apply bind_inr in Hrest as (? & ? & files & ? & Hfiles & Hrest & _).
  apply bind_inr in Hrest as (? & ? & dacs & ? & Hfold & Hrest & _).
  apply bind_inr in Hrest as (? & ? & [] & ? & _ & Hrest & _).
  injection Hrest as _ _ <-. unfold lift in Hfiles.
  exists df, meta, files. split; [done|]. split; [congruence|].
  apply and_comm.
  eapply (foldM_inr_invariant_in
            (λ d : list (string * string),
               Forall (λ kv, kv.1 ∈ desired ∧
                  ∃ f dac rest,
                    Str f ∈ files ∧ PyStr.split "/" f = dac :: kv.1 :: rest ∧
                    kv.2 = thredds_url self +:+ PyStr.join "/" [dac; kv.1] +:+
                           "/profiles/catalog.xml") d ∧
               NoDup d.*1));
    [|exact Hfold|split; constructor].
  intros d [num|f] s s' ev d' Hin Hstep [Hall Hnd]; [done|].
  destruct (PyStr.split "/" f) as [|dac [|floatNum rest]] eqn:Hsplit; try done.
  simpl in Hstep. case_bool_decide as Hdes; injection Hstep as _ _ <-; [|done].
  unfold dict_set. split; [|by apply assoc_set_NoDup].
  apply assoc_set_Forall; [done|]. simpl. split; [done|].
  by exists f, dac, rest.
Qed.

Lemma dac_urls_are_requested_floats_witness :
  ∃ dac_urls : list (string * string),
    (get_dac_urls (example_self true) example_world ["1900650"; "77"] ∅).2 =
      inr dac_urls ∧
    NoDup dac_urls.*1 ∧
    Forall (λ kv, kv.1 ∈ ["1900650"; "77"]) dac_urls.
Proof.
  destruct (get_dac_urls (example_self true) example_world ["1900650"; "77"] ∅)
    as [[st' evs] [e|dac_urls]] eqn:Hrun; [by vm_compute in Hrun|].
  destruct (dac_urls_are_requested_floats _ _ _ _ _ _ _ Hrun)
    as (df & meta & files & _ & _ & Hnd & Hall).
  exists dac_urls. split; [done|]. split; [done|].
  eapply Forall_impl; [exact Hall|]. by intros kv [Hin _].
Defined.

(** ** The order of binary64 numbers *)

Lemma SFleb_trans (x y z : spec_float) :
  SFleb x y = true → SFleb y z = true → SFleb x z = true.
Proof.
  unfold SFleb.
  destruct x as [s1|s1| |s1 m1 e1], y as [s2|s2| |s2 m2 e2], z as [s3|s3| |s3 m3 e3];
    simpl; try done;
    try (by destruct s1); try (by destruct s2); try (by destruct s3);
    try (by destruct s1, s2); try (by destruct s2, s3); try (by destruct s1, s3);
    try (by destruct s1, s2, s3).
  change (Pos.compare_cont Eq m1 m2) with (Pos.compare m1 m2).
  change (Pos.compare_cont Eq m2 m3) with (Pos.compare m2 m3).
  change (Pos.compare_cont Eq m1 m3) with (Pos.compare m1 m3).
  destruct s1, s2, s3; try done;
    destruct (Z.compare_spec e1 e2), (Z.compare_spec e2 e3), (Z.compare_spec e1 e3);
    try done; try lia;
    destruct (Pos.compare_spec m1 m2), (Pos.compare_spec m2 m3),
      (Pos.compare_spec m1 m3); simpl; try done; try lia.
Qed.

Lemma float_leb_trans (x y z : float) :
  PrimFloat.leb x y = true → PrimFloat.leb y z = true → PrimFloat.leb x z = true.
Proof. rewrite !leb_spec. apply SFleb_trans. Qed.

(** X19: Of two limits whose values as floats are in order, the smaller
    retains no more of the pressure axis than the larger: both retain a
    prefix, and the prefix of the smaller limit is a prefix of the other. *)
Theorem smaller_limit_retains_less (m1 m2 : Z) (i : nat) (axis : list float) :
  PrimFloat.leb (float_of_Z m1) (float_of_Z m2) = true →
  ∃ k1 k2,
    (k1 ≤ k2)%nat ∧
    pressures_loop m1 i axis = (take k1 axis, seq i k1) ∧
    pressures_loop m2 i axis = (take k2 axis, seq i k2).
Proof.
  intros Hle.
  destruct (pressures_loop_prefix m1 i axis) as (k1 & H1 & Hl1 & Hin1 & _).
  destruct (pressures_loop_prefix m2 i axis) as (k2 & H2 & Hl2 & _ & Hstop2).
  exists k1, k2. split; [|done].
  destruct (decide (k1 ≤ k2)%nat) as [|Hgt]; [done|]. exfalso.
  destruct (lookup_lt_is_Some_2 axis k2) as [p Hp]; [lia|].
  specialize (Hstop2 p Hp).
  assert (Hp1 : ge_int p m1 = false).
  { eapply Forall_forall in Hin1; [done|].
    apply list_elem_of_lookup. exists k2. rewrite lookup_take_lt by lia. done. }
  unfold ge_int in *. by rewrite (float_leb_trans _ _ _ Hle Hstop2) in Hp1.
Qed.

Lemma smaller_limit_retains_less_witness :
  ∃ k1 k2 : nat,
    (k1 ≤ k2)%nat ∧
    pressures_loop 5 0 [2%float; 7.5%float; 12%float] =
      (take k1 [2%float; 7.5%float; 12%float], seq 0 k1) ∧
    pressures_loop 10 0 [2%float; 7.5%float; 12%float] =
      (take k2 [2%float; 7.5%float; 12%float], seq 0 k2).
Proof.
  apply (smaller_limit_retains_less 5 10 0 [2%float; 7.5%float; 12%float]).
  by vm_compute.
Defined.

(** ** The status of the floats *)









(** ** Calls with other limits on a filled cache *)

Lemma profiles_loop_replay (self : ArgoData) (W W' : World) (round1 round1' : float → float)
    (max_profiles max_pressure max_pressure' : Z) (append_df : bool)
    (opendap_urls : list string) (wmo float_msg : string)
    (urls : list string) (i : nat) (float_df res : DataFrame) (st st' st2 : Store)
    (evs : list event) :
  profiles_loop self W round1 max_profiles max_pressure opendap_urls wmo float_msg
    append_df i urls float_df st = (st', evs, inr res) →
  st' ⊆ st2 →
  ∃ evs2,
    profiles_loop self W' round1' max_profiles max_pressure' opendap_urls wmo float_msg
      append_df i urls float_df st2 = (st2, evs2, inr res) ∧
    fetches evs2 = [].
Proof.
  revert i float_df st evs.
  induction urls as [|url urls IH]; intros i float_df st evs Hrun Hsub;
    simpl in Hrun; simpl.
  - injection Hrun as _ _ <-. by exists [].
  - destruct (Z.of_nat i >? max_profiles).
    + injection Hrun as _ _ <-. by eexists.
    + apply bind_inr in Hrun as (st1 & ev1 & df1 & ev2 & Hstep & Hrest & _).
      apply profile_step_inr in Hstep as (key & df & meta & Hkey & Hst1 & -> & _).
      pose proof (profiles_loop_grows _ _ _ _ _ _ _ _ _ _ _ _ _ _ _ _ Hrest) as Hgrow.
      assert (st2 !! key = Some (df, meta)) as Hst2.
      { eapply lookup_weaken; [|done]. by eapply lookup_weaken. }
      destruct (IH _ _ _ _ Hrest Hsub) as (evs2 & Hrest2 & Hnone).
      exists (hit_trace self key ++ evs2). split.
      * erewrite bind_run; [|by eapply profile_step_hit]. by rewrite Hrest2.
      * by rewrite fetches_app, Hnone.
Qed.

Lemma floats_loop_replay (self : ArgoData) (W W' : World) (round1 round1' : float → float)
    (max_profiles max_pressure max_pressure' : Z) (n_wmo : nat) (append_df : bool)
    (dac_urls : list (string * string)) (f : nat)
    (float_df res : DataFrame) (st st' st2 : Store) (evs : list event) :
  (∀ u, catalog_get W' u = catalog_get W u) →
  floats_loop self W round1 max_profiles max_pressure n_wmo append_df f dac_urls
    float_df st = (st', evs, inr res) →
  st' ⊆ st2 →
  ∃ evs2,
    floats_loop self W' round1' max_profiles max_pressure' n_wmo append_df f dac_urls
      float_df st2 = (st2, evs2, inr res) ∧
    fetches evs2 = FetchCatalog <$> dac_urls.*2.
Proof.
  intros Hsame. revert f float_df st st' evs.
  induction dac_urls as [|[wmo dac_url] dac_urls IH];
    intros f float_df st st' evs Hrun Hsub; simpl in Hrun; simpl.
  - injection Hrun as _ _ <-. by exists [].
  - destruct (get_profile_opendap_urls_run W dac_url) as (evc & urls & Hcat & Hfc).
    assert (Hcat' : ∀ s, get_profile_opendap_urls W' dac_url s = (s, evc, inr urls)).
    { intros s. rewrite <- (Hcat s). unfold get_profile_opendap_urls.
      by rewrite Hsame. }
    destruct (repack_run self) as (evr & Hrep & Hfr).
    apply bind_inr in Hrun as (? & ? & [] & ? & Hlog & Hrun & _).
    injection Hlog as <- _.
    rewrite (bind_run _ _ _ _ _ _ (Hcat st)) in Hrun.
    destruct (bind _ _ st) as [[sx evx] rx] eqn:Hx. simplify_eq.
    apply bind_inr in Hx as (s1 & ? & df1 & ? & Hloop & Hx & _).
    apply bind_inr in Hx as (? & ? & [] & ? & Hlog & Hx & _).
    injection Hlog as <- _.
    rewrite (bind_run _ _ _ _ _ _ (Hrep s1)) in Hx.
    destruct (floats_loop _ _ _ _ _ _ _ _ _ _ s1) as [[sy evy] ry] eqn:Hy.
    simplify_eq.
    pose proof (floats_loop_grows _ _ _ _ _ _ _ _ _ _ _ _ _ _ Hy) as Hgrow.
    edestruct (profiles_loop_replay self W W' round1 round1' max_profiles max_pressure
                 max_pressure') as (evp & Hloop2 & Hfp);
      [exact Hloop|by etrans|].
    destruct (IH _ _ _ _ _ Hy Hsub) as (evf & Hrest2 & Hff).
    eexists. split.
    + unfold bind at 1. unfold logger at 1, emit.
      rewrite (bind_run _ _ _ _ _ _ (Hcat' st2)).
      rewrite (bind_run _ _ _ _ _ _ Hloop2).
      unfold bind at 1. unfold logger at 1, emit.
      rewrite (bind_run _ _ _ _ _ _ (Hrep st2)).
      rewrite Hrest2. reflexivity.
    + simpl app. repeat rewrite ?fetches_log, ?fetches_app.
      by rewrite Hfc, Hfp, Hfr, Hff.
Qed.

Lemma get_dac_urls_replay (self : ArgoData) (W W' : World) (desired : list string)
    (st st' st2 : Store) (evs : list event) (dac_urls : list (string * string)) :
  get_dac_urls self W desired st = (st', evs, inr dac_urls) →
  st' ⊆ st2 →
  ∃ evs2, get_dac_urls self W' desired st2 = (st2, evs2, inr dac_urls) ∧
          fetches evs2 = [].
Proof.
  unfold get_dac_urls. intros Hrun Hsub.
  apply bind_inr in Hrun as (s1 & ? & df & ? & Hload & Hrest & _).
  apply cached_global_meta_post in Hload as [_ Hmeta].
  destruct (Hmeta df eq_refl) as (meta & Hst).
  destruct (dac_urls_of_run self df desired) as (evd & rd & Hd & Hfd).
  rewrite Hd in Hrest. simplify_eq.
  destruct (cached_global_meta_hit self W' st2 df meta) as (evh & Hhit & Hfh).
  { by eapply lookup_weaken. }
  eexists. split.
  - rewrite (bind_run _ _ _ _ _ _ Hhit). rewrite Hd. reflexivity.
  - by rewrite fetches_app, Hfh, Hfd.
Qed.

(** X22: what a call has cached is not looked at again. After a call of
    [get_float_dataframe] that returned, a call for the same floats and the
    same [max_profiles] returns the same table and leaves the store alone
    also when it is given another [max_pressure] and when the profile and
    index servers answer differently or not at all (the catalogs answering
    as before): a larger pressure limit does not bring back the readings an
    earlier call has cut off. Only the catalogs are fetched. *)
Theorem cached_profiles_ignore_later_limits (self : ArgoData) (W W' : World)
    (round1 round1' : float → float) (wmo_list : list string)
    (max_profiles max_pressure max_pressure' : option Z) (append_df : bool)
    (st st1 : Store) (ev1 : list event) (df : DataFrame) :
  (∀ u, catalog_get W' u = catalog_get W u) →
  get_float_dataframe self W round1 wmo_list max_profiles max_pressure append_df st =
    (st1, ev1, inr df) →
  ∃ ev2,
    get_float_dataframe self W' round1' wmo_list max_profiles max_pressure' append_df
      st1 = (st1, ev2, inr df) ∧
    Forall (λ e, ∃ u, e = FetchCatalog u) (fetches ev2).
Proof.
  unfold get_float_dataframe. intros Hsame Hrun.
  destruct (validate_fetches self "profiles" max_profiles) as (eva & mp & Hva & Hfa).
  destruct (validate_fetches self "pressure" max_pressure) as (evb & mq & Hvb & Hfb).
  destruct (validate_fetches self "pressure" max_pressure') as (evb' & mq' & Hvb' & Hfb').
  rewrite (bind_run _ _ _ _ _ _ (Hva st)) in Hrun.
  rewrite (bind_run _ _ _ _ _ _ (Hvb st)) in Hrun.
  destruct (bind (get_dac_urls _ _ _) _ st) as [[sx evx] rx] eqn:Hx.
  simplify_eq.
  apply bind_inr in Hx as (s0 & ? & dac_urls & ? & Hdac & Hloop & _).
  pose proof (floats_loop_grows _ _ _ _ _ _ _ _ _ _ _ _ _ _ Hloop) as Hgrow.
  destruct (get_dac_urls_replay _ _ W' _ _ _ st1 _ _ Hdac Hgrow) as (evd & Hdac2 & Hfd).
  edestruct (floats_loop_replay self W W' round1 round1' mp mq mq')
    as (evf & Hloop2 & Hff); [exact Hsame|exact Hloop|reflexivity|].
  exists (eva ++ evb' ++ evd ++ evf). split.
  - rewrite (bind_run _ _ _ _ _ _ (Hva st1)).
    rewrite (bind_run _ _ _ _ _ _ (Hvb' st1)).
    rewrite (bind_run _ _ _ _ _ _ Hdac2). by rewrite Hloop2.
  - rewrite !fetches_app, Hfa, Hfb', Hfd, Hff. simpl.
    apply Forall_fmap, Forall_forall. intros u _. by exists u.
Qed.

Lemma cached_profiles_ignore_later_limits_witness :
  ∃ (df : DataFrame) (st1 : Store) (ev2 : list event),
    (get_float_dataframe (example_self true) example_world (λ x, x) ["1900650"]
       None (Some 10) true ∅).2 = inr df ∧
    get_float_dataframe (example_self true)
      {| open_dataset := λ _, inl IOError;
         catalog_get := catalog_get example_world;
         global_meta_get := λ _, inl IOError |}
      (λ x, x) ["1900650"] None (Some 2000) true st1 = (st1, ev2, inr df).
Proof.
  destruct (get_float_dataframe (example_self true) example_world (λ x, x) ["1900650"]
              None (Some 10) true ∅) as [[st1 ev1] [e|df]] eqn:Hrun;
    [by vm_compute in Hrun|].
  destruct (cached_profiles_ignore_later_limits (example_self true) example_world
              {| open_dataset := λ _, inl IOError;
                 catalog_get := catalog_get example_world;
                 global_meta_get := λ _, inl IOError |}
              (λ x, x) (λ x, x) ["1900650"] None (Some 10) (Some 2000) true ∅ st1 ev1 df)
    as (ev2 & Hrun2 & _); [done|exact Hrun|].
  by exists df, st1, ev2.
Defined.

(** ** Saving is all or nothing *)

(** X23: [_save_profile] stores all or nothing. When it returns a table,
    that table is in the store under the key with the metadata [{url}] and
    nothing else has changed; when it raises, the store is as it was, and
    the exception is never [RequiredVariableNotPresent] (that one is turned
    into the empty table and stored). *)
Theorem save_profile_is_all_or_nothing (self : ArgoData) (W : World)
    (round1 : float → float) (url : string) (count : nat) (opendap_urls : list string)
    (wmo key : string) (max_pressure : Z) (float_msg : string) (st st' : Store)
    (evs : list event) (r : exn + DataFrame) :
  _save_profile self W round1 url count opendap_urls wmo key max_pressure float_msg st =
    (st', evs, r) →
  match r with
  | inr df => st' = <[key := (df, Some (url_metadata url))]> st
  | inl e => st' = st ∧ e ≠ RequiredVariableNotPresent
  end.
Proof.
  intros Hrun.
  destruct (save_profile_run self W round1 url count opendap_urls wmo key max_pressure
              float_msg st) as (ev0 & r0 & _ & evs' & Hsave).
  rewrite Hsave in Hrun.
  destruct r0 as [[]|df]; simplify_eq; done.
Qed.

Lemma save_profile_is_all_or_nothing_witness :
  let run := _save_profile (example_self true) example_world (λ x, x)
               (example_url "001") 0 [example_url "001"] "1900650" "P1900650_001" 10
               "WMO 1900650: Float 1 of 1" ∅ in
  ∃ df, run.2 = inr df ∧
        run.1.1 !! "P1900650_001" = Some (df, Some (url_metadata (example_url "001"))).
Proof.
  intros run.
  destruct run as [[st' evs] r] eqn:Hrun.
  pose proof (save_profile_is_all_or_nothing _ _ _ _ _ _ _ _ _ _ _ _ _ _ Hrun) as Hall.
  destruct r as [e|df]; [by vm_compute in Hrun|].
  exists df. split; [done|]. cbn [fst]. rewrite Hall. apply lookup_insert_eq.
Defined.

(** ** The locations of a catalog *)

Lemma split_aux_field (sep : ascii) (a b : string) (cur : list ascii) :
  sep ∉ PyStr.chars a →
  PyStr.split_aux sep (a +:+ String sep b) cur =
    PyStr.str (rev cur ++ PyStr.chars a) :: PyStr.split_aux sep b [].
Proof.
  revert cur. induction a as [|c a IH]; intros cur Hsep.
  - change (EmptyString +:+ String sep b) with (String sep b).
    cbn [PyStr.split_aux]. rewrite Ascii.eqb_refl. by rewrite app_nil_r.
  - apply not_elem_of_cons in Hsep as [Hne Hsep].
    change (String c a +:+ String sep b) with (String c (a +:+ String sep b)).
    cbn [PyStr.split_aux].
    destruct (Ascii.eqb_spec c sep) as [->|_]; [done|].
    rewrite IH by done. cbn [rev]. by rewrite <- app_assoc.
Qed.

Lemma split_field (a b : string) :
  "/"%char ∉ PyStr.chars a →
  PyStr.split "/" (a +:+ "/" +:+ b) = a :: PyStr.split "/" b.
Proof.
  intros Ha. unfold PyStr.split.
  change (a +:+ "/" +:+ b) with (a +:+ String "/" b).
  rewrite split_aux_field by done.
  change (rev [] ++ PyStr.chars a) with (PyStr.chars a). by rewrite str_chars.
Qed.

Lemma match_at_nc (s : list ascii) :
  is_Some (Re.match_at nc_RE s) ↔
  s = PyStr.chars "nc" ∨ s = PyStr.chars "nc" ++ [Re.newline].
Proof.
  unfold nc_RE. rewrite match_at_strip. split.
  - destruct s as [|a [|b rest]]; simpl; try by intros [? [=]].
    { destruct (Ascii.eqb a "n"); by intros [? [=]]. }
    destruct (Ascii.eqb_spec a "n") as [->|]; [|by intros [? [=]]].
    destruct (Ascii.eqb_spec b "c") as [->|]; [|by intros [? [=]]].
    unfold Re.match_at. simpl.
    destruct rest as [|c [|d rest]]; [by left| |by intros [? [=]]].
    destruct (Ascii.eqb_spec c Re.newline) as [->|]; [by right|by intros [? [=]]].
  - intros [->| ->]; by eexists.
Qed.

Lemma search_from_complete (r : Re.regex) (pre s : list ascii) :
  is_Some (Re.match_at r s) → is_Some (Re.search_from r (pre ++ s)).
Proof.
  intros Hs. induction pre as [|a pre IH]; rewrite search_from_unfold; simpl.
  - destruct Hs as [gs ->]. by destruct s.
  - destruct (Re.match_at r (a :: pre ++ s)); [by eexists|done].
Qed.

Lemma search_nc (p : string) :
  is_Some (Re.search nc_RE p) ↔
  ∃ pre, PyStr.chars p = pre ++ PyStr.chars "nc" ∨
         PyStr.chars p = pre ++ PyStr.chars "nc" ++ [Re.newline].
Proof.
  unfold Re.search. split.
  - intros [gs Hgs]. apply search_from_sound in Hgs as (pre & s & Hp & Hm).
    exists pre. rewrite Hp.
    destruct (proj1 (match_at_nc s)) as [->| ->]; [by eexists|by left|by right].
  - intros (pre & [Hp|Hp]); rewrite Hp; apply search_from_complete, match_at_nc;
      [by left|by right].
Qed.

(** X24: for a catalog at [scheme//host/app/...] that can be read,
    [get_profile_opendap_urls] returns, in the order of the catalog, the
    location [scheme//host/app/dodsC/] + path for each path that ends in
    [nc] (or in [nc] and a newline) and for no other; it never raises,
    leaves the store alone, and the catalog request is its only fetch. *)
Theorem catalog_locations (W : World) (scheme host app rest : string)
    (paths : list string) :
  "/"%char ∉ PyStr.chars scheme → "/"%char ∉ PyStr.chars host →
  "/"%char ∉ PyStr.chars app →
  let catalog_url := scheme +:+ "//" +:+ host +:+ "/" +:+ app +:+ "/" +:+ rest in
  catalog_get W catalog_url = Some paths →
  (∃ evs,
     (∀ st, get_profile_opendap_urls W catalog_url st =
        (st, evs,
         inr ((λ p, ((scheme +:+ "//" +:+ host +:+ "/" +:+ app) +:+ "/dodsC/") +:+ p) <$>
              filter (λ p, is_Some (Re.search nc_RE p)) paths))) ∧
     fetches evs = [FetchCatalog catalog_url]) ∧
  ∀ p, is_Some (Re.search nc_RE p) ↔
       ∃ pre, PyStr.chars p = pre ++ PyStr.chars "nc" ∨
              PyStr.chars p = pre ++ PyStr.chars "nc" ++ [Re.newline].
Proof.
  intros Hs Hh Ha catalog_url Hcat. split; [|apply search_nc].
  unfold get_profile_opendap_urls. rewrite Hcat.
  assert (Hbase : PyStr.join "/" (take 4 (PyStr.split "/" catalog_url)) =
                  scheme +:+ "//" +:+ host +:+ "/" +:+ app).
  { subst catalog_url.
    change (scheme +:+ "//" +:+ host +:+ "/" +:+ app +:+ "/" +:+ rest)
      with (scheme +:+ "/" +:+ (EmptyString +:+ "/" +:+
              (host +:+ "/" +:+ (app +:+ "/" +:+ rest)))).
    rewrite !split_field; try done. apply not_elem_of_nil. }
  rewrite Hbase. eexists. split; [intros st; reflexivity|done].
Qed.

Lemma catalog_locations_witness :
  ∃ evs,
    get_profile_opendap_urls example_world example_catalog ∅ =
      (∅, evs,
       inr [example_url "001"; example_url "002"; example_url "003"]).
Proof.
  destruct (catalog_locations example_world "http:" "tds0.ifremer.fr" "thredds"
              "catalog/CORIOLIS-ARGO-GDAC-OBS/coriolis/1900650/profiles/catalog.xml"
              [ "CORIOLIS-ARGO-GDAC-OBS/coriolis/1900650/profiles/R1900650_001.nc";
                "CORIOLIS-ARGO-GDAC-OBS/coriolis/1900650/profiles/R1900650_002.nc";
                "CORIOLIS-ARGO-GDAC-OBS/coriolis/1900650/profiles/R1900650_003.nc";
                "CORIOLIS-ARGO-GDAC-OBS/coriolis/1900650/profiles/index.html" ])
    as [(evs & Hrun & _) _].
  1-3: vm_compute; intros H;
    repeat (apply elem_of_cons in H as [H|H]; [discriminate H|]);
    by apply elem_of_nil in H.
  { by vm_compute. }
  exists evs. rewrite <- (Hrun ∅). by vm_compute.
Defined.
